(** * Shallow embedding of the SG&A workbook splitter (sga_splitter)

    Python strings are modelled as lists of [ascii] characters (read as
    Latin-1 code points); spreadsheet cells as the [value] type below; a
    worksheet as its list of rows.  Library calls of openpyxl, pandas and the
    file system are modelled only as far as the claims need them. *)

From Stdlib Require Import Ascii String List Bool Arith Lia ZArith QArith.
From Stdlib Require Import Sorting.Permutation Sorting.Sorted Sorting.Mergesort.
From Stdlib Require Import Zpow_facts.
Import ListNotations.

Open Scope list_scope.
Open Scope nat_scope.

(** ** Python string helpers *)
Module PyStr.

Definition text := list ascii.

(** A Rocq string literal as a [text]. *)
Definition t (s : string) : text := list_ascii_of_string s.

Definition code (c : ascii) : nat := nat_of_ascii c.

(** [str.isspace] (and the [\s] class of [re]) on Latin-1 code points. *)
Definition is_space (c : ascii) : bool :=
  let n := code c in
  ((9 <=? n) && (n <=? 13)) || ((28 <=? n) && (n <=? 32))
  || (n =? 133) || (n =? 160).

(** [str.lower] on Latin-1 code points. *)
Definition lower_char (c : ascii) : ascii :=
  let n := code c in
  if ((65 <=? n) && (n <=? 90)) || ((192 <=? n) && (n <=? 222) && negb (n =? 215))
  then ascii_of_nat (n + 32) else c.

Definition lower (s : text) : text := map lower_char s.

(** [str.lstrip(chars)] for the character class [drop]. *)
Fixpoint lstrip_by (drop : ascii -> bool) (s : text) : text :=
  match s with
  | [] => []
  | c :: r => if drop c then lstrip_by drop r else s
  end.

Definition strip_by (drop : ascii -> bool) (s : text) : text :=
  rev (lstrip_by drop (rev (lstrip_by drop s))).

Definition lstrip (s : text) : text := lstrip_by is_space s.

(** [str.strip()] *)
Definition strip (s : text) : text := strip_by is_space s.

(** [re.sub(r'\s+', ' ', s)]: every maximal run of whitespace becomes one
    space; [in_run] records that the previous character was whitespace. *)
Fixpoint collapse_aux (in_run : bool) (s : text) : text :=
  match s with
  | [] => []
  | c :: r =>
      if is_space c then
        (if in_run then collapse_aux true r else " "%char :: collapse_aux true r)
      else c :: collapse_aux false r
  end.

Definition collapse_ws (s : text) : text := collapse_aux false s.

Definition text_eqb (a b : text) : bool :=
  if list_eq_dec ascii_dec a b then true else false.

(** [s.startswith(p)]: the rest of [s] after the prefix [p]. *)
Fixpoint strip_prefix (p s : text) : option text :=
  match p, s with
  | [], _ => Some s
  | c :: p', d :: s' => if ascii_dec c d then strip_prefix p' s' else None
  | _ :: _, [] => None
  end.

(** [p in s] (substring test). *)
Fixpoint contains (p s : text) : bool :=
  match strip_prefix p s with
  | Some _ => true
  | None => match s with [] => false | _ :: s' => contains p s' end
  end.

Definition starts_with (s p : text) : bool :=
  match strip_prefix p s with Some _ => true | None => false end.

(** Decimal digits of a natural number ([str] of an [int]). *)
Fixpoint digits_aux (fuel : nat) (n : N) (acc : text) : text :=
  match fuel with
  | O => acc
  | S f =>
      let acc' := ascii_of_N (48 + N.modulo n 10) :: acc in
      if (n <? 10)%N then acc' else digits_aux f (N.div n 10) acc'
  end.

Definition show_N (n : N) : text := digits_aux (S (N.size_nat n)) n [].

Definition show_Z (z : Z) : text :=
  match z with
  | Zneg p => "-"%char :: show_N (Npos p)
  | _ => show_N (Z.to_N z)
  end.

End PyStr.

Import PyStr.

(** ** Cells and worksheets *)
Module Sheet.

(** A cell value as openpyxl returns it (and as pandas stores it in an
    object column): empty ([None] / NaN), a string or an integer. *)
Inductive value :=
| VNone
| VStr (s : text)
| VInt (z : Z).

(** [str(v)] for a non-empty cell. *)
Definition py_str (v : value) : text :=
  match v with
  | VNone => t "None"
  | VStr s => s
  | VInt z => show_Z z
  end.

(** Python truthiness of a cell value. *)
Definition truthy (v : value) : bool :=
  match v with
  | VNone => false
  | VStr s => negb (text_eqb s [])
  | VInt z => negb (Z.eqb z 0)
  end.

(** [str(cell.value or "").strip()] *)
Definition cell_text (v : value) : text :=
  strip (if truthy v then py_str v else []).

(** A worksheet: its rows (row 1 first) and [max_column]. *)
Record worksheet := {
  rows : list (list value);
  max_column : nat
}.

Definition max_row (ws : worksheet) : nat := length (rows ws).

(** [ws.cell(row=r, column=c).value], 1-based; cells outside the stored
    rows are empty. *)
Definition cell (ws : worksheet) (r c : nat) : value :=
  nth (c - 1) (nth (r - 1) (rows ws) []) VNone.

End Sheet.

Import Sheet.

(** The [ValueError]s raised by the modelled functions, by message kind. *)
Inductive error :=
| NoSheets                                          (** "Workbook contains no sheets" *)
| SheetNotFound (requested : text) (available : list text)
| HeaderNotFound (sample_headers : list text)
| TooFewSheets (found : nat).                       (** "Workbook must have at least 3 sheets" *)

(** ** Sorting helpers shared by the modules below *)
Module Sort.

(** [sorted(l)] with the comparison [le]: a stable insertion sort. *)
Fixpoint insert_asc {A : Type} (le : A -> A -> bool) (x : A) (l : list A) : list A :=
  match l with
  | [] => [x]
  | y :: l' => if le x y then x :: l else y :: insert_asc le x l'
  end.

Fixpoint sort_asc {A : Type} (le : A -> A -> bool) (l : list A) : list A :=
  match l with
  | [] => []
  | x :: l' => insert_asc le x (sort_asc le l')
  end.

(** Python's [<=] on [str]: lexicographic order of code points. *)
Fixpoint text_leb (a b : text) : bool :=
  match a, b with
  | [], _ => true
  | _ :: _, [] => false
  | x :: a', y :: b' =>
      if code x <? code y then true
      else if code x =? code y then text_leb a' b' else false
  end.

(** [list.sort(key=..., reverse=True)]: a stable sort by descending key,
    written as an insertion sort (equal keys keep their order). *)
Fixpoint insert_desc {A B : Type} (le : B -> B -> bool) (key : A -> B) (x : A) (l : list A)
  : list A :=
  match l with
  | [] => [x]
  | y :: l' => if le (key y) (key x) then x :: l else y :: insert_desc le key x l'
  end.

Fixpoint sort_desc {A B : Type} (le : B -> B -> bool) (key : A -> B) (l : list A) : list A :=
  match l with
  | [] => []
  | x :: l' => insert_desc le key x (sort_desc le key l')
  end.

End Sort.

Import Sort.

(** ** detect.py *)
Module Detect.

(** [$] of [re]: the end of the string, or just before a final newline. *)
Definition regex_end (r : text) : bool :=
  match r with
  | [] => true
  | [c] => Ascii.eqb c "010"%char
  | _ => false
  end.

(** [^a$] *)
Definition match_word (a s : text) : bool :=
  match strip_prefix a s with Some r => regex_end r | None => false end.

(** [^a\s*[/-]?\s*b$].  Greedy matching of [\s*] and [[/-]?] needs no
    backtracking here: [b] starts with a letter, which neither class matches. *)
Definition opt_sep (s : text) : text :=
  match s with
  | c :: r => if Ascii.eqb c "/" || Ascii.eqb c "-" then r else s
  | [] => []
  end.

Definition match_pair (a b s : text) : bool :=
  match strip_prefix a s with
  | Some r =>
      match strip_prefix b (lstrip (opt_sep (lstrip r))) with
      | Some e => regex_end e
      | None => false
      end
  | None => false
  end.

Definition dp_patterns : list (text -> bool) :=
  [ match_pair (t "department") (t "project");
    match_pair (t "project") (t "department");
    match_pair (t "dept") (t "project");
    match_pair (t "project") (t "dept");
    match_word (t "department");
    match_word (t "project");
    match_word (t "dept") ].

(** [re.sub(r'\s+', ' ', header.strip().lower())] *)
Definition normalize (header : text) : text := collapse_ws (lower (strip header)).

Definition candidate_name_matches (header : text) : bool :=
  match header with
  | [] => false
  | _ => existsb (fun p => p (normalize header)) dp_patterns
  end.

(** The texts the seven anchored patterns accept once normalised: a
    single word, or two words joined by one of ten separators (empty, one
    space, a slash or a dash with an optional space on either side). *)
Definition header_separators : list text :=
  [] :: map t [" "; "/"; "-"; " /"; " -"; "/ "; "- "; " / "; " - "]%string.

Definition header_pairs : list (text * text) :=
  [(t "department", t "project"); (t "project", t "department");
   (t "dept", t "project"); (t "project", t "dept")].

Definition header_forms : list text :=
  [t "department"; t "project"; t "dept"]
  ++ flat_map (fun ab => map (fun m => fst ab ++ m ++ snd ab) header_separators) header_pairs.

(** No two whitespace characters in a row ([prev]: the character before
    was whitespace): the shape of [re.sub(r'\s+', ' ', ...)]'s output. *)
Fixpoint no_ws_run (prev : bool) (s : text) : Prop :=
  match s with
  | [] => True
  | c :: r => (prev = true -> is_space c = false) /\ no_ws_run (is_space c) r
  end.

(** [for col_idx, header in enumerate(row_values): if candidate_name_matches(header): ...] *)
Fixpoint find_col (row_values : list text) (col_idx : nat) : option nat :=
  match row_values with
  | [] => None
  | h :: rest => if candidate_name_matches h then Some col_idx else find_col rest (S col_idx)
  end.

Definition row_values (ws : worksheet) (row_idx : nat) : list text :=
  map (fun col_idx => cell_text (cell ws (S row_idx) (S col_idx)))
      (seq 0 (Nat.min 20 (max_column ws))).

Fixpoint scan_rows (ws : worksheet) (row_idxs : list nat) : option (nat * nat) :=
  match row_idxs with
  | [] => None
  | r :: rs =>
      match find_col (row_values ws r) 0 with
      | Some c => Some (r, c)
      | None => scan_rows ws rs
      end
  end.

(** Sample of the first row used in the error message. *)
Definition sample_headers (ws : worksheet) : list text :=
  if 0 <? Nat.min 50 (max_row ws) then
    firstn 5 (filter (fun v => negb (text_eqb v []))
                (map (fun col_idx => cell_text (cell ws 1 (S col_idx)))
                     (seq 0 (Nat.min 5 (max_column ws)))))
  else [].

(** Returns the 0-based [(header_row_index, dp_column_index)]. *)
Definition detect_header_and_column (ws : worksheet) : (nat * nat) + error :=
  match scan_rows ws (seq 0 (Nat.min 50 (max_row ws))) with
  | Some rc => inl rc
  | None => inr (HeaderNotFound (sample_headers ws))
  end.

(** *** difflib.SequenceMatcher(None, a, b).ratio()

    Without an [isjunk] function and with [len(b) < 200] (a sheet name has
    at most 31 characters) no element of [b] is junk or popular, so
    [find_longest_match] is the plain dynamic programme below. *)

(** Length of the common run ending at [a[i]], [b[j]] inside the window
    ([j2len[j-1] + 1] of the source). *)
Fixpoint run_back (a b : text) (alo blo i j fuel : nat) : nat :=
  match fuel with
  | O => 0
  | S f =>
      if (alo <=? i) && (blo <=? j) && Ascii.eqb (nth i a "000"%char) (nth j b "000"%char)
      then S (match i, j with
              | S i', S j' => run_back a b alo blo i' j' f
              | _, _ => 0
              end)
      else 0
  end.

Definition flm_step (a b : text) (alo blo : nat) (best : nat * nat * nat) (ij : nat * nat)
  : nat * nat * nat :=
  let '(i, j) := ij in
  let '(besti, bestj, bestsize) := best in
  if Ascii.eqb (nth i a "000"%char) (nth j b "000"%char) then
    let k := run_back a b alo blo i j (S i) in
    if bestsize <? k then (i + 1 - k, j + 1 - k, k) else best
  else best.

(** [for i in range(alo, ahi): for j in b2j[a[i]] (ascending, in [blo, bhi))] *)
Definition find_longest_match (a b : text) (alo ahi blo bhi : nat) : nat * nat * nat :=
  fold_left (flm_step a b alo blo)
            (list_prod (seq alo (ahi - alo)) (seq blo (bhi - blo)))
            (alo, blo, 0).

(** Sum of the sizes of [get_matching_blocks()]: the queue of windows is
    processed recursively (the sum does not depend on the queue order);
    every recursive window is strictly narrower in [a], so [S (length a)]
    steps suffice. *)
Fixpoint matched (fuel : nat) (a b : text) (alo ahi blo bhi : nat) : nat :=
  match fuel with
  | O => 0
  | S f =>
      let '(i, j, k) := find_longest_match a b alo ahi blo bhi in
      if k =? 0 then 0
      else k
           + (if (alo <? i) && (blo <? j) then matched f a b alo i blo j else 0)
           + (if (i + k <? ahi) && (j + k <? bhi) then matched f a b (i + k) ahi (j + k) bhi else 0)
  end.

(** [ratio()], as an exact rational ([_calculate_ratio]: 1.0 when both are empty). *)
Definition ratio (a b : text) : Q :=
  let la := length a in
  let lb := length b in
  if la + lb =? 0 then 1%Q
  else (inject_Z (Z.of_nat (2 * matched (S la) a b 0 la 0 lb)) / inject_Z (Z.of_nat (la + lb)))%Q.

Definition sga_keywords : list text :=
  map t ["sg&a"; "sga"; "selling"; "general"; "administrative"]%string.
Definition summary_keywords : list text :=
  map t ["summary"; "sum"; "total"; "consolidated"]%string.

Definition count_in (kws : list text) (name_lower : text) : nat :=
  length (filter (fun kw => contains kw name_lower) kws).

Definition sheet_score (name : text) : nat :=
  let name_lower := lower name in
  count_in sga_keywords name_lower * 2 + count_in summary_keywords name_lower.

Definition keyword_pick (sheet_names : list text) : text :=
  let scored := filter (fun ns => 0 <? snd ns) (map (fun n => (n, sheet_score n)) sheet_names) in
  match sort_desc Nat.leb snd scored with
  | (n, _) :: _ => n
  | [] => hd [] sheet_names
  end.

Definition _find_best_fuzzy_sheet (sheet_names : list text) (requested : option text) : text :=
  match requested with
  | Some r =>
      if negb (text_eqb r []) then
        let matches := map (fun n => (n, ratio (lower r) (lower n))) sheet_names in
        match sort_desc Qle_bool snd matches with
        | (n, q) :: _ => if Qle_bool q (6 # 10)%Q then keyword_pick sheet_names else n
        | [] => keyword_pick sheet_names
        end
      else keyword_pick sheet_names
  | None => keyword_pick sheet_names
  end.

Definition find_target_sheet_name (sheet_names : list text) (requested : option text)
  (fuzzy : bool) : text + error :=
  match sheet_names with
  | [] => inr NoSheets
  | first :: _ =>
      match requested with
      | None => if fuzzy then inl (_find_best_fuzzy_sheet sheet_names None) else inl first
      | Some r =>
          if existsb (text_eqb r) sheet_names then inl r
          else if fuzzy then inl (_find_best_fuzzy_sheet sheet_names (Some r))
          else inr (SheetNotFound r sheet_names)
      end
  end.

End Detect.


(** ** core.py *)
Module Core.

(** The [\w] class of [re] on Latin-1 code points: letters, digits, the
    numeric signs and [_]. *)
Definition is_word_char (c : ascii) : bool :=
  let n := code c in
  ((48 <=? n) && (n <=? 57)) || ((65 <=? n) && (n <=? 90)) || (n =? 95)
  || ((97 <=? n) && (n <=? 122))
  || (n =? 170) || (n =? 178) || (n =? 179) || (n =? 181) || (n =? 185) || (n =? 186)
  || ((188 <=? n) && (n <=? 190)) || ((192 <=? n) && (n <=? 214))
  || ((216 <=? n) && (n <=? 246)) || ((248 <=? n) && (n <=? 255)).

(** [re.search(r'\btotal\b', s)]; [prev_word] tells whether the character
    before [s] is a word character. *)
Fixpoint search_total (prev_word : bool) (s : text) : bool :=
  match s with
  | [] => false
  | c :: r =>
      (negb prev_word
       && match strip_prefix (t "total") s with
          | Some [] => true
          | Some (d :: _) => negb (is_word_char d)
          | None => false
          end)
      || search_total (is_word_char c) r
  end.

Definition _is_total_row (value : text) : bool :=
  match value with
  | [] => false
  | _ => search_total false (lower value)
  end.

(** Equality of cell values as [Series.unique] sees them. *)
Definition value_eqb (v w : value) : bool :=
  match v, w with
  | VNone, VNone => true
  | VStr a, VStr b => text_eqb a b
  | VInt a, VInt b => Z.eqb a b
  | _, _ => false
  end.

(** Keep the first occurrence of each element under [eqb]; [seen] holds
    the kept elements ([Series.unique] and the [seen] loop of
    [collect_groups]). *)
Fixpoint unique_by {A : Type} (eqb : A -> A -> bool) (seen : list A) (l : list A) : list A :=
  match l with
  | [] => []
  | x :: r =>
      if existsb (eqb x) seen then unique_by eqb seen r
      else x :: unique_by eqb (x :: seen) r
  end.

Definition is_null (v : value) : bool :=
  match v with VNone => true | _ => false end.

(** The body of [for value in unique_values]. *)
Definition group_of_value (skip_totals include_empty : bool) (v : value) : list text :=
  if is_null v then (if include_empty then [[]] else [])
  else
    let group_name := strip (py_str v) in
    if text_eqb group_name [] && negb include_empty then []
    else if skip_totals && _is_total_row group_name then []
    else [group_name].

Definition compare_key (case_insensitive : bool) (g : text) : text :=
  if case_insensitive then lower g else g.

(** [collect_groups(df, dp_col_name, ...)] on the column [df[dp_col_name]]. *)
Definition collect_groups (column : list value)
  (skip_totals case_insensitive include_empty : bool) : list text :=
  let series := if include_empty then column else filter (fun v => negb (is_null v)) column in
  let unique_values := unique_by value_eqb [] series in
  let groups := flat_map (group_of_value skip_totals include_empty) unique_values in
  let unique_groups :=
    unique_by (fun a b => text_eqb (compare_key case_insensitive a)
                                   (compare_key case_insensitive b)) [] groups in
  sort_asc text_leb unique_groups.

(** [split_workbook_multi_sheet]: everything after the sheet-count check
    (sheet analysis, group collection, per-group export and manifest
    writing) is the step [rest], from the sheet names and the existing
    files to the new files and the manifest, or an error. *)
Section Multi.
Variable entry : Type.
Variable rest : list text -> list text -> (list text * list entry) + error.

Definition split_workbook_multi_sheet (sheet_names : list text) (files : list text)
  : (list text * list entry) + error :=
  if length sheet_names <? 3 then inr (TooFewSheets (length sheet_names))
  else rest sheet_names files.
End Multi.

End Core.

(** ** io_utils.py *)
Module IoUtils.

(** The characters less-than, greater-than, colon, double quote (code 34),
    bar, question mark, star, backslash and slash. *)
Definition is_reserved (c : ascii) : bool :=
  existsb (Ascii.eqb c) ["<"; ">"; ":"; "034"; "|"; "?"; "*"; "092"; "/"]%char.

Definition unknown : text := t "Unknown".

(** [sanitize_filename] of io_utils.py (used by the exporters). *)
Definition sanitize_filename (text0 : text) : text :=
  if text_eqb text0 [] || text_eqb (strip text0) [] then unknown
  else
    let s1 := map (fun c => if is_reserved c then "_"%char else c) (strip text0) in
    let s2 := collapse_ws s1 in
    let s3 := strip_by (fun c => Ascii.eqb c "." || Ascii.eqb c " ") s2 in
    let s4 := if 200 <? length s3 then strip (firstn 200 s3) else s3 in
    if text_eqb s4 [] then unknown else s4.

(** [re.sub(r'-+', '-', s)] *)
Fixpoint collapse_dashes (in_run : bool) (s : text) : text :=
  match s with
  | [] => []
  | c :: r =>
      if Ascii.eqb c "-" then
        (if in_run then collapse_dashes true r else c :: collapse_dashes true r)
      else c :: collapse_dashes false r
  end.

(** [sanitize_filename] of export_commit_draft_clone.py. *)
Definition sanitize_filename_draft (text0 : text) : text :=
  if text_eqb text0 [] || text_eqb (strip text0) [] then unknown
  else
    let s1 := map (fun c => if is_reserved c then "-"%char else c) (strip text0) in
    let s2 := strip_by (fun c => Ascii.eqb c "-") (collapse_dashes false s1) in
    if text_eqb s2 [] then unknown else s2.

(** *** pathlib on the final path component (the parent directory,
    [out_dir], never changes). *)

(** [name.rfind('.')] *)
Fixpoint rfind_dot_aux (i : nat) (name : text) (found : option nat) : option nat :=
  match name with
  | [] => found
  | c :: r => rfind_dot_aux (S i) r (if Ascii.eqb c "." then Some i else found)
  end.

Definition rfind_dot (name : text) : option nat := rfind_dot_aux 0 name None.

(** The index of the suffix's dot when [0 < i < len(name) - 1]. *)
Definition suffix_start (name : text) : option nat :=
  match rfind_dot name with
  | Some i => if (0 <? i) && (i <? length name - 1) then Some i else None
  | None => None
  end.

Definition stem (name : text) : text :=
  match suffix_start name with Some i => firstn i name | None => name end.

(** [with_suffix(ext)]: [name[:-len(old_suffix)] + ext] (or [name + ext]). *)
Definition with_suffix (name ext : text) : text := stem name ++ ext.

(** [Path.exists()] against the names present in [out_dir]. *)
Definition exists_in (files : list text) (name : text) : bool :=
  existsb (text_eqb name) files.

(** The [while True] loop from [counter]; [fuel] bounds the number of
    iterations ([None]: the loop has not stopped within [fuel] rounds). *)
Fixpoint unique_loop (fuel : nat) (files : list text) (base ext : text) (counter : nat)
  : option text :=
  match fuel with
  | O => None
  | S f =>
      let new_name := stem base ++ t " #" ++ show_N (N.of_nat counter) in
      let new_path := with_suffix new_name ext in
      if negb (exists_in files new_path) then Some new_path
      else unique_loop f files base ext (S counter)
  end.

Definition generate_unique_filename (fuel : nat) (files : list text) (base ext : text)
  : option text :=
  let full_path := with_suffix base ext in
  if negb (exists_in files full_path) then Some full_path
  else unique_loop fuel files base ext 2.

End IoUtils.

(** ** exporters.py *)
Module Exporters.

Import IoUtils.

(** A manifest entry: [{'Department/Project': group, 'output_path': ...,
    'row_count': ..., 'mode': ...}]. *)
Record manifest_entry := {
  me_group : text;
  me_output_path : text;
  me_row_count : nat;
  me_mode : text
}.

(** [df[dp_col] == group] on one cell: only a string equal to [group]. *)
Definition fast_eq (v : value) (group : text) : bool :=
  match v with VStr s => text_eqb s group | _ => false end.

(** [len(df[df[dp_col] == group])] *)
Definition fast_row_count (column : list value) (group : text) : nat :=
  length (filter (fun v => fast_eq v group) column).

(** [cell_value is not None and str(cell_value).strip() == group] *)
Definition clone_matches (v : value) (group : text) : bool :=
  match v with VNone => false | _ => text_eqb (strip (py_str v)) group end.

(** [range(header_row + 2, ws.max_row + 1)] *)
Definition data_rows (ws : worksheet) (header_row : nat) : list nat :=
  seq (header_row + 2) (max_row ws - (header_row + 1)).

(** The [row_count] of [export_clone]. *)
Definition clone_row_count (ws : worksheet) (header_row dp_col_idx : nat) (group : text) : nat :=
  length (filter (fun r => clone_matches (cell ws r (S dp_col_idx)) group) (data_rows ws header_row)).

(** [rows_to_delete]: data rows that are not kept. *)
Definition rows_to_delete (ws : worksheet) (header_row dp_col_idx : nat) (group : text) : list nat :=
  filter (fun r => negb (clone_matches (cell ws r (S dp_col_idx)) group)) (data_rows ws header_row).

(** [delete_rows(i)] / [delete_cols(i)] (1-based): the entries after the
    [i]-th move up by one; nothing happens past the end. *)
Definition delete_at {A : Type} (i : nat) (l : list A) : list A :=
  firstn (i - 1) l ++ skipn i l.

Definition delete_rows_desc (idxs : list nat) (rs : list (list value)) : list (list value) :=
  fold_left (fun acc r => delete_at r acc) (sort_desc Nat.leb (fun x => x) idxs) rs.

(** The per-group body of [export_clone] up to the save: [None] when no
    data row matches ([continue]), else the filtered sheet and [row_count]. *)
Definition export_clone_sheet (ws : worksheet) (header_row dp_col_idx : nat) (group : text)
  : option (worksheet * nat) :=
  let row_count := clone_row_count ws header_row dp_col_idx group in
  if row_count =? 0 then None
  else Some ({| rows := delete_rows_desc (rows_to_delete ws header_row dp_col_idx group) (rows ws);
                max_column := max_column ws |}, row_count).

(** *** Column pruning ([_identify_columns_to_remove]) *)

Definition should_remove (remove_patterns : list text) (header_value : text) : bool :=
  existsb (fun pattern =>
             contains (lower pattern) header_value
             || starts_with header_value (t "unnamed")
             || contains (t "project/department") header_value
             || contains (t "department/project") header_value) remove_patterns.

Definition _identify_columns_to_remove (ws : worksheet) (header_row : nat)
  (remove_patterns : list text) (preserve_col_idx : option nat) : list nat :=
  match remove_patterns with
  | [] => []
  | _ =>
      filter (fun col_idx =>
                match preserve_col_idx with
                | Some p => negb (col_idx =? p)
                | None => true
                end
                && should_remove remove_patterns
                     (lower (cell_text (cell ws (S header_row) (S col_idx)))))
             (seq 0 (max_column ws))
  end.

(** [adjusted_split_col_idx]: one less for every removed index below it,
    visiting [sorted(columns_to_remove)]. *)
Definition adjusted_split_col_idx (columns_to_remove : list nat) (original : nat) : nat :=
  fold_left (fun acc col_idx => if col_idx <? original then acc - 1 else acc)
            (sort_asc Nat.leb columns_to_remove) original.

(** [for col_idx in sorted(columns_to_remove, reverse=True)] *)
Definition column_deletion_order (columns_to_remove : list nat) : list nat :=
  sort_desc Nat.leb (fun x => x) columns_to_remove.

(** [ws.delete_cols(col_idx + 1)] in that order, on every row. *)
Definition delete_columns (columns_to_remove : list nat) (ws : worksheet) : worksheet :=
  {| rows := fold_left (fun rs col_idx => map (delete_at (S col_idx)) rs)
                       (column_deletion_order columns_to_remove) (rows ws);
     max_column := max_column ws - length columns_to_remove |}.

(** *** The per-group loops of [export_fast] and [export_clone].

    The library writes ([pd.ExcelWriter] / [wb.save]) are the outcome
    [write_ok group path]: on success the file [path] exists afterwards, on
    failure an exception is raised, caught and logged, and no file is
    added.  [fuel] bounds the [while True] loop of
    [generate_unique_filename]; [None] is the state where that loop has not
    returned. *)
Section Loops.
Variable fuel : nat.
Variable write_ok : text -> text -> bool.

Record batch_state := {
  files : list text;
  manifest : list manifest_entry
}.

Definition xlsx : text := t ".xlsx".

Definition base_filename (group : text) : text :=
  sanitize_filename group ++ t " - SG&A Summary".

(** One group, once [row_count] is known. *)
Definition export_one (mode : text) (group : text) (row_count : nat) (st : batch_state)
  : option batch_state :=
  if row_count =? 0 then Some st
  else
    match generate_unique_filename fuel (files st) (base_filename group) xlsx with
    | None => None
    | Some output_path =>
        if write_ok group output_path then
          Some {| files := output_path :: files st;
                  manifest := manifest st ++
                    [{| me_group := group; me_output_path := output_path;
                        me_row_count := row_count; me_mode := mode |}] |}
        else Some st
    end.

Fixpoint export_fast (column : list value) (groups : list text) (st : batch_state)
  : option batch_state :=
  match groups with
  | [] => Some st
  | group :: gs =>
      match export_one (t "fast") group (fast_row_count column group) st with
      | Some st' => export_fast column gs st'
      | None => None
      end
  end.

(** [sheet_present]: [sheet_name in wb.sheetnames] after the reload. *)
Fixpoint export_clone (sheet_present : bool) (ws : worksheet) (header_row dp_col_idx : nat)
  (groups : list text) (st : batch_state) : option batch_state :=
  match groups with
  | [] => Some st
  | group :: gs =>
      let row_count := if sheet_present then clone_row_count ws header_row dp_col_idx group else 0 in
      match export_one (t "clone") group row_count st with
      | Some st' => export_clone sheet_present ws header_row dp_col_idx gs st'
      | None => None
      end
  end.

End Loops.

(** The column [df[dp_col]] that [read_sheet_as_dataframe] builds: the rows
    below the header, without the rows that are empty throughout. *)
Definition df_column (ws : worksheet) (header_row dp_col_idx : nat) : list value :=
  map (fun row => nth dp_col_idx row VNone)
      (filter (fun row => negb (forallb Core.is_null row)) (skipn (S header_row) (rows ws))).

(** The manifest entries a run adds: each from a positive row count
    [cnt group], a successful write, and the loop's [mode]. *)
Definition entries_ok (write_ok : text -> text -> bool) (mode : text) (cnt : text -> nat)
  (new : list manifest_entry) : Prop :=
  Forall (fun e => 0 < me_row_count e /\ me_row_count e = cnt (me_group e)
                   /\ write_ok (me_group e) (me_output_path e) = true
                   /\ me_mode e = mode) new.

End Exporters.

(** The entries of [l] whose 1-based (from [k]) index satisfies [keep];
    used to describe the effect of a sequence of deletions. *)
Fixpoint keep_idx {A : Type} (keep : nat -> bool) (k : nat) (l : list A) : list A :=
  match l with
  | [] => []
  | x :: r => if keep k then x :: keep_idx keep (S k) r else keep_idx keep (S k) r
  end.

(** ** Sample inputs *)
Module Samples.
Import Core IoUtils Exporters.

(** A title row, the header row (row 2), then four data rows; the
    department cell of row 5 starts with a space, the one of row 6 is
    empty. *)
Definition sheet1 : worksheet :=
  {| rows := [ [VStr (t "Budget 2024")];
               [VStr (t "ID"); VStr (t "Department/Project")];
               [VInt 1%Z; VStr (t "Sales")];
               [VInt 2%Z; VStr (t "IT")];
               [VInt 3%Z; VStr (t " Sales")];
               [VInt 4%Z; VNone] ];
     max_column := 2 |}.

(** The clone-mode sheet of [sheet1] for the group [Sales]. *)
Definition sheet1_sales : worksheet :=
  {| rows := [ [VStr (t "Budget 2024")];
               [VStr (t "ID"); VStr (t "Department/Project")];
               [VInt 1%Z; VStr (t "Sales")];
               [VInt 3%Z; VStr (t " Sales")] ];
     max_column := 2 |}.

(** No file yet, an empty manifest. *)
Definition empty_batch : batch_state := {| files := []; manifest := [] |}.

End Samples.

(** ** More of core.py and io_utils.py *)
Module CoreMore.
Import Detect Core IoUtils Exporters.

(** *** Input checks *)

(** [Path.suffix]: from the last dot when [0 < i < len(name) - 1], else empty. *)
Definition suffix (name : text) : text :=
  match suffix_start name with Some i => skipn i name | None => [] end.

(** [path.suffix.lower() in ['.xlsx', '.xlsm']] *)
Definition excel_suffix (name : text) : bool :=
  existsb (text_eqb (lower (suffix name))) [t ".xlsx"; t ".xlsm"].

(** The exceptions of [validate_inputs] (all [ValueError]). *)
Inductive validation_error :=
| InputMissing                  (** "Input file does not exist" *)
| NotExcel                      (** "Input file must be Excel format" *)
| BadMode (mode : text)         (** "Mode must be 'fast' or 'clone'" *)
| CannotCreateOutDir.           (** "Cannot create output directory" *)

(** [validate_inputs(input_path, out_dir, mode)]: [input_exists] is
    [input_path.exists()], [name] the last component of [input_path] and
    [mkdir_ok] whether [ensure_out_dir(out_dir)] returns. *)
Definition validate_inputs (input_exists : bool) (name mode : text) (mkdir_ok : bool)
  : option validation_error :=
  if negb input_exists then Some InputMissing
  else if negb (excel_suffix name) then Some NotExcel
  else if negb (existsb (text_eqb mode) [t "fast"; t "clone"]) then Some (BadMode mode)
  else if negb mkdir_ok then Some CannotCreateOutDir
  else None.

(** The exceptions of [load_workbook_safe]. *)
Inductive load_error :=
| LoadFileNotFound              (** [FileNotFoundError] *)
| LoadNotExcel                  (** "File must be an Excel file" *)
| LoadFailed.                   (** "Failed to load Excel file" *)

(** [load_workbook_safe(path)]; [load_ok] is whether [openpyxl.load_workbook]
    returns. *)
Definition load_workbook_safe (path_exists : bool) (name : text) (load_ok : bool)
  : option load_error :=
  if negb path_exists then Some LoadFileNotFound
  else if negb (excel_suffix name) then Some LoadNotExcel
  else if negb load_ok then Some LoadFailed
  else None.

(** *** [_detect_header_and_split_column] *)

Definition _matches_any_pattern (header : text) (patterns : list text) : bool :=
  match header with
  | [] => false
  | _ =>
      let normalized := strip (lower header) in
      existsb (fun pattern => contains (lower pattern) normalized) patterns
  end.

(** [s.endswith(p)] *)
Definition ends_with (s p : text) : bool := starts_with (rev s) (rev p).

(** The [for pattern in column_patterns] loop (with its [break] on an
    exact match), from the current [match_score]. *)
Fixpoint pattern_score (header_lower : text) (patterns : list text) (match_score : Z) : Z :=
  match patterns with
  | [] => match_score
  | pattern :: ps =>
      let pl := lower pattern in
      let slash := contains (t "/") header_lower in
      if text_eqb header_lower pl then 100%Z
      else pattern_score header_lower ps
             (if starts_with header_lower pl && negb slash then 80%Z
              else if starts_with header_lower pl then 40%Z
              else if ends_with header_lower pl && negb slash then 70%Z
              else if contains pl header_lower && negb slash then Z.max match_score 60
              else if contains pl header_lower then Z.max match_score 20
              else match_score)
  end.

Definition removal_markers : list text :=
  [t "project/department"; t "department/project"; t "unnamed"].

(** [match_score] of one matching header. *)
Definition match_score (header : text) (patterns : list text) : Z :=
  let header_lower := lower header in
  let s0 := pattern_score header_lower patterns 0 in
  let s1 := if contains (t "/") header_lower || contains (t "_") header_lower
               || contains (t "department") header_lower
            then (s0 - 50)%Z else s0 in
  let s2 := fold_left (fun s remove_pattern =>
                         if contains (lower remove_pattern) header_lower then (s - 100)%Z else s)
                      removal_markers s1 in
  (s2 + Z.max 0 (20 - Z.of_nat (length header)))%Z.

(** The [for col_idx, header in enumerate(row_values)] loop: the first
    column of strictly greatest score above [best_score]. *)
Fixpoint best_in_row (patterns : list text) (row_values : list text) (col_idx : nat)
  (best_match : option nat) (best_score : Z) : option nat :=
  match row_values with
  | [] => best_match
  | header :: rest =>
      if _matches_any_pattern header patterns && Z.ltb best_score (match_score header patterns)
      then best_in_row patterns rest (S col_idx) (Some col_idx) (match_score header patterns)
      else best_in_row patterns rest (S col_idx) best_match best_score
  end.

(** [sum(1 for val in row_values if val)] *)
Definition non_empty_count (row_values : list text) : nat :=
  length (filter (fun v => negb (text_eqb v [])) row_values).

(** The first loop, over [range(max_rows_to_scan)]. *)
Fixpoint pattern_pass (ws : worksheet) (patterns : list text) (row_idxs : list nat)
  : option (nat * nat) :=
  match row_idxs with
  | [] => None
  | row_idx :: rs =>
      let rv := row_values ws row_idx in
      let best_match := if 2 <=? non_empty_count rv then best_in_row patterns rv 0 None 0 else None in
      match best_match with
      | Some col_idx =>
          if 3 <=? non_empty_count rv then Some (row_idx, col_idx)
          else pattern_pass ws patterns rs
      | None => pattern_pass ws patterns rs
      end
  end.

(** The cells of the first [min(10, max_column)] columns of a row. *)
Definition row_values10 (ws : worksheet) (row_idx : nat) : list text :=
  map (fun col_idx => cell_text (cell ws (S row_idx) (S col_idx)))
      (seq 0 (Nat.min 10 (max_column ws))).

Fixpoint first_non_empty (row_values : list text) (col_idx : nat) : option nat :=
  match row_values with
  | [] => None
  | header :: rest =>
      if negb (text_eqb header []) then Some col_idx else first_non_empty rest (S col_idx)
  end.

(** The last loop, in the [except ValueError] branch. *)
Fixpoint wide_row_pass (ws : worksheet) (row_idxs : list nat) : option (nat * nat) :=
  match row_idxs with
  | [] => None
  | row_idx :: rs =>
      let rv := row_values10 ws row_idx in
      if 3 <=? non_empty_count rv then
        match first_non_empty rv 0 with
        | Some col_idx => Some (row_idx, col_idx)
        | None => wide_row_pass ws rs
        end
      else wide_row_pass ws rs
  end.

(** "Could not detect header and split column for patterns" *)
Inductive split_detect_error := SplitColumnNotFound (column_patterns : list text).

Definition _detect_header_and_split_column (ws : worksheet) (column_patterns : list text)
  : (nat * nat) + split_detect_error :=
  let scanned := seq 0 (Nat.min 50 (max_row ws)) in
  match pattern_pass ws column_patterns scanned with
  | Some rc => inl rc
  | None =>
      match detect_header_and_column ws with
      | inl rc => inl rc
      | inr _ =>
          match wide_row_pass ws scanned with
          | Some rc => inl rc
          | None => inr (SplitColumnNotFound column_patterns)
          end
      end
  end.

(** *** [_remove_unwanted_columns] on the column names of the frame *)

Definition _remove_unwanted_columns (columns remove_patterns : list text)
  (preserve_column : option text) : list text :=
  match remove_patterns with
  | [] => columns
  | _ =>
      filter (fun col =>
                match preserve_column with
                | Some p => negb (text_eqb p []) && text_eqb col p
                | None => false
                end
                || negb (should_remove remove_patterns (strip (lower col))))
             columns
  end.

(** [split_workbook_multi_sheet]: [remove_columns] defaults to
    [["unnamed", "project/department"]]. *)
Definition effective_remove_columns (remove_columns : option (list text)) : list text :=
  match remove_columns with
  | Some l => l
  | None => [t "unnamed"; t "project/department"]
  end.

End CoreMore.

(** ** More of exporters.py *)
Module ExportersMore.
Import Core IoUtils Exporters.

(** The sheet [export_clone_multi_sheet] saves for one group (before the
    file name and the save): the columns are pruned first, then the rows
    are filtered on the adjusted split column exactly as in [export_clone]. *)
Definition export_clone_multi_sheet_sheet (ws : worksheet) (header_row : nat)
  (remove_columns : list text) (original_split_col_idx : nat) (group : text)
  : option (worksheet * nat) :=
  let columns_to_remove :=
    _identify_columns_to_remove ws header_row remove_columns (Some original_split_col_idx) in
  let adjusted := adjusted_split_col_idx columns_to_remove original_split_col_idx in
  export_clone_sheet (delete_columns columns_to_remove ws) header_row adjusted group.

(** *** [_copy_sheet_filtered_for_group]: the column mapping *)





(** *** [create_multi_sheet_files_per_group] *)






Definition multi_suffix : text := t "_SG&A YTD Budget report.xlsx".

Section MultiFiles.
Variable fuel : nat.
Variable save_ok : text -> text -> bool.


End MultiFiles.

End ExportersMore.

(** ** export_commit_draft_clone.py *)
Module Draft.
Import Core Exporters.

(** A workbook: its sheets by name, in [sheetnames] order. *)
Definition workbook := list (text * worksheet).

(** [wb[name]] when [name in wb.sheetnames]. *)
Fixpoint sheet_lookup (name : text) (wb : workbook) : option worksheet :=
  match wb with
  | [] => None
  | (n, ws) :: r => if text_eqb n name then Some ws else sheet_lookup name r
  end.

Fixpoint find_first (p : nat -> bool) (l : list nat) : option nat :=
  match l with
  | [] => None
  | x :: r => if p x then Some x else find_first p r
  end.

(** Nested [for row_idx] / [for col_idx] loops that [break] at the first
    hit. *)
Fixpoint scan_grid (p : nat -> nat -> bool) (row_idxs col_idxs : list nat) : option (nat * nat) :=
  match row_idxs with
  | [] => None
  | row_idx :: rs =>
      match find_first (p row_idx) col_idxs with
      | Some col_idx => Some (row_idx, col_idx)
      | None => scan_grid p rs col_idxs
      end
  end.

Fixpoint find_summary_sheet (wb : workbook) : option worksheet :=
  match wb with
  | [] => None
  | (sheet_name, ws) :: r =>
      if contains (t "SG&A Summary") sheet_name || contains (t "SGA Summary") sheet_name
      then Some ws else find_summary_sheet r
  end.

Definition dept_keyword (cell_str : text) : bool :=
  contains (t "department") cell_str || contains (t "project") cell_str
  || contains (t "dept") cell_str || contains (t "group") cell_str.

Definition master_header_cell (ws : worksheet) (row_idx col_idx : nat) : bool :=
  let cell_value := cell ws row_idx col_idx in
  truthy cell_value && dept_keyword (strip (lower (py_str cell_value))).

(** [if cell_value and str(cell_value).strip(): groups.add(...)] *)
Definition group_of_cell (cell_value : value) : list text :=
  if truthy cell_value && negb (text_eqb (strip (py_str cell_value)) [])
  then [strip (py_str cell_value)] else [].

Inductive master_error :=
| NoSummarySheet                (** "SG&A Summary sheet not found in workbook" *)
| NoGroupColumn.                (** "Project/Department column not found ..." *)

(** [get_master_group_list]; the set is listed in first-seen order. *)
Definition get_master_group_list (wb : workbook) : list text + master_error :=
  match find_summary_sheet wb with
  | None => inr NoSummarySheet
  | Some ws =>
      match scan_grid (master_header_cell ws) (seq 1 (Nat.min 10 (max_row ws)))
                      (seq 1 (max_column ws)) with
      | None => inr NoGroupColumn
      | Some (header_row, dept_col_idx) =>
          inl (unique_by (fun a b => text_eqb a b) []
                 (flat_map (fun row_idx => group_of_cell (cell ws row_idx dept_col_idx))
                           (seq (S header_row) (max_row ws - header_row))))
      end
  end.

(** [remove_unnamed_columns]: header of row 1 starting with [unnamed]
    (any case) after [strip], other than the split column name. *)
Definition unnamed_header (split_col_name : text) (header_cell : value) : bool :=
  truthy header_cell
  && (let header_value := strip (py_str header_cell) in
      starts_with (lower header_value) (t "unnamed")
      && negb (text_eqb header_value split_col_name)).

Definition remove_unnamed_columns (ws : worksheet) (split_col_name : text) : worksheet :=
  if max_row ws =? 0 then ws
  else
    let cols_to_remove :=
      filter (fun col_idx => unnamed_header split_col_name (cell ws 1 col_idx))
             (rev (seq 1 (max_column ws))) in
    {| rows := fold_left (fun rs col_idx => map (delete_at col_idx) rs) cols_to_remove (rows ws);
       max_column := max_column ws - length cols_to_remove |}.

(** Step 1 of [process_sheet_clone_mode]: every cell of
    [1..max_row] x [1..max_column] copied. *)
Definition clone_copy (source_ws : worksheet) : worksheet :=
  {| rows := map (fun row_num => map (fun col_num => cell source_ws row_num col_num)
                                     (seq 1 (max_column source_ws)))
                 (seq 1 (max_row source_ws));
     max_column := max_column source_ws |}.

Definition split_header_match (split_col : text) (cell_value : value) : bool :=
  truthy cell_value
  && (let cell_str := strip (lower (py_str cell_value)) in
      contains (lower split_col) cell_str
      || (text_eqb (lower split_col) (t "project/department")
          && (contains (t "department") cell_str || contains (t "project") cell_str))).

(** [process_sheet_clone_mode]: the new target sheet ([None] when the
    source sheet is missing and the target is untouched) and
    [rows_remaining]. *)
Definition process_sheet_clone_mode (source_workbook : workbook) (sheet_name split_col group : text)
  : option worksheet * nat :=
  match sheet_lookup sheet_name source_workbook with
  | None => (None, 0)
  | Some source_ws =>
      let target_ws := clone_copy source_ws in
      match scan_grid (fun r c => split_header_match split_col (cell target_ws r c))
                      (seq 1 (Nat.min 10 (max_row target_ws))) (seq 1 (max_column target_ws)) with
      | None => (Some target_ws, if 1 <? max_row target_ws then max_row target_ws - 1 else 0)
      | Some (header_row, split_col_idx) =>
          let rows_to_delete :=
            filter (fun row_idx => negb (clone_matches (cell target_ws row_idx split_col_idx) group))
                   (seq (S header_row) (max_row target_ws - header_row)) in
          let target' := {| rows := fold_left (fun rs row_idx => delete_at row_idx rs)
                                              (rev rows_to_delete) (rows target_ws);
                            max_column := max_column target_ws |} in
          (Some target', if header_row <? max_row target' then max_row target' - header_row else 0)
      end
  end.

End Draft.

(** ** cli.py: the [multi-sheet] command after the split *)
Module Cli.

(** The Python values the command handles. *)
#[warnings="-register-all"]
Inductive pyval :=
| PNone
| PStr (s : text)
| PInt (n : nat)
| PList (l : list pyval)
| PDict (d : list (text * pyval)).

Inductive py_exc :=
| KeyError (key : text)
| AttributeError (attr : text)
| TypeError
| ValueError (msg : text).

Definition py (A : Type) : Type := (A + py_exc)%type.

Definition bind {A B : Type} (m : py A) (k : A -> py B) : py B :=
  match m with inl a => k a | inr e => inr e end.

Fixpoint py_mapM {A B : Type} (f : A -> py B) (l : list A) : py (list B) :=
  match l with
  | [] => inl []
  | x :: r => bind (f x) (fun y => bind (py_mapM f r) (fun ys => inl (y :: ys)))
  end.

Fixpoint dict_lookup (d : list (text * pyval)) (k : text) : option pyval :=
  match d with
  | [] => None
  | (k', v) :: r => if text_eqb k' k then Some v else dict_lookup r k
  end.

(** [o.get(k, default)] *)
Definition py_get (o : pyval) (k : text) (default : pyval) : py pyval :=
  match o with
  | PDict d => inl (match dict_lookup d k with Some v => v | None => default end)
  | _ => inr (AttributeError (t "get"))
  end.

(** [o[k]] with a string key. *)
Definition py_getitem (o : pyval) (k : text) : py pyval :=
  match o with
  | PDict d => match dict_lookup d k with Some v => inl v | None => inr (KeyError k) end
  | _ => inr TypeError
  end.

Definition py_truthy (o : pyval) : bool :=
  match o with
  | PNone => false
  | PStr s => negb (text_eqb s [])
  | PInt n => negb (n =? 0)
  | PList l => match l with [] => false | _ => true end
  | PDict d => match d with [] => false | _ => true end
  end.

Definition py_len (o : pyval) : py nat :=
  match o with
  | PStr s => inl (length s)
  | PList l => inl (length l)
  | PDict d => inl (length d)
  | _ => inr TypeError
  end.

(** [for x in o] *)
Definition py_iter (o : pyval) : py (list pyval) :=
  match o with
  | PStr s => inl (map (fun c => PStr [c]) s)
  | PList l => inl l
  | PDict d => inl (map (fun kv => PStr (fst kv)) d)
  | _ => inr TypeError
  end.

(** The summary dictionary [split_workbook_multi_sheet] returns once its
    sheets are analysed ([processed] holds the names of the processed
    sheets), or its "No sheets could be processed" error. *)
Definition multi_summary (input_file : text) (processed : list text) (total_groups : nat)
  (manifest_entries : list pyval) (out_dir : text) : py pyval :=
  match processed with
  | [] => inr (ValueError (t "No sheets could be processed"))
  | _ =>
      inl (PDict [(t "input_file", PStr input_file);
                  (t "sheets_processed", PList (map PStr processed));
                  (t "total_groups", PInt total_groups);
                  (t "files_created", PInt (length manifest_entries));
                  (t "output_dir", PStr out_dir);
                  (t "manifest_entries", PList manifest_entries)])
  end.

(** One row of the sheet table of [_print_multi_sheet_summary]. *)
Definition sheet_row (sheet_info : pyval) : py unit :=
  bind (py_get sheet_info (t "sheet_name") (PStr (t "Unknown"))) (fun _ =>
  bind (py_get sheet_info (t "split_by") (PStr (t "Unknown"))) (fun _ =>
  bind (py_get sheet_info (t "split_column") (PStr (t "Unknown"))) (fun _ =>
  bind (py_get sheet_info (t "groups_found") (PInt 0)) (fun _ =>
  bind (py_get sheet_info (t "files_created") (PInt 0)) (fun _ => inl tt))))).

(** [_print_multi_sheet_summary(summary, console)]; the rich calls on
    strings do not raise. *)
Definition _print_multi_sheet_summary (summary : pyval) : py unit :=
  bind (py_get summary (t "input_file") (PStr (t "Unknown"))) (fun _ =>
  bind (py_get summary (t "sheets_processed") (PList [])) (fun sp =>
  bind (py_len sp) (fun _ =>
  bind (py_get summary (t "total_files_created") (PInt 0)) (fun _ =>
  bind (py_get summary (t "output_dir") (PStr (t "Unknown"))) (fun _ =>
  bind (py_get summary (t "sheets_processed") PNone) (fun sp' =>
  if py_truthy sp' then
    bind (py_getitem summary (t "sheets_processed")) (fun l =>
    bind (py_iter l) (fun infos =>
    bind (py_mapM sheet_row infos) (fun _ => inl tt)))
  else inl tt)))))).

(** One row of [print_manifest_table]. *)
Definition manifest_row (entry : pyval) : py unit :=
  bind (py_get entry (t "Department/Project") (PStr (t "Unknown"))) (fun dept_project =>
  bind (py_get entry (t "row_count") (PInt 0)) (fun _ =>
  bind (py_get entry (t "mode") (PStr (t "unknown"))) (fun _ =>
  bind (py_get entry (t "output_path") (PStr (t "Unknown"))) (fun file_path =>
  bind (py_len dept_project) (fun _ =>
  bind (py_len file_path) (fun _ => inl tt)))))).

Definition print_manifest_table (manifest_entries : pyval) : py unit :=
  if negb (py_truthy manifest_entries) then inl tt
  else bind (py_iter manifest_entries) (fun es => bind (py_mapM manifest_row es) (fun _ => inl tt)).

(** [if files_created > 0]: an [int] is expected. *)
Definition print_success_message (files_created output_dir : pyval) : py unit :=
  match files_created with PInt _ => inl tt | _ => inr TypeError end.

(** The [try] block of [multi_sheet] from the call of
    [split_workbook_multi_sheet] to [print_success_message] (what follows
    only builds paths and prints). *)
Definition multi_sheet_body (result : py pyval) : py unit :=
  bind result (fun result =>
  bind (_print_multi_sheet_summary result) (fun _ =>
  bind (py_getitem result (t "manifest_entries")) (fun me =>
  bind (if py_truthy me then print_manifest_table me else inl tt) (fun _ =>
  bind (py_getitem result (t "total_files_created")) (fun fc =>
  bind (py_getitem result (t "output_dir")) (fun od =>
  print_success_message fc od)))))).

(** The exit status: any exception is caught and becomes [typer.Exit(1)]. *)
Definition multi_sheet_exit_code (result : py pyval) : nat :=
  match multi_sheet_body result with inl _ => 0 | inr _ => 1 end.

(** [str.split(',')] *)
Fixpoint split_on (sep : ascii) (s : text) : list text :=
  match s with
  | [] => [[]]
  | c :: r =>
      if Ascii.eqb c sep then [] :: split_on sep r
      else match split_on sep r with
           | [] => [[c]]
           | w :: ws => (c :: w) :: ws
           end
  end.

(** The [--remove-columns] option: [None] when absent or empty, else
    [[col.strip() for col in remove_columns.split(',')]]. *)
Definition parse_remove_columns (remove_columns : option text) : option (list text) :=
  match remove_columns with
  | Some s => if text_eqb s [] then None else Some (map strip (split_on ","%char s))
  | None => None
  end.

End Cli.

(** ** Sample sheets for the multi-sheet mode *)

Module MoreSamples.
Import Core CoreMore.
Definition split_sample_sheet : worksheet :=
  {| rows := [ [VStr (t "ID"); VStr (t "Project/Department"); VStr (t "Project"); VStr (t "Amount")];
               [VInt 1%Z; VStr (t "A"); VStr (t "P1"); VInt 10%Z] ];
     max_column := 4 |}.

Definition unnamed_sample_sheet : worksheet :=
  {| rows := [ [VStr (t "Project"); VStr (t "Unnamed: 1"); VStr (t "Amount")];
               [VStr (t "Sales"); VNone; VInt 5%Z];
               [VStr (t "IT"); VStr (t "x"); VInt 7%Z] ];
     max_column := 3 |}.

End MoreSamples.

(** * Proofs *)

Import Detect Core IoUtils Exporters Samples.

(** ** Sorting *)
Section SortDesc.
Context {A B : Type} (le : B -> B -> bool) (key : A -> B).
Hypothesis le_total : forall a b, le a b = false -> le b a = true.
Hypothesis le_trans : forall a b c, le a b = true -> le b c = true -> le a c = true.

Lemma insert_desc_perm : forall x l, Permutation (insert_desc le key x l) (x :: l).
Proof.
  intros x l; induction l as [|y l IH]; simpl; [reflexivity|].
  destruct (le (key y) (key x)); [reflexivity|].
  rewrite IH. apply perm_swap.
Qed.

Lemma sort_desc_perm : forall l, Permutation (sort_desc le key l) l.
Proof.
  induction l as [|x l IH]; simpl; [reflexivity|].
  rewrite insert_desc_perm. now rewrite IH.
Qed.

Lemma insert_desc_sorted : forall x l,
  StronglySorted (fun a b => le (key b) (key a) = true) l ->
  StronglySorted (fun a b => le (key b) (key a) = true) (insert_desc le key x l).
Proof.
  intros x l; induction l as [|y l IH]; intros H; simpl.
  - repeat constructor.
  - inversion H as [|? ? Hl Hall]; subst.
    destruct (le (key y) (key x)) eqn:E.
    + constructor; [exact H|]. constructor; [exact E|].
      eapply Forall_impl; [|exact Hall]. intros z Hz. simpl in Hz |- *. exact (le_trans _ _ _ Hz E).
    + constructor; [apply IH; exact Hl|].
      apply Forall_forall. intros z Hz.
      apply (Permutation_in _ (insert_desc_perm x l)) in Hz.
      destruct Hz as [<-|Hz].
      * apply le_total. exact E.
      * rewrite Forall_forall in Hall. apply Hall. exact Hz.
Qed.

Lemma sort_desc_sorted : forall l,
  StronglySorted (fun a b => le (key b) (key a) = true) (sort_desc le key l).
Proof.
  induction l as [|x l IH]; simpl; [constructor|]. apply insert_desc_sorted, IH.
Qed.

Lemma le_refl : forall a, le a a = true.
Proof. intros a. destruct (le a a) eqn:E; [reflexivity|]. pose proof (le_total _ _ E). congruence. Qed.

(** The head of the stable descending sort is the first element of
    maximal key. *)
Lemma sort_desc_head : forall l x r, sort_desc le key l = x :: r ->
  exists p s, l = p ++ x :: s
    /\ Forall (fun y => le (key x) (key y) = false) p
    /\ Forall (fun y => le (key y) (key x) = true) s.
Proof.
  induction l as [|z l IH]; intros x r H; simpl in H; [discriminate|].
  destruct (sort_desc le key l) as [|y r'] eqn:Es.
  - simpl in H. injection H as <- <-.
    assert (l = []) as ->.
    { apply Permutation_nil. rewrite <- Es. apply sort_desc_perm. }
    exists [], []. repeat split; constructor.
  - simpl in H. destruct (le (key y) (key z)) eqn:E.
    + injection H as <- <-. exists [], l. split; [reflexivity|]. split; [constructor|].
      apply Forall_forall. intros w Hw.
      assert (Hin : In w (y :: r')).
      { rewrite <- Es. apply (Permutation_in _ (Permutation_sym (sort_desc_perm l))). exact Hw. }
      pose proof (sort_desc_sorted l) as Hs. rewrite Es in Hs.
      inversion Hs as [|? ? _ Hall]; subst.
      destruct Hin as [<-|Hin]; [exact E|].
      rewrite Forall_forall in Hall. eapply le_trans; [apply Hall; exact Hin|exact E].
    + injection H as <- <-.
      destruct (IH y r' eq_refl) as (p & s & Hl & Hp & Hs).
      exists (z :: p), s. rewrite Hl. split; [reflexivity|]. split; [|exact Hs].
      constructor; [exact E|exact Hp].
Qed.

End SortDesc.

Section SortAsc.
Context {A : Type} (le : A -> A -> bool).
Hypothesis le_total : forall a b, le a b = false -> le b a = true.

Lemma insert_asc_perm : forall x l, Permutation (insert_asc le x l) (x :: l).
Proof.
  intros x l; induction l as [|y l IH]; simpl; [reflexivity|].
  destruct (le x y); [reflexivity|].
  rewrite IH. apply perm_swap.
Qed.

Lemma sort_asc_perm : forall l, Permutation (sort_asc le l) l.
Proof.
  induction l as [|x l IH]; simpl; [reflexivity|].
  rewrite insert_asc_perm. now rewrite IH.
Qed.

Lemma insert_asc_sorted : forall x l,
  Sorted (fun a b => le a b = true) l -> Sorted (fun a b => le a b = true) (insert_asc le x l).
Proof.
  intros x l; induction l as [|y l IH]; intros H; simpl.
  - repeat constructor.
  - destruct (le x y) eqn:E.
    + constructor; [exact H|]. constructor. exact E.
    + inversion H as [|? ? Hl Hhd]; subst.
      constructor; [apply IH; exact Hl|].
      destruct l as [|w l]; simpl.
      * constructor. apply le_total. exact E.
      * destruct (le x w); constructor; [apply le_total; exact E|].
        inversion Hhd; assumption.
Qed.

Lemma sort_asc_sorted : forall l, Sorted (fun a b => le a b = true) (sort_asc le l).
Proof.
  induction l as [|x l IH]; simpl; [constructor|]. apply insert_asc_sorted, IH.
Qed.

End SortAsc.

Lemma nat_leb_total : forall a b, Nat.leb a b = false -> Nat.leb b a = true.
Proof. intros a b H. apply Nat.leb_gt in H. apply Nat.leb_le. lia. Qed.

Lemma nat_leb_trans : forall a b c, Nat.leb a b = true -> Nat.leb b c = true -> Nat.leb a c = true.
Proof. intros a b c H1 H2. apply Nat.leb_le in H1, H2. apply Nat.leb_le. lia. Qed.

(** A descending sort of distinct indices is strictly decreasing. *)
Lemma desc_nodup_strict : forall l,
  StronglySorted (fun a b => Nat.leb b a = true) l -> NoDup l ->
  StronglySorted (fun a b => b < a) l.
Proof.
  induction l as [|x l IH]; intros Hs Hn; [constructor|].
  inversion Hs as [|? ? Hl Hall]; subst. inversion Hn as [|? ? Hx Hn']; subst.
  constructor; [apply IH; assumption|].
  rewrite Forall_forall in *. intros y Hy. specialize (Hall y Hy).
  apply Nat.leb_le in Hall. destruct (Nat.eq_dec x y) as [->|]; [contradiction|lia].
Qed.

Lemma sort_nat_desc_strict : forall l, NoDup l ->
  StronglySorted (fun a b => b < a) (sort_desc Nat.leb (fun x => x) l).
Proof.
  intros l Hn. apply desc_nodup_strict.
  - apply (sort_desc_sorted Nat.leb (fun x => x) nat_leb_total nat_leb_trans).
  - apply (Permutation_NoDup (Permutation_sym (sort_desc_perm Nat.leb (fun x => x) l))). exact Hn.
Qed.

Lemma perm_filter_length : forall {A} (f : A -> bool) l l',
  Permutation l l' -> length (filter f l) = length (filter f l').
Proof.
  intros A f l l' H; induction H; simpl.
  - reflexivity.
  - destruct (f x); simpl; congruence.
  - destruct (f x), (f y); reflexivity.
  - congruence.
Qed.

(** ** Deleting rows and columns *)

Lemma keep_idx_app : forall {A} (q : nat -> bool) (a b : list A) k,
  keep_idx q k (a ++ b) = keep_idx q k a ++ keep_idx q (k + length a) b.
Proof.
  intros A q a b; induction a as [|x a IH]; intros k; simpl.
  - now rewrite Nat.add_0_r.
  - rewrite IH. replace (S k + length a) with (k + S (length a)) by lia.
    destruct (q k); reflexivity.
Qed.

Lemma keep_idx_ext : forall {A} (p q : nat -> bool) (l : list A) k,
  (forall j, k <= j < k + length l -> p j = q j) -> keep_idx p k l = keep_idx q k l.
Proof.
  intros A p q l; induction l as [|x l IH]; intros k H; simpl; [reflexivity|].
  rewrite (H k) by (simpl; lia). rewrite (IH (S k)) by (intros j Hj; apply H; simpl; lia).
  reflexivity.
Qed.

Lemma keep_idx_all : forall {A} (q : nat -> bool) (l : list A) k,
  (forall j, k <= j < k + length l -> q j = true) -> keep_idx q k l = l.
Proof.
  intros A q l; induction l as [|x l IH]; intros k H; simpl; [reflexivity|].
  rewrite (H k) by (simpl; lia). rewrite IH by (intros j Hj; apply H; simpl; lia).
  reflexivity.
Qed.

Lemma keep_idx_filter : forall {A} (q : nat -> bool) (f : A -> bool) d (l : list A) k,
  (forall j, k <= j < k + length l -> q j = f (nth (j - k) l d)) ->
  keep_idx q k l = filter f l.
Proof.
  intros A q f d l; induction l as [|x l IH]; intros k H; simpl; [reflexivity|].
  rewrite (H k) by (simpl; lia). rewrite Nat.sub_diag.
  rewrite (IH (S k)).
  - reflexivity.
  - intros j Hj. rewrite (H j) by (simpl; lia).
    replace (j - k) with (S (j - S k)) by lia. reflexivity.
Qed.

(** Deleting the 1-based positions of a strictly decreasing list, one at a
    time, keeps exactly the entries whose original position is not listed. *)
Lemma delete_desc_keep : forall {A} (L : list nat) (l : list A),
  StronglySorted (fun a b => b < a) L -> (forall i, In i L -> 1 <= i) ->
  fold_left (fun acc i => delete_at i acc) L l
  = keep_idx (fun j => negb (existsb (Nat.eqb j) L)) 1 l.
Proof.
  intros A L; induction L as [|i L IH]; intros l Hs Hpos; simpl.
  - symmetry. apply keep_idx_all. reflexivity.
  - inversion Hs as [|? ? Hs' Hall]; subst. rewrite Forall_forall in Hall.
    assert (Hi : 1 <= i) by (apply Hpos; left; reflexivity).
    rewrite IH by (assumption || (intros j Hj; apply Hpos; right; exact Hj)).
    unfold delete_at at 1.
    destruct (Nat.lt_ge_cases (length l) i) as [Hlt|Hge].
    + rewrite firstn_all2 by lia. rewrite skipn_all2 by lia. rewrite app_nil_r.
      apply keep_idx_ext. intros j Hj.
      replace (j =? i) with false by (symmetry; apply Nat.eqb_neq; lia). reflexivity.
    + pose proof (firstn_skipn (i - 1) l) as Hsplit.
      remember (firstn (i - 1) l) as a eqn:Ea.
      assert (Hla : length a = i - 1) by (subst a; rewrite length_firstn; lia).
      destruct (skipn (i - 1) l) as [|x b] eqn:Eb.
      { apply (f_equal (@length A)) in Hsplit. rewrite length_app in Hsplit. simpl in Hsplit. lia. }
      assert (Hb : skipn i l = b).
      { rewrite <- Hsplit. rewrite skipn_app. assert (skipn i a = []) as -> by (apply skipn_all2; lia). simpl.
        rewrite Hla. replace (i - (i - 1)) with 1 by lia. reflexivity. }
      rewrite Hb. rewrite <- Hsplit.
      rewrite !keep_idx_app, Hla. replace (1 + (i - 1)) with i by lia.
      cbn [keep_idx]. rewrite Nat.eqb_refl. cbn [orb negb].
      f_equal.
      * apply keep_idx_ext. intros j Hj.
        replace (j =? i) with false by (symmetry; apply Nat.eqb_neq; lia). reflexivity.
      * rewrite !keep_idx_all; [reflexivity| |].
        -- intros j Hj. simpl.
           replace (j =? i) with false by (symmetry; apply Nat.eqb_neq; lia). simpl.
           apply negb_true_iff. apply not_true_iff_false. intros Hex.
           apply existsb_exists in Hex. destruct Hex as (y & Hy & Hjy).
           apply Nat.eqb_eq in Hjy. subst y. specialize (Hall j Hy). lia.
        -- intros j Hj.
           apply negb_true_iff. apply not_true_iff_false. intros Hex.
           apply existsb_exists in Hex. destruct Hex as (y & Hy & Hjy).
           apply Nat.eqb_eq in Hjy. subst y. specialize (Hall j Hy). lia.
Qed.

Lemma text_eqb_eq : forall a b, text_eqb a b = true <-> a = b.
Proof.
  intros a b. unfold text_eqb. destruct (list_eq_dec ascii_dec a b); split; congruence.
Qed.

Lemma existsb_eqb_In : forall j L, existsb (Nat.eqb j) L = true <-> In j L.
Proof.
  intros j L. rewrite existsb_exists. split.
  - intros (y & Hy & E). apply Nat.eqb_eq in E. subst. exact Hy.
  - intros H. exists j. split; [exact H|apply Nat.eqb_refl].
Qed.

Lemma existsb_eqb_perm : forall j L L', Permutation L L' ->
  existsb (Nat.eqb j) L = existsb (Nat.eqb j) L'.
Proof.
  intros j L L' HP. destruct (existsb (Nat.eqb j) L') eqn:E.
  - apply existsb_eqb_In. apply existsb_eqb_In in E.
    exact (Permutation_in _ (Permutation_sym HP) E).
  - apply not_true_iff_false. intros H. apply existsb_eqb_In in H.
    apply (Permutation_in _ HP) in H. apply existsb_eqb_In in H. congruence.
Qed.

Lemma map_nth_seq0 : forall {A} (d : A) l k,
  map (fun r => nth r l d) (seq k (length l - k)) = skipn k l.
Proof.
  intros A d l; induction l as [|x l IH]; intros k.
  - destruct k; reflexivity.
  - destruct k as [|k].
    + simpl. rewrite <- seq_shift, map_map. simpl. f_equal.
      pose proof (IH 0) as H0. rewrite Nat.sub_0_r in H0. exact H0.
    + simpl length. rewrite Nat.sub_succ. rewrite <- seq_shift, map_map. simpl.
      apply IH.
Qed.

Lemma map_nth_seq : forall {A} (d : A) l k,
  map (fun r => nth (r - 1) l d) (seq (S k) (length l - k)) = skipn k l.
Proof.
  intros A d l k. rewrite <- seq_shift, map_map.
  rewrite <- map_nth_seq0 with (d := d). apply map_ext. intros r.
  simpl. now rewrite Nat.sub_0_r.
Qed.

Lemma length_filter_map : forall {A B} (p : B -> bool) (g : A -> B) l,
  length (filter p (map g l)) = length (filter (fun x => p (g x)) l).
Proof.
  intros A B p g l; induction l as [|x l IH]; simpl; [reflexivity|].
  destruct (p (g x)); simpl; congruence.
Qed.

(** *** C4 *)

Lemma clone_row_count_rows : forall ws h dp g,
  clone_row_count ws h dp g
  = length (filter (fun row => clone_matches (nth dp row VNone) g) (skipn (S h) (rows ws))).
Proof.
  intros ws h dp g. unfold clone_row_count, data_rows, max_row, cell.
  replace (h + 2) with (S (S h)) by lia. replace (h + 1) with (S h) by lia.
  rewrite <- (map_nth_seq []). rewrite length_filter_map.
  f_equal. apply filter_ext. intros r. simpl. now rewrite Nat.sub_0_r.
Qed.

Lemma delete_rows_desc_keep : forall ws h dp g,
  delete_rows_desc (rows_to_delete ws h dp g) (rows ws)
  = firstn (S h) (rows ws)
    ++ filter (fun row => clone_matches (nth dp row VNone) g) (skipn (S h) (rows ws)).
Proof.
  intros ws h dp g. unfold delete_rows_desc.
  set (D := rows_to_delete ws h dp g).
  assert (HD : forall j, In j D <-> S (S h) <= j <= length (rows ws)
                                    /\ clone_matches (cell ws j (S dp)) g = false).
  { intros j. unfold D, rows_to_delete, data_rows, max_row.
    rewrite filter_In, in_seq, negb_true_iff. split; intros [H1 H2]; split; (assumption || lia). }
  rewrite delete_desc_keep.
  2: { apply sort_nat_desc_strict. apply NoDup_filter, seq_NoDup. }
  2: { intros i Hi. apply (Permutation_in _ (sort_desc_perm Nat.leb (fun x => x) D)) in Hi.
       apply HD in Hi. lia. }
  rewrite <- (firstn_skipn (S h) (rows ws)) at 1.
  rewrite keep_idx_app. f_equal.
  - apply keep_idx_all. intros j Hj. rewrite length_firstn in Hj.
    rewrite <- existsb_eqb_perm with (L := D) by (symmetry; apply sort_desc_perm).
    apply negb_true_iff, not_true_iff_false. intros Hin. apply existsb_eqb_In, HD in Hin. lia.
  - destruct (Nat.le_gt_cases (length (rows ws)) (S h)) as [Hle|Hgt].
    { rewrite skipn_all2 by exact Hle. reflexivity. }
    assert (Hlf : length (firstn (S h) (rows ws)) = S h) by (rewrite length_firstn; lia).
    rewrite Hlf. apply keep_idx_filter with (d := []). intros j Hj.
    rewrite length_skipn in Hj.
    rewrite <- existsb_eqb_perm with (L := D) by (symmetry; apply sort_desc_perm).
    rewrite nth_skipn. replace (S h + (j - (1 + S h))) with (j - 1) by lia.
    assert (Hc : cell ws j (S dp) = nth dp (nth (j - 1) (rows ws) []) VNone)
      by (unfold cell; simpl; now rewrite Nat.sub_0_r).
    rewrite <- Hc.
    destruct (clone_matches (cell ws j (S dp)) g) eqn:Em.
    + apply negb_true_iff, not_true_iff_false. intros Hin. apply existsb_eqb_In, HD in Hin.
      destruct Hin as [_ Hf]. congruence.
    + apply negb_false_iff. apply existsb_eqb_In, HD. split; [lia|exact Em].
Qed.

(** C4: for every group, when [export_clone] writes a file for it, the
    sheet it saves holds exactly the rows above the header, the header row
    and, in their original order, the data rows whose grouping cell is not
    empty and equals the group after [str(...).strip()], case-sensitively;
    an empty ([None]) cell matches no group, the empty group included. *)
Theorem export_clone_rows_exact : forall ws header_row dp_col_idx group ws' row_count,
  export_clone_sheet ws header_row dp_col_idx group = Some (ws', row_count) ->
  rows ws' = firstn (S header_row) (rows ws)
             ++ filter (fun row => clone_matches (nth dp_col_idx row VNone) group)
                       (skipn (S header_row) (rows ws))
  /\ row_count = length (filter (fun row => clone_matches (nth dp_col_idx row VNone) group)
                                (skipn (S header_row) (rows ws)))
  /\ 0 < row_count
  /\ (forall v, clone_matches v group = true <-> v <> VNone /\ strip (py_str v) = group).
Proof.
  intros ws h dp g ws' n H. unfold export_clone_sheet in H.
  destruct (clone_row_count ws h dp g =? 0) eqn:E; [discriminate|].
  injection H as <- <-. apply Nat.eqb_neq in E.
  split; [apply delete_rows_desc_keep|].
  split; [apply clone_row_count_rows|].
  split; [lia|].
  intros v. destruct v as [|s|z]; simpl.
  - split; [discriminate|]. intros [[] _]. reflexivity.
  - rewrite text_eqb_eq. split; [intros ->; split; [discriminate|reflexivity]|intros [_ ->]; reflexivity].
  - rewrite text_eqb_eq. split; [intros ->; split; [discriminate|reflexivity]|intros [_ ->]; reflexivity].
Qed.

Lemma export_clone_rows_exact_witness :
  export_clone_sheet sheet1 1 1 (t "Sales") = Some (sheet1_sales, 2)
  /\ rows sheet1_sales = firstn 2 (rows sheet1)
       ++ filter (fun row => clone_matches (nth 1 row VNone) (t "Sales")) (skipn 2 (rows sheet1))
  /\ 2 = length (filter (fun row => clone_matches (nth 1 row VNone) (t "Sales")) (skipn 2 (rows sheet1))).
Proof.
  assert (H : export_clone_sheet sheet1 1 1 (t "Sales") = Some (sheet1_sales, 2))
    by (vm_compute; reflexivity).
  destruct (export_clone_rows_exact sheet1 1 1 (t "Sales") sheet1_sales 2 H) as (H1 & H2 & _).
  split; [exact H|]. split; [exact H1|exact H2].
Defined.

(** ** C10: fewer than three sheets *)

(** C10: [split_workbook_multi_sheet] raises [TooFewSheets] for a workbook
    with fewer than three sheets, whatever the rest of the run would do:
    the result does not depend on [rest] (group collection, exports and the
    manifest), so no file and no manifest entry come out of it. *)
Theorem split_multi_requires_three_sheets :
  forall (entry : Type) (rest : list text -> list text -> (list text * list entry) + error)
         (sheet_names files : list text),
  length sheet_names < 3 ->
  Core.split_workbook_multi_sheet entry rest sheet_names files
  = inr (TooFewSheets (length sheet_names)).
Proof.
  intros entry rest names files H. unfold Core.split_workbook_multi_sheet.
  apply Nat.ltb_lt in H. rewrite H. reflexivity.
Qed.

Lemma split_multi_requires_three_sheets_witness :
  Core.split_workbook_multi_sheet nat (fun _ _ => inl ([t "out.xlsx"], [0])) [t "A"; t "B"] []
  = inr (TooFewSheets 2).
Proof.
  apply (split_multi_requires_three_sheets nat (fun _ _ => inl ([t "out.xlsx"], [0])) [t "A"; t "B"] []).
  simpl. lia.
Defined.

(** ** C5: column pruning *)

Lemma identify_columns_nodup : forall ws h pats pres,
  NoDup (_identify_columns_to_remove ws h pats pres).
Proof.
  intros ws h pats pres. unfold _identify_columns_to_remove.
  destruct pats; [constructor|]. apply NoDup_filter, seq_NoDup.
Qed.

Lemma identify_columns_preserve : forall ws h pats p,
  ~ In p (_identify_columns_to_remove ws h pats (Some p)).
Proof.
  intros ws h pats p. unfold _identify_columns_to_remove.
  destruct pats; [simpl; tauto|]. rewrite filter_In. intros [_ H].
  rewrite Nat.eqb_refl in H. discriminate.
Qed.

Lemma adjusted_fold_count : forall (L : list nat) p a,
  fold_left (fun acc c => if c <? p then acc - 1 else acc) L a
  = a - length (filter (fun c => c <? p) L).
Proof.
  induction L as [|c L IH]; intros p a; simpl; [lia|].
  rewrite IH. destruct (c <? p); simpl; lia.
Qed.

Lemma delete_columns_map : forall (D : list nat) (rs : list (list value)),
  fold_left (fun rs c => map (delete_at (S c)) rs) D rs
  = map (fun row => fold_left (fun r c => delete_at (S c) r) D row) rs.
Proof.
  induction D as [|c D IH]; intros rs; simpl.
  - symmetry. apply map_id.
  - rewrite IH, map_map. reflexivity.
Qed.

(** Deleting the columns [D] from the highest down moves the column [p]
    (not deleted) left by the number of deleted columns below it. *)
Lemma delete_desc_position : forall {A} (D : list nat) (row : list A) p,
  StronglySorted (fun a b => b < a) D -> ~ In p D -> p < length row ->
  nth_error (fold_left (fun r c => delete_at (S c) r) D row)
            (p - length (filter (fun c => c <? p) D))
  = nth_error row p.
Proof.
  intros A D; induction D as [|c D IH]; intros row p HS Hp Hl; simpl.
  - now rewrite Nat.sub_0_r.
  - apply StronglySorted_inv in HS as [HS Hall].
    rewrite Forall_forall in Hall.
    assert (Hdel : delete_at (S c) row = firstn c row ++ skipn (S c) row)
      by (unfold delete_at; simpl; now rewrite Nat.sub_0_r).
    assert (Hc : c <> p) by (intros ->; apply Hp; left; reflexivity).
    destruct (Nat.ltb_spec c p) as [Hlt|Hge].
    + simpl.
      assert (Hf : filter (fun c0 => c0 <? p - 1) D = filter (fun c0 => c0 <? p) D).
      { apply filter_ext_in. intros x Hx. specialize (Hall x Hx).
        destruct (Nat.ltb_spec x (p - 1)), (Nat.ltb_spec x p); lia. }
      assert (Hp' : ~ In (p - 1) D) by (intros Hin; specialize (Hall _ Hin); lia).
      assert (Hl' : p - 1 < length (delete_at (S c) row))
        by (rewrite Hdel, length_app, length_firstn, length_skipn; lia).
      pose proof (IH (delete_at (S c) row) (p - 1) HS Hp' Hl') as H.
      rewrite Hf in H. replace (p - S (length (filter (fun c0 => c0 <? p) D)))
        with (p - 1 - length (filter (fun c0 => c0 <? p) D)) by lia.
      rewrite H, Hdel, nth_error_app2 by (rewrite length_firstn; lia).
      rewrite length_firstn, nth_error_skipn. f_equal. lia.
    + assert (Hlt : p < c) by lia.
      assert (Hp' : ~ In p D) by (intros Hin; apply Hp; right; exact Hin).
      assert (Hl' : p < length (delete_at (S c) row))
        by (rewrite Hdel, length_app, length_firstn, length_skipn; lia).
      rewrite (IH (delete_at (S c) row) p HS Hp' Hl').
      rewrite Hdel, nth_error_app1 by (rewrite length_firstn; lia).
      rewrite nth_error_firstn. destruct (Nat.ltb_spec p c); [reflexivity|lia].
Qed.

(** C5: the columns chosen by [_identify_columns_to_remove] with the
    protected index [p] never contain [p]; they are deleted in strictly
    decreasing order (a permutation of the chosen columns); the new index
    of the protected column is [p] minus the number of chosen columns below
    [p]; and after the deletions every row that had a cell at [p] has that
    same cell at the new index. *)
Theorem prune_protects_split_column : forall ws header_row remove_patterns p,
  let cols := _identify_columns_to_remove ws header_row remove_patterns (Some p) in
  ~ In p cols
  /\ StronglySorted (fun a b => b < a) (column_deletion_order cols)
  /\ Permutation (column_deletion_order cols) cols
  /\ adjusted_split_col_idx cols p = p - length (filter (fun c => c <? p) cols)
  /\ (forall i row, nth_error (rows ws) i = Some row -> p < length row ->
        exists row', nth_error (rows (delete_columns cols ws)) i = Some row'
                     /\ nth_error row' (adjusted_split_col_idx cols p) = nth_error row p).
Proof.
  intros ws h pats p cols.
  assert (Hnot : ~ In p cols) by apply identify_columns_preserve.
  assert (HS : StronglySorted (fun a b => b < a) (column_deletion_order cols))
    by (apply sort_nat_desc_strict, identify_columns_nodup).
  assert (HP : Permutation (column_deletion_order cols) cols) by apply sort_desc_perm.
  assert (HA : adjusted_split_col_idx cols p = p - length (filter (fun c => c <? p) cols)).
  { unfold adjusted_split_col_idx. rewrite adjusted_fold_count.
    f_equal. apply perm_filter_length, sort_asc_perm. }
  split; [exact Hnot|]. split; [exact HS|]. split; [exact HP|]. split; [exact HA|].
  intros i row Hi Hl. unfold delete_columns; simpl. rewrite delete_columns_map, nth_error_map, Hi.
  eexists; split; [reflexivity|].
  rewrite HA, <- (perm_filter_length _ _ _ HP).
  apply delete_desc_position; [exact HS| |exact Hl].
  intros Hin. apply Hnot. apply (Permutation_in _ HP Hin).
Qed.

(** ** C1: fast and clone row counts *)

(** C1 (divergence): on [sheet1] the header is detected at row 1, column 1
    (0-based), the collector yields the groups [IT] and [Sales], and for
    [Sales] the fast mode ([df[dp_col] == group], no trimming) counts one
    row while the clone mode ([str(cell_value).strip() == group]) counts
    two: the cell [" Sales"] matches only after trimming.  The manifests of
    the two loops (every write succeeding) record [1] and [2]. *)
Theorem fast_clone_row_count_differ :
  detect_header_and_column sheet1 = inl (1, 1)
  /\ collect_groups (df_column sheet1 1 1) true false false = [t "IT"; t "Sales"]
  /\ fast_row_count (df_column sheet1 1 1) (t "Sales") = 1
  /\ clone_row_count sheet1 1 1 (t "Sales") = 2
  /\ option_map (fun st => map me_row_count (manifest st))
       (export_fast 10 (fun _ _ => true) (df_column sheet1 1 1) [t "Sales"] empty_batch) = Some [1]
  /\ option_map (fun st => map me_row_count (manifest st))
       (export_clone 10 (fun _ _ => true) true sheet1 1 1 [t "Sales"] empty_batch) = Some [2].
Proof. repeat split; vm_compute; reflexivity. Qed.

(** ** C6: the file-name sanitizer *)

Lemma lstrip_by_In : forall d s c, In c (lstrip_by d s) -> In c s.
Proof.
  intros d s c; induction s as [|x s IH]; simpl; [tauto|].
  destruct (d x); simpl; [intros H; right; exact (IH H)|tauto].
Qed.

Lemma strip_by_In : forall d s c, In c (strip_by d s) -> In c s.
Proof.
  intros d s c H. unfold strip_by in H. apply in_rev, lstrip_by_In in H.
  apply in_rev in H. exact (lstrip_by_In _ _ _ H).
Qed.

Lemma length_lstrip_by : forall d s, length (lstrip_by d s) <= length s.
Proof.
  intros d s; induction s as [|x s IH]; simpl; [lia|]. destruct (d x); simpl; lia.
Qed.

Lemma length_strip_by : forall d s, length (strip_by d s) <= length s.
Proof.
  intros d s. unfold strip_by. rewrite length_rev.
  pose proof (length_lstrip_by d (rev (lstrip_by d s))) as H1.
  rewrite length_rev in H1. pose proof (length_lstrip_by d s). lia.
Qed.

Lemma collapse_aux_In : forall b s c, In c (collapse_aux b s) -> In c s \/ c = " "%char.
Proof.
  intros b s c; revert b; induction s as [|x s IH]; intros b; simpl; [tauto|].
  destruct (is_space x), b; simpl.
  - intros H. destruct (IH _ H); tauto.
  - intros [<-|H]; [tauto|]. destruct (IH _ H); tauto.
  - intros [<-|H]; [tauto|]. destruct (IH _ H); tauto.
  - intros [<-|H]; [tauto|]. destruct (IH _ H); tauto.
Qed.

Lemma firstn_In : forall {A} n (l : list A) x, In x (firstn n l) -> In x l.
Proof.
  intros A n l x H. rewrite <- (firstn_skipn n l). apply in_or_app. left. exact H.
Qed.

(** C6 (amended): [sanitize_filename] of io_utils.py, the one the
    exporters call, replaces every reserved character by an underscore
    (not a dash, and runs of dashes are left alone), collapses whitespace,
    strips dots and spaces, truncates to 200 characters and falls back to
    [Unknown]: its output holds no reserved character, is never empty, has
    at most 200 characters, is [Unknown] for a blank label, and maps
    [Sales/Marketing] to [Sales_Marketing]. *)
Theorem sanitize_filename_safe : forall s,
  (forall c, In c (sanitize_filename s) -> is_reserved c = false)
  /\ sanitize_filename s <> []
  /\ length (sanitize_filename s) <= 200
  /\ (strip s = [] -> sanitize_filename s = unknown)
  /\ sanitize_filename (t "Sales/Marketing") = t "Sales_Marketing".
Proof.
  intros s. unfold sanitize_filename.
  set (s1 := map (fun c => if is_reserved c then "_"%char else c) (strip s)).
  set (s3 := strip_by (fun c => Ascii.eqb c "." || Ascii.eqb c " ") (collapse_ws s1)).
  set (s4 := if 200 <? length s3 then strip (firstn 200 s3) else s3).
  assert (Hs4 : forall c, In c s4 -> is_reserved c = false).
  { intros c Hc.
    assert (H3 : In c s3).
    { unfold s4 in Hc. destruct (200 <? length s3); [|exact Hc].
      apply strip_by_In, firstn_In in Hc. exact Hc. }
    apply strip_by_In in H3. unfold collapse_ws in H3.
    destruct (collapse_aux_In _ _ _ H3) as [H1| ->]; [|reflexivity].
    unfold s1 in H1. apply in_map_iff in H1 as (x & <- & _).
    destruct (is_reserved x) eqn:E; [reflexivity|exact E]. }
  assert (Hl4 : length s4 <= 200).
  { unfold s4. destruct (Nat.ltb_spec 200 (length s3)); [|lia].
    pose proof (length_strip_by is_space (firstn 200 s3)).
    rewrite length_firstn in H0. unfold strip. lia. }
  assert (Hu : forall c, In c unknown -> is_reserved c = false)
    by (intros c Hc; repeat (destruct Hc as [<-|Hc]; [reflexivity|]); destruct Hc).
  split; [|split; [|split; [|split]]].
  - destruct (text_eqb s [] || text_eqb (strip s) []); [exact Hu|].
    destruct (text_eqb s4 []); [exact Hu|exact Hs4].
  - destruct (text_eqb s [] || text_eqb (strip s) []); [discriminate|].
    destruct (text_eqb s4 []) eqn:E; [discriminate|].
    intros H. rewrite H in E. discriminate.
  - destruct (text_eqb s [] || text_eqb (strip s) []); [simpl; lia|].
    destruct (text_eqb s4 []); [simpl; lia|exact Hl4].
  - intros H. rewrite H. rewrite orb_true_r. reflexivity.
  - vm_compute. reflexivity.
Qed.

(** C6, against the dash contract: the io_utils sanitizer turns the slash
    of [Sales/Marketing] into an underscore and keeps the dashes of
    [R--D]; the dash-replacing sanitizer of export_commit_draft_clone.py
    does not truncate (250 characters stay 250). *)
Lemma sanitize_filename_not_dash_contract :
  sanitize_filename (t "Sales/Marketing") = t "Sales_Marketing"
  /\ sanitize_filename (t "R--D") = t "R--D"
  /\ length (sanitize_filename_draft (repeat "a"%char 250)) = 250.
Proof. repeat split; vm_compute; reflexivity. Qed.

(** ** C7: unique file names *)

Lemma digit_not_dot : forall n, ascii_of_N (48 + N.modulo n 10)%N <> "."%char.
Proof.
  intros n H. pose proof (N.mod_lt n 10 ltac:(discriminate)) as Hm.
  revert H Hm. generalize (N.modulo n 10). intros m H Hm.
  apply (f_equal N_of_ascii) in H.
  rewrite N_ascii_embedding in H by lia. change (N_of_ascii ".") with 46%N in H. lia.
Qed.

Lemma digits_aux_no_dot : forall fuel n acc c,
  In c (digits_aux fuel n acc) -> In c acc \/ c <> "."%char.
Proof.
  induction fuel as [|f IH]; intros n acc c; simpl; [tauto|].
  intros H. destruct (n <? 10)%N.
  - destruct H as [<-|H]; [right; apply digit_not_dot|left; exact H].
  - destruct (IH _ _ _ H) as [[<-|H1]|H1]; [right; apply digit_not_dot|left; exact H1|right; exact H1].
Qed.

Lemma show_N_no_dot : forall n c, In c (show_N n) -> c <> "."%char.
Proof.
  intros n c H. destruct (digits_aux_no_dot _ _ _ _ H) as [[]|H1]. exact H1.
Qed.

Lemma rfind_dot_aux_no_dot : forall l i found,
  (forall c, In c l -> c <> "."%char) -> rfind_dot_aux i l found = found.
Proof.
  induction l as [|c l IH]; intros i found H; simpl; [reflexivity|].
  destruct (Ascii.eqb_spec c "."%char) as [E|E].
  - exfalso. exact (H c (or_introl eq_refl) E).
  - apply IH. intros d Hd. apply H. right. exact Hd.
Qed.

(** Every name the loop tries for the base [U.S. Sales - SG&A Summary]
    is [U.xlsx]: the stem [U.S] loses [.S #n] as a suffix. *)
Lemma dotted_loop_path : forall n,
  with_suffix (stem (t "U.S. Sales - SG&A Summary") ++ t " #" ++ show_N n) xlsx = t "U.xlsx".
Proof.
  intros n. unfold with_suffix, stem at 1, suffix_start, rfind_dot.
  change (stem (t "U.S. Sales - SG&A Summary") ++ t " #" ++ show_N n)
    with ("U"%char :: "."%char :: "S"%char :: " "%char :: "#"%char :: show_N n).
  cbn [rfind_dot_aux Ascii.eqb Bool.eqb].
  rewrite rfind_dot_aux_no_dot by apply show_N_no_dot.
  cbn [length]. destruct (Nat.ltb_spec 1 (S (S (S (S (S (length (show_N n)))))) - 1)); [|lia].
  reflexivity.
Qed.

Lemma dotted_loop_stuck : forall fuel counter,
  unique_loop fuel [t "U.S.xlsx"; t "U.xlsx"] (t "U.S. Sales - SG&A Summary") xlsx counter = None.
Proof.
  induction fuel as [|f IH]; intros counter; [reflexivity|].
  cbn [unique_loop]. rewrite dotted_loop_path.
  change (exists_in [t "U.S.xlsx"; t "U.xlsx"] (t "U.xlsx")) with true. apply IH.
Qed.

(** C7 (divergence): for [Sales - SG&A Summary] the second name is
    [Sales - SG&A Summary #2.xlsx], but [Path.with_suffix] cuts a dotted
    stem: the base of the group [U.S. Sales] gives [U.S.xlsx] even with no
    collision, [U.xlsx] (not [U.S. Sales - SG&A Summary #2.xlsx]) after
    one, and once [U.S.xlsx] and [U.xlsx] exist the loop tries [U.xlsx]
    forever: it returns within no number of rounds. *)
Theorem generate_unique_filename_dotted_stem :
  generate_unique_filename 1 [t "Sales - SG&A Summary.xlsx"] (t "Sales - SG&A Summary") xlsx
    = Some (t "Sales - SG&A Summary #2.xlsx")
  /\ base_filename (t "U.S. Sales") = t "U.S. Sales - SG&A Summary"
  /\ generate_unique_filename 1 [] (t "U.S. Sales - SG&A Summary") xlsx = Some (t "U.S.xlsx")
  /\ generate_unique_filename 1 [t "U.S.xlsx"] (t "U.S. Sales - SG&A Summary") xlsx
       = Some (t "U.xlsx")
  /\ (forall fuel,
        generate_unique_filename fuel [t "U.S.xlsx"; t "U.xlsx"] (t "U.S. Sales - SG&A Summary") xlsx
        = None).
Proof.
  split; [vm_compute; reflexivity|]. split; [vm_compute; reflexivity|].
  split; [vm_compute; reflexivity|]. split; [vm_compute; reflexivity|].
  intros fuel. unfold generate_unique_filename.
  replace (negb (exists_in [t "U.S.xlsx"; t "U.xlsx"] (with_suffix (t "U.S. Sales - SG&A Summary") xlsx)))
    with false by (vm_compute; reflexivity).
  apply dotted_loop_stuck.
Qed.

(** ** C9: skipped and failed groups *)

Section LoopFacts.
Variable fuel : nat.
Variable write_ok : text -> text -> bool.

Lemma export_one_cases : forall mode g n st st',
  export_one fuel write_ok mode g n st = Some st' ->
  st' = st
  \/ (0 < n /\ exists p, write_ok g p = true
        /\ st' = {| files := p :: files st;
                    manifest := manifest st ++ [{| me_group := g; me_output_path := p;
                                                  me_row_count := n; me_mode := mode |}] |}).
Proof.
  intros mode g n st st' H. unfold export_one in H.
  destruct (Nat.eqb_spec n 0) as [_|Hn]; [left; congruence|].
  destruct (generate_unique_filename fuel (files st) (base_filename g) xlsx) as [p|]; [|discriminate].
  destruct (write_ok g p) eqn:Ew; [|left; congruence].
  right. split; [lia|]. exists p. split; [exact Ew|congruence].
Qed.

Lemma loop_manifest : forall mode (cnt : text -> nat)
  (loop : list text -> batch_state -> option batch_state),
  (forall st, loop [] st = Some st) ->
  (forall g gs st, loop (g :: gs) st
     = match export_one fuel write_ok mode g (cnt g) st with
       | Some st' => loop gs st' | None => None end) ->
  forall gs st st', loop gs st = Some st' ->
  exists new, manifest st' = manifest st ++ new
    /\ files st' = rev (map me_output_path new) ++ files st
    /\ entries_ok write_ok mode cnt new
    /\ length new <= length gs.
Proof.
  intros mode cnt loop Hnil Hcons gs; induction gs as [|g gs IH]; intros st st' H.
  - rewrite Hnil in H. injection H as <-. exists []. rewrite app_nil_r.
    split; [reflexivity|]. split; [reflexivity|]. split; [constructor|simpl; lia].
  - rewrite Hcons in H.
    destruct (export_one fuel write_ok mode g (cnt g) st) as [s1|] eqn:E; [|discriminate].
    destruct (IH _ _ H) as (new & Hm & Hf & Hok & Hl).
    destruct (export_one_cases _ _ _ _ _ E) as [->|(Hn & p & Hw & ->)].
    + exists new. split; [exact Hm|]. split; [exact Hf|]. split; [exact Hok|simpl; lia].
    + exists ({| me_group := g; me_output_path := p; me_row_count := cnt g; me_mode := mode |} :: new).
      simpl in Hm, Hf. rewrite Hm, <- app_assoc. split; [reflexivity|].
      split; [rewrite Hf; simpl; rewrite <- app_assoc; reflexivity|].
      split; [|simpl; lia]. constructor; [|exact Hok]. simpl. repeat split; assumption.
Qed.

End LoopFacts.

(** C9: in [export_fast] and [export_clone] a group with no matching row,
    or whose write fails, leaves the batch state (files and manifest)
    unchanged and the loop goes on with the next group; a successful write
    adds exactly one file and one manifest entry.  Over a whole run the
    manifest grows by one entry per successful export, each with a positive
    row count, a successful write and its own new file, and no others. *)
Theorem export_skips_and_counts : forall fuel write_ok,
  (forall mode g st, export_one fuel write_ok mode g 0 st = Some st)
  /\ (forall mode g n st p,
        generate_unique_filename fuel (files st) (base_filename g) xlsx = Some p ->
        write_ok g p = false -> export_one fuel write_ok mode g n st = Some st)
  /\ (forall mode g n st p, 0 < n ->
        generate_unique_filename fuel (files st) (base_filename g) xlsx = Some p ->
        write_ok g p = true ->
        export_one fuel write_ok mode g n st
        = Some {| files := p :: files st;
                  manifest := manifest st ++ [{| me_group := g; me_output_path := p;
                                                me_row_count := n; me_mode := mode |}] |})
  /\ (forall column g gs st st',
        export_one fuel write_ok (t "fast") g (fast_row_count column g) st = Some st' ->
        export_fast fuel write_ok column (g :: gs) st = export_fast fuel write_ok column gs st')
  /\ (forall (present : bool) ws h dp g gs st st',
        export_one fuel write_ok (t "clone") g
          (if present then clone_row_count ws h dp g else 0) st = Some st' ->
        export_clone fuel write_ok present ws h dp (g :: gs) st
        = export_clone fuel write_ok present ws h dp gs st')
  /\ (forall column gs st st', export_fast fuel write_ok column gs st = Some st' ->
        exists new, manifest st' = manifest st ++ new
          /\ files st' = rev (map me_output_path new) ++ files st
          /\ entries_ok write_ok (t "fast") (fast_row_count column) new
          /\ length new <= length gs)
  /\ (forall (present : bool) ws h dp gs st st',
        export_clone fuel write_ok present ws h dp gs st = Some st' ->
        exists new, manifest st' = manifest st ++ new
          /\ files st' = rev (map me_output_path new) ++ files st
          /\ entries_ok write_ok (t "clone")
               (fun g => if present then clone_row_count ws h dp g else 0) new
          /\ length new <= length gs).
Proof.
  intros fuel ok.
  split; [intros; reflexivity|].
  split; [intros mode g n st p Hg Hw; unfold export_one; rewrite Hg, Hw;
          destruct (n =? 0); reflexivity|].
  split; [intros mode g n st p Hn Hg Hw; unfold export_one;
          destruct (Nat.eqb_spec n 0); [lia|]; rewrite Hg, Hw; reflexivity|].
  split; [intros column g gs st st' H; cbn [export_fast]; rewrite H; reflexivity|].
  split; [intros present ws h dp g gs st st' H; cbn [export_clone]; rewrite H; reflexivity|].
  split.
  - intros column. apply (loop_manifest fuel ok (t "fast") (fast_row_count column)
                                          (export_fast fuel ok column)); reflexivity.
  - intros present ws h dp.
    apply (loop_manifest fuel ok (t "clone")
             (fun g => if present then clone_row_count ws h dp g else 0)
             (export_clone fuel ok present ws h dp)); reflexivity.
Qed.

(** ** C3: group collection *)

Lemma text_leb_total : forall a b, text_leb a b = false -> text_leb b a = true.
Proof.
  induction a as [|x a IH]; intros [|y b]; simpl; try discriminate; try reflexivity.
  destruct (Nat.ltb_spec (code x) (code y)) as [L1|L1]; [discriminate|].
  destruct (Nat.eqb_spec (code x) (code y)) as [E|E].
  - intros H. rewrite E, Nat.ltb_irrefl, Nat.eqb_refl. exact (IH b H).
  - intros _. destruct (Nat.ltb_spec (code y) (code x)) as [L2|L2]; [reflexivity|lia].
Qed.

Section UniqueBy.
Context {A : Type} (k : A -> text).

Local Abbreviation ub := (unique_by (fun a b => text_eqb (k a) (k b))).

Lemma existsb_key : forall x seen,
  existsb (fun b => text_eqb (k x) (k b)) seen = true <-> In (k x) (map k seen).
Proof.
  intros x seen. rewrite existsb_exists, in_map_iff. split.
  - intros (y & Hy & E). apply text_eqb_eq in E. exists y. split; [congruence|exact Hy].
  - intros (y & E & Hy). exists y. split; [exact Hy|]. apply text_eqb_eq. congruence.
Qed.

Lemma ub_In : forall l seen x, In x (ub seen l) -> In x l /\ ~ In (k x) (map k seen).
Proof.
  induction l as [|y l IH]; intros seen x; simpl; [tauto|].
  destruct (existsb (fun b => text_eqb (k y) (k b)) seen) eqn:E.
  - intros H. destruct (IH _ _ H). tauto.
  - intros [<-|H].
    + split; [left; reflexivity|]. intros Hin. apply existsb_key in Hin. congruence.
    + destruct (IH _ _ H) as [H1 H2]. split; [right; exact H1|]. simpl in H2. tauto.
Qed.

Lemma ub_nodup : forall l seen, NoDup (map k (ub seen l)).
Proof.
  induction l as [|y l IH]; intros seen; simpl; [constructor|].
  destruct (existsb (fun b => text_eqb (k y) (k b)) seen); [apply IH|].
  simpl. constructor; [|apply IH].
  intros Hin. apply in_map_iff in Hin as (z & Ez & Hz).
  apply ub_In in Hz as [_ Hz]. apply Hz. simpl. left. exact (eq_sym Ez).
Qed.

Lemma ub_first : forall l seen x, In x (ub seen l) ->
  exists p s, l = p ++ x :: s /\ Forall (fun y => k y <> k x) p.
Proof.
  induction l as [|y l IH]; intros seen x; simpl; [tauto|].
  destruct (existsb (fun b => text_eqb (k y) (k b)) seen) eqn:E.
  - intros H. destruct (IH _ _ H) as (p & s & -> & Hp).
    exists (y :: p), s. split; [reflexivity|]. constructor; [|exact Hp].
    apply existsb_key in E. apply ub_In in H as [_ Hx]. congruence.
  - intros [<-|H].
    + exists [], l. split; [reflexivity|constructor].
    + destruct (IH _ _ H) as (p & s & -> & Hp).
      exists (y :: p), s. split; [reflexivity|]. constructor; [|exact Hp].
      apply ub_In in H as [_ Hx]. intros Ek. apply Hx. simpl. left. exact Ek.
Qed.

Lemma ub_complete : forall l seen y, In y l ->
  In (k y) (map k seen) \/ exists x, In x (ub seen l) /\ k x = k y.
Proof.
  induction l as [|z l IH]; intros seen y; simpl; [tauto|].
  destruct (existsb (fun b => text_eqb (k z) (k b)) seen) eqn:E.
  - intros [<-|H]; [left; apply existsb_key; exact E|exact (IH _ _ H)].
  - intros [<-|H]; [right; exists z; split; [left; reflexivity|reflexivity]|].
    destruct (IH (z :: seen) y H) as [Hs|(x & Hx & Ex)].
    + simpl in Hs. destruct Hs as [Hs|Hs]; [|left; exact Hs].
      right. exists z. split; [left; reflexivity|exact Hs].
    + right. exists x. split; [right; exact Hx|exact Ex].
Qed.

Lemma ub_app_covered : forall a b seen,
  (forall g, In g a -> In (k g) (map k seen)) -> ub seen (a ++ b) = ub seen b.
Proof.
  induction a as [|x a IH]; intros b seen H; simpl; [reflexivity|].
  assert (Ex : existsb (fun c => text_eqb (k x) (k c)) seen = true)
    by (apply existsb_key, H; left; reflexivity).
  rewrite Ex. apply IH. intros g Hg. apply H. right. exact Hg.
Qed.

Lemma ub_app : forall a b seen,
  ub seen (a ++ b) = ub seen a ++ ub (rev (ub seen a) ++ seen) b.
Proof.
  induction a as [|x a IH]; intros b seen; simpl; [reflexivity|].
  destruct (existsb (fun c => text_eqb (k x) (k c)) seen); [apply IH|].
  rewrite IH. simpl. rewrite <- app_assoc. reflexivity.
Qed.

Lemma ub_cover : forall a seen g, In g a -> In (k g) (map k (rev (ub seen a) ++ seen)).
Proof.
  induction a as [|x a IH]; intros seen g; simpl; [tauto|].
  destruct (existsb (fun c => text_eqb (k x) (k c)) seen) eqn:E.
  - intros [<-|H]; [|apply IH, H].
    apply existsb_key in E. rewrite map_app. apply in_or_app. right. exact E.
  - intros [<-|H]; cbn [rev]; rewrite !map_app.
    + apply in_or_app. left. apply in_or_app. right. left. reflexivity.
    + pose proof (IH (x :: seen) g H) as H1. rewrite map_app in H1.
      simpl in H1. apply in_app_or in H1 as [H1|[H1|H1]]; apply in_or_app.
      * left. apply in_or_app. left. exact H1.
      * left. apply in_or_app. right. left. exact H1.
      * right. exact H1.
Qed.

(** Deduplicating the values first ([Series.unique]) does not change the
    deduplicated groups. *)
Lemma ub_flat_unique : forall (f : value -> list A) l seenV seenE,
  (forall v, In v seenV -> forall g, In g (f v) -> In (k g) (map k seenE)) ->
  ub seenE (flat_map f (unique_by value_eqb seenV l)) = ub seenE (flat_map f l).
Proof.
  intros f; induction l as [|x l IH]; intros seenV seenE H; simpl; [reflexivity|].
  destruct (existsb (value_eqb x) seenV) eqn:E.
  - rewrite ub_app_covered; [apply IH, H|].
    apply existsb_exists in E as (w & Hw & Ew).
    assert (x = w).
    { destruct x, w; simpl in Ew; try discriminate; [reflexivity| |].
      - apply text_eqb_eq in Ew. congruence.
      - apply Z.eqb_eq in Ew. congruence. }
    subst w. intros g Hg. exact (H x Hw g Hg).
  - simpl. rewrite !ub_app. f_equal. apply IH.
    intros v [<-|Hv] g Hg; [apply ub_cover, Hg|].
    rewrite map_app. apply in_or_app. right. exact (H v Hv g Hg).
Qed.

End UniqueBy.

Lemma group_of_value_In : forall st ie v g, In g (group_of_value st ie v) ->
  (v = VNone /\ ie = true /\ g = [])
  \/ (v <> VNone /\ g = strip (py_str v) /\ (g = [] -> ie = true)
      /\ (st = true -> _is_total_row g = false)).
Proof.
  intros st ie v g. unfold group_of_value.
  destruct (is_null v) eqn:En.
  - destruct v; try discriminate. destruct ie; simpl; [|tauto].
    intros [<-|[]]. left. tauto.
  - assert (Hv : v <> VNone) by (intros ->; discriminate).
    destruct (text_eqb (strip (py_str v)) [] && negb ie) eqn:E1; [simpl; tauto|].
    destruct (st && _is_total_row (strip (py_str v))) eqn:E2; [simpl; tauto|].
    intros [<-|[]]. right. split; [exact Hv|]. split; [reflexivity|]. split.
    + intros E. rewrite E in E1. destruct ie; [reflexivity|discriminate].
    + intros ->. exact E2.
Qed.

Lemma group_of_value_str : forall st ie v, v <> VNone ->
  (ie = true \/ strip (py_str v) <> []) ->
  (st = false \/ _is_total_row (strip (py_str v)) = false) ->
  In (strip (py_str v)) (group_of_value st ie v).
Proof.
  intros st ie v Hv Hie Hst. unfold group_of_value.
  destruct (is_null v) eqn:En; [destruct v; [congruence|discriminate|discriminate]|].
  destruct (text_eqb (strip (py_str v)) [] && negb ie) eqn:E1.
  - apply andb_true_iff in E1 as [E1 E2]. apply text_eqb_eq in E1.
    destruct Hie as [->|Hie]; [discriminate|contradiction].
  - destruct Hst as [ -> | -> ]; [|rewrite andb_false_r]; left; reflexivity.
Qed.

Lemma flat_map_drop_null : forall st column,
  flat_map (group_of_value st false) (filter (fun v => negb (is_null v)) column)
  = flat_map (group_of_value st false) column.
Proof.
  intros st; induction column as [|v column IH]; simpl; [reflexivity|].
  destruct v; simpl; rewrite ?IH; reflexivity.
Qed.

Lemma collect_groups_eq : forall column st ci ie,
  collect_groups column st ci ie
  = sort_asc text_leb
      (unique_by (fun a b => text_eqb (compare_key ci a) (compare_key ci b)) []
                 (flat_map (group_of_value st ie) column)).
Proof.
  intros column st ci ie. unfold collect_groups.
  rewrite (ub_flat_unique (compare_key ci)) by (intros v []).
  destruct ie; [reflexivity|]. rewrite flat_map_drop_null. reflexivity.
Qed.

Lemma compare_key_nil : forall ci g, compare_key ci g = [] -> g = [].
Proof.
  intros [|] [|c g]; simpl; congruence.
Qed.

(** C3 (amended): [collect_groups] returns a list sorted by code points,
    without two entries of the same comparison key; each entry is the
    first group, in column order, with its key (first-seen casing); each is
    the trimmed text of a non-null cell of the column, or the empty string
    for a null cell; the empty string appears only with [include_empty];
    with [skip_totals] no entry contains the word [total]; every kept value
    of the column is represented, and with [include_empty] a null cell
    gives the empty string; without [include_empty] a column of nulls,
    blanks and totals yields the empty list. *)
Theorem collect_groups_spec : forall column skip_totals case_insensitive include_empty,
  let G := collect_groups column skip_totals case_insensitive include_empty in
  Sorted (fun a b => text_leb a b = true) G
  /\ NoDup (map (compare_key case_insensitive) G)
  /\ (forall g, In g G ->
        exists p s, flat_map (group_of_value skip_totals include_empty) column = p ++ g :: s
          /\ Forall (fun x => compare_key case_insensitive x <> compare_key case_insensitive g) p)
  /\ (forall g, In g G ->
        (exists v, In v column /\ v <> VNone /\ g = strip (py_str v))
        \/ (g = [] /\ In VNone column))
  /\ (forall g, In g G -> g = [] -> include_empty = true)
  /\ (skip_totals = true -> forall g, In g G -> _is_total_row g = false)
  /\ (forall v, In v column -> v <> VNone ->
        (include_empty = true \/ strip (py_str v) <> []) ->
        (skip_totals = false \/ _is_total_row (strip (py_str v)) = false) ->
        exists g, In g G /\ compare_key case_insensitive g = compare_key case_insensitive (strip (py_str v)))
  /\ (include_empty = true -> In VNone column -> In [] G)
  /\ (include_empty = false ->
        (forall v, In v column ->
           v = VNone \/ strip (py_str v) = []
           \/ (skip_totals = true /\ _is_total_row (strip (py_str v)) = true)) ->
        G = []).
Proof.
  intros column st ci ie G.
  set (U := unique_by (fun a b => text_eqb (compare_key ci a) (compare_key ci b)) []
                      (flat_map (group_of_value st ie) column)).
  assert (HG : G = sort_asc text_leb U) by apply collect_groups_eq.
  assert (HP : Permutation G U) by (rewrite HG; apply sort_asc_perm).
  assert (HU : forall g, In g G -> In g U) by (intros g Hg; exact (Permutation_in _ HP Hg)).
  assert (HF : forall g, In g G -> exists v, In v column /\ In g (group_of_value st ie v)).
  { intros g Hg. apply HU, ub_In in Hg as [Hg _]. apply in_flat_map in Hg. exact Hg. }
  split; [rewrite HG; apply sort_asc_sorted, text_leb_total|].
  split; [apply (Permutation_NoDup (Permutation_map _ (Permutation_sym HP))), ub_nodup|].
  split; [intros g Hg; apply HU in Hg; exact (ub_first _ _ _ _ Hg)|].
  split.
  { intros g Hg. destruct (HF g Hg) as (v & Hv & Hgv).
    destruct (group_of_value_In _ _ _ _ Hgv) as [(-> & _ & ->)|(Hn & -> & _)].
    - right. split; [reflexivity|exact Hv].
    - left. exists v. tauto. }
  split.
  { intros g Hg Hnil. destruct (HF g Hg) as (v & Hv & Hgv).
    destruct (group_of_value_In _ _ _ _ Hgv) as [(_ & Hi & _)|(_ & _ & Hi & _)]; [exact Hi|exact (Hi Hnil)]. }
  split.
  { intros Hst g Hg. destruct (HF g Hg) as (v & Hv & Hgv).
    destruct (group_of_value_In _ _ _ _ Hgv) as [(_ & _ & ->)|(_ & _ & _ & Ht)]; [reflexivity|exact (Ht Hst)]. }
  split.
  { intros v Hv Hn Hie Hst.
    assert (Hin : In (strip (py_str v)) (flat_map (group_of_value st ie) column))
      by (apply in_flat_map; exists v; split; [exact Hv|apply group_of_value_str; assumption]).
    destruct (ub_complete (compare_key ci) _ [] _ Hin) as [[]|(x & Hx & Ex)].
    exists x. split; [|exact Ex]. apply (Permutation_in _ (Permutation_sym HP)), Hx. }
  split.
  { intros Hie Hv.
    assert (Hin : In [] (flat_map (group_of_value st ie) column))
      by (apply in_flat_map; exists VNone; split; [exact Hv|]; unfold group_of_value; rewrite Hie; left; reflexivity).
    destruct (ub_complete (compare_key ci) _ [] _ Hin) as [[]|(x & Hx & Ex)].
    assert (x = []) as -> by (apply (compare_key_nil ci); rewrite Ex; destruct ci; reflexivity).
    apply (Permutation_in _ (Permutation_sym HP)), Hx. }
  intros Hie Hall. destruct G as [|g G'] eqn:EG; [reflexivity|]. exfalso.
  destruct (HF g (or_introl eq_refl)) as (v & Hv & Hgv).
  destruct (group_of_value_In _ _ _ _ Hgv) as [(_ & Hi & _)|(Hn & Eg & Hi & Ht)]; [congruence|].
  destruct (Hall v Hv) as [E|[E|[E1 E2]]]; [congruence|rewrite <- Eg in E; specialize (Hi E); congruence|].
  rewrite <- Eg in E2. rewrite (Ht E1) in E2. discriminate.
Qed.

(** C3, against the empty-column clause: with [include_empty] a column
    holding only an empty cell yields the empty string, not the empty
    list. *)
Lemma collect_groups_empty_column_include_empty :
  collect_groups [VNone; VNone] true false true = [[]].
Proof. vm_compute. reflexivity. Qed.

(** ** C2: header detection *)

Lemma strip_prefix_app : forall p s r, strip_prefix p s = Some r -> s = p ++ r.
Proof.
  induction p as [|c p IH]; intros s r; simpl; [congruence|].
  destruct s as [|d s]; [discriminate|].
  destruct (ascii_dec c d) as [->|]; [|discriminate].
  intros H. rewrite (IH _ _ H). reflexivity.
Qed.

Lemma lstrip_split : forall r,
  exists w, r = w ++ lstrip r /\ Forall (fun c => is_space c = true) w.
Proof.
  unfold lstrip. induction r as [|c r IH]; simpl; [exists []; split; [reflexivity|constructor]|].
  destruct (is_space c) eqn:E.
  - destruct IH as (w & Hw & Hf). exists (c :: w). split; [simpl; congruence|constructor; assumption].
  - exists []. split; [reflexivity|constructor].
Qed.

Lemma lstrip_head : forall r c r', lstrip r = c :: r' -> is_space c = false.
Proof.
  unfold lstrip. induction r as [|d r IH]; intros c r'; simpl; [discriminate|].
  destruct (is_space d) eqn:E; [apply IH|congruence].
Qed.

Lemma lstrip_id : forall r, (forall c r', r = c :: r' -> is_space c = false) -> lstrip r = r.
Proof.
  intros [|c r] H; [reflexivity|]. unfold lstrip; simpl. rewrite (H c r eq_refl). reflexivity.
Qed.

Lemma match_word_shape : forall a s, match_word a s = true ->
  exists e, s = a ++ e /\ regex_end e = true.
Proof.
  intros a s. unfold match_word.
  destruct (strip_prefix a s) as [r|] eqn:E; [|discriminate].
  intros H. exists r. split; [exact (strip_prefix_app _ _ _ E)|exact H].
Qed.

Lemma match_pair_shape : forall a b s, match_pair a b s = true ->
  exists w1 sp w2 e, s = a ++ w1 ++ sp ++ w2 ++ b ++ e
    /\ Forall (fun c => is_space c = true) w1
    /\ Forall (fun c => is_space c = true) w2
    /\ (sp = [] \/ sp = ["/"%char] \/ sp = ["-"%char])
    /\ (sp = [] -> w2 = [])
    /\ regex_end e = true.
Proof.
  intros a b s. unfold match_pair.
  destruct (strip_prefix a s) as [r|] eqn:E1; [|discriminate].
  destruct (strip_prefix b (lstrip (opt_sep (lstrip r)))) as [e|] eqn:E2; [|discriminate].
  intros He. apply strip_prefix_app in E1, E2.
  destruct (lstrip_split r) as (w1 & Hr & Hw1).
  destruct (lstrip_split (opt_sep (lstrip r))) as (w2 & Hr2 & Hw2).
  unfold opt_sep in Hr2.
  destruct (lstrip r) as [|c r1] eqn:El.
  - exists w1, [], [], e. simpl in Hr2.
    assert (w2 = []) as -> by (destruct w2; [reflexivity|discriminate]).
    simpl in E2. rewrite app_nil_r in Hr.
    split; [rewrite E1, Hr, <- E2; simpl; rewrite !app_nil_r; reflexivity|].
    repeat split; auto.
  - destruct (Ascii.eqb c "/" || Ascii.eqb c "-") eqn:Es.
    + cbn [opt_sep] in E2. rewrite Es in E2.
      exists w1, [c], w2, e. rewrite E1, Hr.
      rewrite Hr2 at 1. rewrite E2. split; [reflexivity|]. split; [exact Hw1|]. split; [exact Hw2|].
      split; [|split; [discriminate|exact He]].
      apply orb_true_iff in Es as [Es|Es]; apply Ascii.eqb_eq in Es; subst c; auto.
    + assert (Hid : lstrip (c :: r1) = c :: r1)
        by (apply lstrip_id; intros c' r' Eq; injection Eq as <- <-; exact (lstrip_head _ _ _ El)).
      cbn [opt_sep] in E2. rewrite Es, Hid in E2. exists w1, [], [], e. rewrite E1, Hr, E2.
      repeat split; auto.
Qed.

Lemma collapse_space : forall b s c, In c (collapse_aux b s) -> is_space c = true -> c = " "%char.
Proof.
  intros b s c; revert b; induction s as [|x s IH]; intros b; simpl; [tauto|].
  destruct (is_space x) eqn:E, b; simpl.
  - apply IH.
  - intros [<-|H]; [reflexivity|exact (IH _ H)].
  - intros [<-|H] Hc; [congruence|exact (IH _ H Hc)].
  - intros [<-|H] Hc; [congruence|exact (IH _ H Hc)].
Qed.

Lemma collapse_no_run : forall b s, no_ws_run b (collapse_aux b s).
Proof.
  intros b s; revert b; induction s as [|x s IH]; intros b; simpl; [exact I|].
  destruct (is_space x) eqn:E, b; simpl.
  - apply IH.
  - split; [discriminate|apply IH].
  - split; [intros _; exact E|rewrite E; apply IH].
  - split; [discriminate|rewrite E; apply IH].
Qed.

Lemma no_ws_run_app : forall x y p, no_ws_run p (x ++ y) -> exists p', no_ws_run p' y.
Proof.
  induction x as [|c x IH]; intros y p H; simpl in H; [exists p; exact H|].
  destruct H as [_ H]. exact (IH _ _ H).
Qed.

(** A run of whitespace inside a normalised text is empty or one space. *)
Lemma ws_run_short : forall s x w y,
  s = x ++ w ++ y -> (forall c, In c s -> is_space c = true -> c = " "%char) ->
  (exists p, no_ws_run p s) -> Forall (fun c => is_space c = true) w ->
  w = [] \/ w = [" "%char].
Proof.
  intros s x w y Hs Hsp [p Hn] Hw. rewrite Hs in Hn. apply no_ws_run_app in Hn as [p' Hn].
  destruct w as [|c1 [|c2 w]]; [left; reflexivity| |].
  - right. f_equal. apply Hsp; [rewrite Hs; apply in_or_app; right; left; reflexivity|].
    inversion Hw; assumption.
  - exfalso. inversion Hw as [|? ? H1 Hw']. inversion Hw' as [|? ? H2 _].
    simpl in Hn. destruct Hn as [_ [Hn _]]. rewrite (Hn H1) in H2. discriminate.
Qed.

Lemma in_of_existsb : forall x l, existsb (text_eqb x) l = true -> In x l.
Proof.
  intros x l H. apply existsb_exists in H as (y & Hy & E). apply text_eqb_eq in E. congruence.
Qed.

Lemma pair_sep : forall a b s,
  (forall c, In c s -> is_space c = true -> c = " "%char) -> (exists p, no_ws_run p s) ->
  match_pair a b s = true -> exists m, In m header_separators /\ s = a ++ m ++ b.
Proof.
  intros a b s Hsp Hn H.
  destruct (match_pair_shape _ _ _ H) as (w1 & sp & w2 & e & Hs & Hw1 & Hw2 & Hsep & Hsw & He).
  assert (e = []) as ->.
  { destruct e as [|c [|d e]]; [reflexivity| |discriminate].
    simpl in He. apply Ascii.eqb_eq in He. subst c.
    assert (Hc : In "010"%char s)
      by (rewrite Hs; repeat (apply in_or_app; right); left; reflexivity).
    specialize (Hsp _ Hc eq_refl). discriminate. }
  pose proof (ws_run_short s a w1 (sp ++ w2 ++ b ++ []) Hs Hsp Hn Hw1) as H1.
  assert (Hs2 : s = (a ++ w1 ++ sp) ++ w2 ++ b ++ []) by (rewrite Hs, <- !app_assoc; reflexivity).
  pose proof (ws_run_short s (a ++ w1 ++ sp) w2 (b ++ []) Hs2 Hsp Hn Hw2) as H2.
  clear Hs2. exists (w1 ++ sp ++ w2).
  split; [|rewrite Hs, app_nil_r, <- !app_assoc; reflexivity].
  destruct H1 as [-> | ->]; destruct H2 as [-> | ->]; destruct Hsep as [-> | [-> | ->]];
  try (specialize (Hsw eq_refl); discriminate);
  apply in_of_existsb; vm_compute; reflexivity.
Qed.

Lemma pair_in_forms : forall a b m, In (a, b) header_pairs -> In m header_separators ->
  In (a ++ m ++ b) header_forms.
Proof.
  intros a b m Hab Hm. unfold header_forms. apply in_or_app. right.
  apply in_flat_map. exists (a, b). split; [exact Hab|]. apply in_map_iff. exists m. split; [reflexivity|exact Hm].
Qed.

Lemma forms_match : forall s, In s header_forms -> existsb (fun p => p s) dp_patterns = true.
Proof.
  intros s Hs.
  assert (H : forallb (fun s => existsb (fun p => p s) dp_patterns) header_forms = true)
    by (vm_compute; reflexivity).
  rewrite forallb_forall in H. exact (H s Hs).
Qed.

Lemma match_forms : forall s,
  (forall c, In c s -> is_space c = true -> c = " "%char) -> (exists p, no_ws_run p s) ->
  existsb (fun p => p s) dp_patterns = true -> In s header_forms.
Proof.
  intros s Hsp Hn H. simpl in H.
  assert (Hw : forall a, match_word a s = true -> s = a).
  { intros a Ha. destruct (match_word_shape _ _ Ha) as (e & -> & He).
    destruct e as [|c [|d e]]; [apply app_nil_r| |discriminate].
    simpl in He. apply Ascii.eqb_eq in He. subst c.
    assert (Hc : In "010"%char (a ++ ["010"%char])) by (apply in_or_app; right; left; reflexivity).
    specialize (Hsp _ Hc eq_refl). discriminate. }
  repeat (apply orb_true_iff in H as [H|H]); try discriminate;
  try (apply Hw in H; rewrite H; unfold header_forms; simpl; tauto);
  (destruct (pair_sep _ _ _ Hsp Hn H) as (m & Hm & ->); apply pair_in_forms; [simpl; tauto|exact Hm]).
Qed.

Lemma normalize_nf : forall h,
  (forall c, In c (normalize h) -> is_space c = true -> c = " "%char)
  /\ (exists p, no_ws_run p (normalize h)).
Proof.
  intros h. split; [apply collapse_space|exists false; apply collapse_no_run].
Qed.

Lemma candidate_forms : forall h, candidate_name_matches h = true <-> In (normalize h) header_forms.
Proof.
  intros h. destruct (normalize_nf h) as [Hsp Hn].
  destruct h as [|c h].
  - simpl. split; [discriminate|]. intros H.
    assert (Hne : forallb (fun s => negb (text_eqb s [])) header_forms = true)
      by (vm_compute; reflexivity).
    rewrite forallb_forall in Hne. specialize (Hne _ H). vm_compute in Hne. discriminate.
  - unfold candidate_name_matches. split; [apply match_forms; assumption|apply forms_match].
Qed.

Lemma find_col_some : forall rv k c, find_col rv k = Some c <->
  exists i, c = k + i /\ i < length rv /\ candidate_name_matches (nth i rv []) = true
            /\ (forall j, j < i -> candidate_name_matches (nth j rv []) = false).
Proof.
  induction rv as [|h rv IH]; intros k c; simpl.
  - split; [discriminate|]. intros (i & _ & Hi & _). lia.
  - destruct (candidate_name_matches h) eqn:Eh.
    + split.
      * intros H. injection H as <-. exists 0. split; [lia|]. split; [lia|].
        split; [exact Eh|intros j Hj; lia].
      * intros (i & -> & Hi & Hm & Hb). destruct i as [|i]; [f_equal; lia|].
        specialize (Hb 0 ltac:(lia)). simpl in Hb. congruence.
    + rewrite IH. split.
      * intros (i & -> & Hi & Hm & Hb). exists (S i). split; [lia|]. split; [lia|].
        split; [exact Hm|]. intros [|j] Hj; [exact Eh|apply Hb; lia].
      * intros (i & -> & Hi & Hm & Hb). destruct i as [|i]; [simpl in Hm; congruence|].
        exists i. split; [lia|]. split; [lia|]. split; [exact Hm|].
        intros j Hj. apply (Hb (S j)). lia.
Qed.

Lemma find_col_none : forall rv k, find_col rv k = None <->
  forall i, i < length rv -> candidate_name_matches (nth i rv []) = false.
Proof.
  induction rv as [|h rv IH]; intros k; simpl.
  - split; [intros _ i Hi; lia|reflexivity].
  - destruct (candidate_name_matches h) eqn:Eh.
    + split; [discriminate|]. intros H. specialize (H 0 ltac:(lia)). simpl in H. congruence.
    + rewrite IH. split.
      * intros H [|i] Hi; [exact Eh|apply H; lia].
      * intros H i Hi. apply (H (S i)). lia.
Qed.

Section Scan.
Variable ws : worksheet.

Lemma scan_seq_some : forall n s r c,
  scan_rows ws (seq s n) = Some (r, c) <->
  s <= r < s + n /\ find_col (row_values ws r) 0 = Some c
  /\ (forall r', s <= r' < r -> find_col (row_values ws r') 0 = None).
Proof.
  induction n as [|n IH]; intros s r c; simpl.
  - split; [discriminate|lia].
  - destruct (find_col (row_values ws s) 0) as [c0|] eqn:E.
    + split.
      * intros H. injection H as <- <-. split; [lia|]. split; [exact E|intros r' Hr'; lia].
      * intros (Hr & Hf & Hb). destruct (Nat.eq_dec r s) as [->|Hne].
        -- rewrite E in Hf. congruence.
        -- specialize (Hb s ltac:(lia)). congruence.
    + rewrite IH. split.
      * intros (Hr & Hf & Hb). split; [lia|]. split; [exact Hf|].
        intros r' Hr'. destruct (Nat.eq_dec r' s) as [->|Hne]; [exact E|apply Hb; lia].
      * intros (Hr & Hf & Hb). destruct (Nat.eq_dec r s) as [->|Hne]; [congruence|].
        split; [lia|]. split; [exact Hf|]. intros r' Hr'. apply Hb. lia.
Qed.

Lemma scan_seq_none : forall n s,
  scan_rows ws (seq s n) = None <->
  (forall r, s <= r < s + n -> find_col (row_values ws r) 0 = None).
Proof.
  induction n as [|n IH]; intros s; simpl.
  - split; [intros _ r Hr; lia|reflexivity].
  - destruct (find_col (row_values ws s) 0) as [c0|] eqn:E.
    + split; [discriminate|]. intros H. rewrite (H s ltac:(lia)) in E. discriminate.
    + rewrite IH. split.
      * intros H r Hr. destruct (Nat.eq_dec r s) as [->|Hne]; [exact E|apply H; lia].
      * intros H r Hr. apply H. lia.
Qed.

Lemma row_values_length : forall r, length (row_values ws r) = Nat.min 20 (max_column ws).
Proof. intros r. unfold row_values. rewrite length_map, length_seq. reflexivity. Qed.

Lemma row_values_nth : forall r i, i < Nat.min 20 (max_column ws) ->
  nth i (row_values ws r) [] = cell_text (cell ws (S r) (S i)).
Proof.
  intros r i Hi. unfold row_values.
  rewrite nth_indep with (d' := cell_text (cell ws (S r) (S 0)))
    by (rewrite length_map, length_seq; exact Hi).
  rewrite (map_nth (fun col_idx => cell_text (cell ws (S r) (S col_idx)))).
  rewrite seq_nth by exact Hi. reflexivity.
Qed.

End Scan.

(** C2: [candidate_name_matches] accepts a header exactly when its
    normalised text (stripped, lower-cased, whitespace runs made one space)
    is one of [header_forms] (the whole text, not a part of it), which
    settles the listed examples; [detect_header_and_column] returns the
    0-based [(row, column)] of the first matching cell of the first row
    with a match, rows [0 .. min(50, max_row) - 1] and columns
    [0 .. min(20, max_column) - 1] scanned in row-major order, and fails
    exactly when no cell of that range matches. *)
Theorem header_detection_spec :
  (forall h, candidate_name_matches h = true <-> In (normalize h) header_forms)
  /\ candidate_name_matches (t "Department/Project") = true
  /\ candidate_name_matches (t "Dept - Project") = true
  /\ candidate_name_matches (t "PROJECT") = true
  /\ candidate_name_matches (t "  Department / Project  ") = true
  /\ candidate_name_matches (t "Department Name") = false
  /\ candidate_name_matches (t "Project Manager") = false
  /\ candidate_name_matches (t "Cost Center") = false
  /\ (forall ws r c, detect_header_and_column ws = inl (r, c) <->
        r < Nat.min 50 (max_row ws) /\ c < Nat.min 20 (max_column ws)
        /\ candidate_name_matches (cell_text (cell ws (S r) (S c))) = true
        /\ (forall r' c', r' < r -> c' < Nat.min 20 (max_column ws) ->
              candidate_name_matches (cell_text (cell ws (S r') (S c'))) = false)
        /\ (forall c', c' < c -> candidate_name_matches (cell_text (cell ws (S r) (S c'))) = false))
  /\ (forall ws, (exists e, detect_header_and_column ws = inr e) <->
        (forall r c, r < Nat.min 50 (max_row ws) -> c < Nat.min 20 (max_column ws) ->
           candidate_name_matches (cell_text (cell ws (S r) (S c))) = false)).
Proof.
  split; [exact candidate_forms|].
  do 7 (split; [vm_compute; reflexivity|]).
  split.
  - intros ws r c. unfold detect_header_and_column.
    assert (Hsome : scan_rows ws (seq 0 (Nat.min 50 (max_row ws))) = Some (r, c) <->
                    detect_header_and_column ws = inl (r, c)).
    { unfold detect_header_and_column.
      destruct (scan_rows ws (seq 0 (Nat.min 50 (max_row ws)))) as [rc|];
        split; congruence. }
    unfold detect_header_and_column in Hsome. rewrite <- Hsome, scan_seq_some.
    rewrite find_col_some. setoid_rewrite find_col_none. rewrite row_values_length. split.
    + intros ((_ & Hr) & (i & -> & Hi & Hm & Hb) & Hprev). change (0 + i) with i.
      try rewrite row_values_length in Hi.
      split; [lia|]. split; [exact Hi|].
      split; [rewrite <- row_values_nth by exact Hi; exact Hm|].
      split.
      * intros r' c' Hr' Hc'. rewrite <- row_values_nth by exact Hc'.
        apply (Hprev r' ltac:(lia)). rewrite row_values_length. exact Hc'.
      * intros c' Hc'. rewrite <- row_values_nth by lia. apply Hb. exact Hc'.
    + intros (Hr & Hc & Hm & Hprev & Hb). split; [lia|]. split.
      * exists c. split; [reflexivity|]. try rewrite row_values_length.
        split; [exact Hc|]. split; [rewrite row_values_nth by exact Hc; exact Hm|].
        intros j Hj. rewrite row_values_nth by lia. apply Hb. exact Hj.
      * intros r' Hr' i Hi. try rewrite row_values_length in Hi.
        rewrite row_values_nth by exact Hi. apply Hprev; [lia|exact Hi].
  - intros ws. unfold detect_header_and_column.
    assert (Hnone : forall x : option (nat * nat),
              (exists e, match x with Some rc => inl rc | None => inr (HeaderNotFound (sample_headers ws)) end
                         = @inr (nat * nat) error e) <-> x = None).
    { intros [rc|]; split.
      - intros [e He]. discriminate.
      - discriminate.
      - reflexivity.
      - intros _. eexists. reflexivity. }
    rewrite Hnone, scan_seq_none. split.
    + intros H r c Hr Hc. rewrite <- row_values_nth by exact Hc.
      apply (proj1 (find_col_none _ 0) (H r ltac:(lia))). rewrite row_values_length. exact Hc.
    + intros H r Hr. apply find_col_none. intros i Hi. try rewrite row_values_length in Hi.
      rewrite row_values_nth by exact Hi. apply H; [lia|exact Hi].
Qed.

(** ** C8: choice of the sheet *)

Lemma Qle_bool_total : forall a b, Qle_bool a b = false -> Qle_bool b a = true.
Proof.
  intros a b H. apply Qle_bool_iff, Qlt_le_weak, Qnot_le_lt.
  intros Hle. apply Qle_bool_iff in Hle. congruence.
Qed.

Lemma Qle_bool_trans : forall a b c, Qle_bool a b = true -> Qle_bool b c = true -> Qle_bool a c = true.
Proof.
  intros a b c H1 H2. apply Qle_bool_iff in H1, H2. apply Qle_bool_iff. exact (Qle_trans _ _ _ H1 H2).
Qed.

Lemma filter_map_split : forall {A B} (f : B -> bool) (g : A -> B) L p x s,
  filter f (map g L) = p ++ x :: s ->
  exists P y Q, L = P ++ y :: Q /\ g y = x /\ f x = true
    /\ filter f (map g P) = p /\ filter f (map g Q) = s.
Proof.
  intros A B f g L; induction L as [|a L IH]; intros p x s H; simpl in H.
  - destruct p; discriminate.
  - destruct (f (g a)) eqn:E.
    + destruct p as [|z p].
      * injection H as Ex Hs. exists [], a, L. subst x. repeat split; assumption.
      * injection H as Ez H. destruct (IH _ _ _ H) as (P & y & Q & -> & Hy & Hf & Hp & Hq).
        exists (a :: P), y, Q. simpl. rewrite E. subst. repeat split; reflexivity || assumption.
    + destruct (IH _ _ _ H) as (P & y & Q & -> & Hy & Hf & Hp & Hq).
      exists (a :: P), y, Q. simpl. rewrite E. repeat split; assumption.
Qed.

Lemma keyword_pick_positive : forall names,
  (exists n, In n names /\ 0 < sheet_score n) ->
  exists P Q, names = P ++ keyword_pick names :: Q
    /\ 0 < sheet_score (keyword_pick names)
    /\ Forall (fun y => sheet_score y < sheet_score (keyword_pick names)) P
    /\ Forall (fun y => sheet_score y <= sheet_score (keyword_pick names)) Q.
Proof.
  intros names (n0 & Hn0 & Hs0). unfold keyword_pick.
  set (scored := filter (fun ns => 0 <? snd ns) (map (fun n => (n, sheet_score n)) names)).
  destruct (sort_desc Nat.leb snd scored) as [|[n k] r] eqn:Es.
  - exfalso. assert (Hin : In (n0, sheet_score n0) scored).
    { apply filter_In. split; [apply in_map_iff; exists n0; split; [reflexivity|exact Hn0]|].
      apply Nat.ltb_lt. exact Hs0. }
    apply (Permutation_in _ (Permutation_sym (sort_desc_perm Nat.leb snd scored))) in Hin.
    rewrite Es in Hin. destruct Hin.
  - destruct (sort_desc_head Nat.leb snd nat_leb_total nat_leb_trans _ _ _ Es) as (p & s & Hsc & Hp & Hs).
    destruct (filter_map_split _ _ _ _ _ _ Hsc) as (P & y & Q & -> & Hy & Hf & HP & HQ).
    injection Hy as -> ->. simpl in Hf. apply Nat.ltb_lt in Hf.
    exists P, Q. split; [reflexivity|]. split; [exact Hf|]. split.
    + apply Forall_forall. intros z Hz.
      destruct (Nat.ltb_spec 0 (sheet_score z)) as [Hpos|Hz0]; [|lia].
      assert (Hin : In (z, sheet_score z) p).
      { rewrite <- HP. apply filter_In. split; [apply in_map_iff; exists z; split; [reflexivity|exact Hz]|].
        apply Nat.ltb_lt. exact Hpos. }
      rewrite Forall_forall in Hp. specialize (Hp _ Hin). simpl in Hp. apply Nat.leb_gt in Hp. exact Hp.
    + apply Forall_forall. intros z Hz.
      destruct (Nat.ltb_spec 0 (sheet_score z)) as [Hpos|Hz0]; [|lia].
      assert (Hin : In (z, sheet_score z) s).
      { rewrite <- HQ. apply filter_In. split; [apply in_map_iff; exists z; split; [reflexivity|exact Hz]|].
        apply Nat.ltb_lt. exact Hpos. }
      rewrite Forall_forall in Hs. specialize (Hs _ Hin). simpl in Hs. apply Nat.leb_le in Hs. exact Hs.
Qed.

Lemma keyword_pick_zero : forall names,
  (forall n, In n names -> sheet_score n = 0) -> keyword_pick names = hd [] names.
Proof.
  intros names H. unfold keyword_pick.
  assert (Hf : filter (fun ns => 0 <? snd ns) (map (fun n => (n, sheet_score n)) names) = []).
  { induction names as [|n names IH]; [reflexivity|]. simpl.
    rewrite (H n (or_introl eq_refl)). simpl. apply IH. intros m Hm. apply H. right. exact Hm. }
  rewrite Hf. reflexivity.
Qed.

Lemma keyword_pick_In : forall names, names <> [] -> In (keyword_pick names) names.
Proof.
  intros names Hne.
  destruct (existsb (fun n => 0 <? sheet_score n) names) eqn:E.
  - apply existsb_exists in E as (n & Hn & Hs). apply Nat.ltb_lt in Hs.
    destruct (keyword_pick_positive names (ex_intro _ n (conj Hn Hs))) as (P & Q & Hpq & _).
    rewrite Hpq at 2. apply in_or_app. right. left. reflexivity.
  - rewrite keyword_pick_zero; [destruct names; [congruence|left; reflexivity]|].
    intros n Hn. destruct (Nat.ltb_spec 0 (sheet_score n)) as [Hp|Hp]; [|lia].
    assert (existsb (fun n => 0 <? sheet_score n) names = true)
      by (apply existsb_exists; exists n; split; [exact Hn|apply Nat.ltb_lt; exact Hp]).
    congruence.
Qed.

Lemma fuzzy_similarity_pick : forall names r, names <> [] -> r <> [] ->
  exists P n Q, names = P ++ n :: Q
    /\ Forall (fun y => (ratio (lower r) (lower y) < ratio (lower r) (lower n))%Q) P
    /\ Forall (fun y => (ratio (lower r) (lower y) <= ratio (lower r) (lower n))%Q) Q
    /\ ((6 # 10 < ratio (lower r) (lower n))%Q -> _find_best_fuzzy_sheet names (Some r) = n)
    /\ ((ratio (lower r) (lower n) <= 6 # 10)%Q ->
          _find_best_fuzzy_sheet names (Some r) = keyword_pick names).
Proof.
  intros names r Hne Hr. unfold _find_best_fuzzy_sheet.
  assert (Er : text_eqb r [] = false)
    by (destruct (text_eqb r []) eqn:E; [apply text_eqb_eq in E; contradiction|reflexivity]).
  rewrite Er. simpl negb. cbv iota.
  destruct (sort_desc Qle_bool snd (map (fun n => (n, ratio (lower r) (lower n))) names))
    as [|[n q] rest] eqn:Es.
  - exfalso. pose proof (sort_desc_perm Qle_bool snd (map (fun n => (n, ratio (lower r) (lower n))) names)) as HP.
    rewrite Es in HP. apply Permutation_nil, map_eq_nil in HP. contradiction.
  - destruct (sort_desc_head Qle_bool snd Qle_bool_total Qle_bool_trans _ _ _ Es) as (p & s & Hm & Hp & Hs).
    apply map_eq_app in Hm as (P & Ls & Hnames & HP & HL).
    apply map_eq_cons in HL as (n' & Q & HLs & Hn & HQ). injection Hn as En Eq. subst n' q.
    exists P, n, Q. split; [rewrite Hnames, HLs; reflexivity|].
    split.
    { apply Forall_forall. intros y Hy. rewrite <- HP in Hp. rewrite Forall_map, Forall_forall in Hp.
      specialize (Hp y Hy). simpl in Hp. apply Qnot_le_lt. intros Hle. apply Qle_bool_iff in Hle.
      congruence. }
    split.
    { apply Forall_forall. intros y Hy. rewrite <- HQ in Hs. rewrite Forall_map, Forall_forall in Hs.
      specialize (Hs y Hy). simpl in Hs. apply Qle_bool_iff. exact Hs. }
    split.
    + intros Hgt. destruct (Qle_bool (ratio (lower r) (lower n)) (6 # 10)) eqn:Eq; [|reflexivity].
      apply Qle_bool_iff in Eq. exfalso. exact (Qle_not_lt _ _ Eq Hgt).
    + intros Hle. apply Qle_bool_iff in Hle. rewrite Hle. reflexivity.
Qed.

Lemma fuzzy_sheet_In : forall names requested, names <> [] ->
  In (_find_best_fuzzy_sheet names requested) names.
Proof.
  intros names requested Hne.
  destruct requested as [r|]; [|apply keyword_pick_In, Hne].
  destruct (text_eqb r []) eqn:Er.
  - unfold _find_best_fuzzy_sheet. rewrite Er. apply keyword_pick_In, Hne.
  - assert (Hr : r <> []) by (intros ->; discriminate).
    destruct (fuzzy_similarity_pick names r Hne Hr) as (P & n & Q & Hn & _ & _ & Hgt & Hle).
    change (@Some text r) with (@Some (list ascii) r).
    destruct (Qlt_le_dec (6 # 10) (ratio (lower r) (lower n))) as [H|H].
    + rewrite (Hgt H), Hn. apply in_or_app. right. left. reflexivity.
    + rewrite (Hle H). apply keyword_pick_In, Hne.
Qed.

(** C8 (amended): [find_target_sheet_name] fails with [NoSheets] on a
    workbook without sheets and with [SheetNotFound] only when fuzzy
    matching is off and a requested name is absent; a requested name that
    is present is returned; without a request and without fuzzy matching
    the first sheet is returned; with fuzzy matching it always returns one
    of the sheet names, chosen by [_find_best_fuzzy_sheet].  That choice
    takes, for a non-empty request, the first sheet of highest similarity
    [ratio] when this similarity exceeds 0.6, and otherwise (or without a
    request) the keyword choice: the first sheet of highest positive score
    (SG&A words twice, summary words once), or the first sheet when every
    score is zero. *)
Theorem find_target_sheet_spec :
  (forall names requested fuzzy, names = [] ->
     find_target_sheet_name names requested fuzzy = inr NoSheets)
  /\ (forall names requested fuzzy e, find_target_sheet_name names requested fuzzy = inr e ->
        names = [] \/ (fuzzy = false /\ exists r, requested = Some r /\ ~ In r names))
  /\ (forall names requested fuzzy r, requested = Some r -> In r names ->
        find_target_sheet_name names requested fuzzy = inl r)
  /\ (forall names, names <> [] -> find_target_sheet_name names None false = inl (hd [] names))
  /\ (forall names requested, names <> [] ->
        exists s, find_target_sheet_name names requested true = inl s /\ In s names)
  /\ (forall names requested, names <> [] -> (forall r, requested = Some r -> ~ In r names) ->
        find_target_sheet_name names requested true = inl (_find_best_fuzzy_sheet names requested))
  /\ (forall names, _find_best_fuzzy_sheet names None = keyword_pick names
                    /\ _find_best_fuzzy_sheet names (Some []) = keyword_pick names)
  /\ (forall names r, names <> [] -> r <> [] ->
        exists P n Q, names = P ++ n :: Q
          /\ Forall (fun y => (ratio (lower r) (lower y) < ratio (lower r) (lower n))%Q) P
          /\ Forall (fun y => (ratio (lower r) (lower y) <= ratio (lower r) (lower n))%Q) Q
          /\ ((6 # 10 < ratio (lower r) (lower n))%Q -> _find_best_fuzzy_sheet names (Some r) = n)
          /\ ((ratio (lower r) (lower n) <= 6 # 10)%Q ->
                _find_best_fuzzy_sheet names (Some r) = keyword_pick names))
  /\ (forall names, (exists n, In n names /\ 0 < sheet_score n) ->
        exists P Q, names = P ++ keyword_pick names :: Q
          /\ 0 < sheet_score (keyword_pick names)
          /\ Forall (fun y => sheet_score y < sheet_score (keyword_pick names)) P
          /\ Forall (fun y => sheet_score y <= sheet_score (keyword_pick names)) Q)
  /\ (forall names, (forall n, In n names -> sheet_score n = 0) -> keyword_pick names = hd [] names).
Proof.
  split; [intros names requested fuzzy ->; reflexivity|].
  split.
  { intros [|first rest] requested fuzzy e H; [left; reflexivity|right].
    unfold find_target_sheet_name in H. destruct requested as [r|].
    - destruct (existsb (text_eqb r) (first :: rest)) eqn:E; [discriminate|].
      destruct fuzzy; [discriminate|]. split; [reflexivity|]. exists r. split; [reflexivity|].
      intros Hin. assert (existsb (text_eqb r) (first :: rest) = true)
        by (apply existsb_exists; exists r; split; [exact Hin|apply text_eqb_eq; reflexivity]).
      congruence.
    - destruct fuzzy; discriminate. }
  split.
  { intros names requested fuzzy r -> Hin. destruct names as [|first rest]; [destruct Hin|].
    unfold find_target_sheet_name.
    assert (E : existsb (text_eqb r) (first :: rest) = true)
      by (apply existsb_exists; exists r; split; [exact Hin|apply text_eqb_eq; reflexivity]).
    rewrite E. reflexivity. }
  split; [intros [|first rest] Hne; [congruence|reflexivity]|].
  split.
  { intros names requested Hne. destruct names as [|first rest]; [congruence|].
    unfold find_target_sheet_name. destruct requested as [r|].
    - destruct (existsb (text_eqb r) (first :: rest)) eqn:E.
      + exists r. split; [reflexivity|]. apply in_of_existsb, E.
      + eexists. split; [reflexivity|]. apply fuzzy_sheet_In, Hne.
    - eexists. split; [reflexivity|]. apply fuzzy_sheet_In, Hne. }
  split.
  { intros names requested Hne Habs. destruct names as [|first rest]; [congruence|].
    unfold find_target_sheet_name. destruct requested as [r|]; [|reflexivity].
    destruct (existsb (text_eqb r) (first :: rest)) eqn:E; [|reflexivity].
    exfalso. exact (Habs r eq_refl (in_of_existsb _ _ E)). }
  split; [intros names; split; reflexivity|].
  split; [exact fuzzy_similarity_pick|].
  split; [exact keyword_pick_positive|exact keyword_pick_zero].
Qed.

(** C8, against "the highest similarity wins, else the first sheet": a
    requested [xa] is closest to [Data] (similarity 1/3, above zero), yet
    [Summary] is chosen by keywords; a requested [x] resembles no sheet at
    all, yet [SG&A] is chosen rather than the first sheet [a]. *)
Lemma find_target_sheet_threshold :
  ratio (lower (t "xa")) (lower (t "Data")) = (2 # 6)%Q
  /\ ratio (lower (t "xa")) (lower (t "Summary")) = (2 # 9)%Q
  /\ find_target_sheet_name [t "Data"; t "Summary"] (Some (t "xa")) true = inl (t "Summary")
  /\ ratio (lower (t "x")) (lower (t "a")) = (0 # 2)%Q
  /\ ratio (lower (t "x")) (lower (t "SG&A")) = (0 # 5)%Q
  /\ find_target_sheet_name [t "a"; t "SG&A"] (Some (t "x")) true = inl (t "SG&A").
Proof. repeat split; vm_compute; reflexivity. Qed.

(** * More of the code *)

Import CoreMore ExportersMore Draft Cli.

(** ** File names *)

Lemma exists_in_In : forall files x, exists_in files x = true -> In x files.
Proof. intros files x H. apply in_of_existsb. exact H. Qed.

Lemma unique_loop_first : forall fuel files base ext counter p,
  unique_loop fuel files base ext counter = Some p ->
  exists n, counter <= n
    /\ p = with_suffix (stem base ++ t " #" ++ show_N (N.of_nat n)) ext
    /\ exists_in files p = false
    /\ forall m, counter <= m < n ->
         exists_in files (with_suffix (stem base ++ t " #" ++ show_N (N.of_nat m)) ext) = true.
Proof.
  induction fuel as [|f IH]; intros files base ext counter p; [discriminate|].
  cbn [unique_loop].
  destruct (exists_in files (with_suffix (stem base ++ t " #" ++ show_N (N.of_nat counter)) ext)) eqn:E;
    cbn [negb].
  - intros H. destruct (IH _ _ _ _ _ H) as (n & Hn & Hp & Hf & Hm).
    exists n. split; [lia|]. split; [exact Hp|]. split; [exact Hf|].
    intros m Hm'. destruct (Nat.eq_dec m counter) as [->|Hne]; [exact E|]. apply Hm. lia.
  - intros H. injection H as <-. exists counter. split; [lia|]. split; [reflexivity|].
    split; [exact E|]. intros m Hm. lia.
Qed.

Lemma unique_loop_none : forall fuel files base ext counter,
  unique_loop fuel files base ext counter = None ->
  forall m, counter <= m < counter + fuel ->
    exists_in files (with_suffix (stem base ++ t " #" ++ show_N (N.of_nat m)) ext) = true.
Proof.
  induction fuel as [|f IH]; intros files base ext counter H m Hm; [lia|].
  cbn [unique_loop] in H.
  destruct (exists_in files (with_suffix (stem base ++ t " #" ++ show_N (N.of_nat counter)) ext)) eqn:E;
    cbn [negb] in H; [|discriminate].
  destruct (Nat.eq_dec m counter) as [->|Hne]; [exact E|].
  apply (IH _ _ _ _ H). lia.
Qed.

(** [show_N] is read back by the decimal value of its digits. *)
Lemma digits_aux_value : forall fuel n,
  (n < 10 ^ N.of_nat fuel)%N ->
  fold_left (fun a c => (a * 10 + (N_of_ascii c - 48))%N) (digits_aux fuel n []) 0%N = n.
Proof.
  assert (Hd : forall n, (N_of_ascii (ascii_of_N (48 + N.modulo n 10)) - 48)%N = N.modulo n 10).
  { intros n. pose proof (N.mod_lt n 10 ltac:(discriminate)) as Hm.
    revert Hm. generalize (N.modulo n 10). intros m Hm.
    rewrite N_ascii_embedding by lia. lia. }
  assert (Happ : forall fuel n acc, digits_aux fuel n acc = digits_aux fuel n [] ++ acc).
  { induction fuel as [|f IH]; intros n acc; simpl; [reflexivity|].
    destruct (n <? 10)%N; [reflexivity|].
    rewrite IH, (IH _ [_]), <- app_assoc. reflexivity. }
  induction fuel as [|f IH]; intros n Hn.
  - simpl in Hn. assert (n = 0%N) as -> by lia. reflexivity.
  - cbn [digits_aux]. pose proof (N.div_mod n 10 ltac:(discriminate)) as Hdm.
    destruct (N.ltb_spec n 10) as [Hlt|Hge].
    + cbn [fold_left]. rewrite Hd. rewrite N.mod_small by exact Hlt. lia.
    + rewrite Happ, fold_left_app, IH.
      * cbn [fold_left]. rewrite Hd. lia.
      * replace (N.of_nat (S f)) with (N.succ (N.of_nat f)) in Hn by lia.
        rewrite N.pow_succ_r' in Hn.
        apply N.Div0.div_lt_upper_bound. lia.
Qed.

Lemma show_N_value : forall n,
  fold_left (fun a c => (a * 10 + (N_of_ascii c - 48))%N) (show_N n) 0%N = n.
Proof.
  intros n. unfold show_N. apply digits_aux_value.
  destruct n as [|p]; [simpl; lia|].
  pose proof (proj2 (Zpower2_Psize (N.size_nat (Npos p)) p) (Nat.le_refl _)) as H.
  apply N2Z.inj_lt. rewrite N2Z.inj_pow. rewrite nat_N_Z.
  cbn [N.size_nat] in *. simpl (Z.of_N (Npos p)).
  apply (Z.lt_le_trans _ _ _ H).
  apply Z.le_trans with (10 ^ Z.of_nat (Pos.size_nat p))%Z.
  - apply Z.pow_le_mono_l. lia.
  - apply Z.pow_le_mono_r; lia.
Qed.

Lemma show_N_inj : forall a b, show_N a = show_N b -> a = b.
Proof.
  intros a b H. rewrite <- (show_N_value a), <- (show_N_value b), H. reflexivity.
Qed.

Lemma stem_no_dot : forall l, (forall c, In c l -> c <> "."%char) -> stem l = l.
Proof.
  intros l H. unfold stem, suffix_start, rfind_dot. rewrite rfind_dot_aux_no_dot by exact H.
  reflexivity.
Qed.

(** The candidate [stem #n] keeps its whole text when the stem has no dot. *)
Lemma candidate_no_dot : forall s ext n,
  (forall c, In c s -> c <> "."%char) ->
  with_suffix (s ++ t " #" ++ show_N (N.of_nat n)) ext = s ++ t " #" ++ show_N (N.of_nat n) ++ ext.
Proof.
  intros s ext n H. unfold with_suffix. rewrite stem_no_dot.
  - rewrite !app_assoc. reflexivity.
  - intros c Hc. apply in_app_or in Hc as [Hc|[<-|[<-|Hc]]].
    + exact (H c Hc).
    + discriminate.
    + discriminate.
    + exact (show_N_no_dot _ _ Hc).
Qed.

Lemma NoDup_map_injective : forall {A B} (f : A -> B) l,
  (forall x y, In x l -> In y l -> f x = f y -> x = y) -> NoDup l -> NoDup (map f l).
Proof.
  intros A B f l; induction l as [|x l IH]; intros Hi Hn; simpl; [constructor|].
  inversion Hn as [|? ? Hx Hl]; subst. constructor.
  - intros Hin. apply in_map_iff in Hin as (y & Ey & Hy).
    assert (y = x) as -> by (apply Hi; [right; exact Hy|left; reflexivity|exact Ey]).
    contradiction.
  - apply IH; [|exact Hl]. intros a b Ha Hb. apply Hi; right; assumption.
Qed.

Lemma sanitize_filename_In : forall g c,
  In c (sanitize_filename g) -> In c g \/ c = "_"%char \/ c = " "%char \/ In c unknown.
Proof.
  intros g c. unfold sanitize_filename.
  destruct (text_eqb g [] || text_eqb (strip g) []); [tauto|].
  set (s1 := map (fun c => if is_reserved c then "_"%char else c) (strip g)).
  set (s3 := strip_by (fun c => Ascii.eqb c "." || Ascii.eqb c " ") (collapse_ws s1)).
  set (s4 := if 200 <? length s3 then strip (firstn 200 s3) else s3).
  destruct (text_eqb s4 []); [tauto|].
  intros Hc. assert (H3 : In c s3).
  { unfold s4 in Hc. destruct (200 <? length s3); [|exact Hc].
    apply strip_by_In, firstn_In in Hc. exact Hc. }
  apply strip_by_In in H3. unfold collapse_ws in H3.
  destruct (collapse_aux_In _ _ _ H3) as [H1| ->]; [|tauto].
  unfold s1 in H1. apply in_map_iff in H1 as (x & <- & Hx).
  destruct (is_reserved x); [tauto|]. left. apply strip_by_In in Hx. exact Hx.
Qed.

Lemma sanitize_filename_no_dot : forall g, ~ In "."%char g ->
  forall c, In c (sanitize_filename g) -> c <> "."%char.
Proof.
  intros g Hg c Hc ->. apply sanitize_filename_In in Hc as [H|[H|[H|H]]].
  - exact (Hg H).
  - discriminate.
  - discriminate.
  - repeat (destruct H as [H|H]; [discriminate|]). exact H.
Qed.

Lemma rfind_dot_aux_app : forall a b i found,
  rfind_dot_aux i (a ++ b) found = rfind_dot_aux (i + length a) b (rfind_dot_aux i a found).
Proof.
  induction a as [|c a IH]; intros b i found; simpl.
  - now rewrite Nat.add_0_r.
  - rewrite IH. f_equal. lia.
Qed.

Lemma stem_last_dot : forall s e,
  (forall c, In c s -> c <> "."%char) -> (forall c, In c e -> c <> "."%char) -> e <> [] ->
  s <> [] -> stem (s ++ "."%char :: e) = s.
Proof.
  intros s e Hs He Hne Hsne. unfold stem, suffix_start, rfind_dot.
  rewrite rfind_dot_aux_app, (rfind_dot_aux_no_dot s) by exact Hs.
  cbn [rfind_dot_aux Ascii.eqb Bool.eqb]. rewrite rfind_dot_aux_no_dot by exact He.
  rewrite length_app. cbn [length]. simpl (0 + length s).
  destruct s as [|c s]; [congruence|]. destruct e as [|d e]; [congruence|].
  cbn [length]. destruct (Nat.ltb_spec 0 (S (length s))); [|lia].
  destruct (Nat.ltb_spec (S (length s)) (S (length s) + S (S (length e)) - 1)); [|lia].
  cbn [andb]. rewrite firstn_app, firstn_all2 by (simpl; lia).
  replace (S (length s) - length (c :: s)) with 0 by (simpl; lia). simpl. now rewrite app_nil_r.
Qed.

(** X1: [generate_unique_filename] returns only a name that does not exist
    in the output directory, whatever the base and the extension. *)
Theorem generate_unique_filename_fresh : forall fuel files base ext p,
  generate_unique_filename fuel files base ext = Some p -> exists_in files p = false.
Proof.
  intros fuel files base ext p. unfold generate_unique_filename.
  destruct (exists_in files (with_suffix base ext)) eqn:E; cbn [negb].
  - intros H. destruct (unique_loop_first _ _ _ _ _ _ H) as (n & _ & _ & Hf & _). exact Hf.
  - intros H. injection H as <-. exact E.
Qed.

Lemma generate_unique_filename_fresh_witness :
  exists_in [t "Sales - SG&A Summary.xlsx"] (t "Sales - SG&A Summary #2.xlsx") = false.
Proof.
  apply (generate_unique_filename_fresh 1 [t "Sales - SG&A Summary.xlsx"]
           (t "Sales - SG&A Summary") xlsx).
  vm_compute. reflexivity.
Defined.

(** X2: when the stem of the base has no dot, [generate_unique_filename]
    returns, within [len(files)] rounds of its loop, the first name of the
    sequence [stem + ext], [stem #2 + ext], [stem #3 + ext], ... that does
    not exist; every earlier name of the sequence exists. *)
Theorem generate_unique_filename_first_free : forall fuel files base ext,
  (forall c, In c (stem base) -> c <> "."%char) -> length files <= fuel ->
  exists p, generate_unique_filename fuel files base ext = Some p
    /\ exists_in files p = false
    /\ (p = stem base ++ ext
        \/ (exists_in files (stem base ++ ext) = true
            /\ exists n, 2 <= n
                 /\ p = stem base ++ t " #" ++ show_N (N.of_nat n) ++ ext
                 /\ forall m, 2 <= m < n ->
                      exists_in files (stem base ++ t " #" ++ show_N (N.of_nat m) ++ ext) = true)).
Proof.
  intros fuel files base ext Hdot Hfuel. unfold generate_unique_filename.
  set (cand := fun m => stem base ++ t " #" ++ show_N (N.of_nat m) ++ ext).
  assert (Hc : forall m, with_suffix (stem base ++ t " #" ++ show_N (N.of_nat m)) ext = cand m)
    by (intros m; apply candidate_no_dot, Hdot).
  destruct (exists_in files (with_suffix base ext)) eqn:E; cbn [negb].
  - destruct (unique_loop fuel files base ext 2) as [p|] eqn:L.
    + destruct (unique_loop_first _ _ _ _ _ _ L) as (n & Hn & Hp & Hf & Hm).
      exists p. split; [reflexivity|]. split; [exact Hf|]. right. split; [exact E|].
      exists n. split; [exact Hn|]. split; [rewrite Hp; apply Hc|].
      intros m Hm'. specialize (Hm m Hm'). rewrite Hc in Hm. exact Hm.
    + exfalso. pose proof (unique_loop_none _ _ _ _ _ L) as Hall.
      assert (Hincl : incl (with_suffix base ext :: map cand (seq 2 fuel)) files).
      { intros x [<-|Hx]; [apply exists_in_In; exact E|].
        apply in_map_iff in Hx as (m & <- & Hm). apply in_seq in Hm.
        apply exists_in_In. rewrite <- Hc. apply Hall. lia. }
      assert (Hnd : NoDup (with_suffix base ext :: map cand (seq 2 fuel))).
      { constructor.
        - intros Hin. apply in_map_iff in Hin as (m & Em & _).
          unfold with_suffix, cand in Em. apply app_inv_head in Em.
          apply (f_equal (@length ascii)) in Em. rewrite !length_app in Em. simpl in Em. lia.
        - apply NoDup_map_injective; [|apply seq_NoDup].
          intros x y _ _ Exy. unfold cand in Exy.
          apply app_inv_head in Exy. apply app_inv_head in Exy. apply app_inv_tail in Exy.
          apply show_N_inj in Exy. lia. }
      pose proof (NoDup_incl_length Hnd Hincl) as Hlen.
      simpl in Hlen. rewrite length_map, length_seq in Hlen. lia.
  - exists (with_suffix base ext). split; [reflexivity|]. split; [exact E|]. left. reflexivity.
Qed.

Lemma generate_unique_filename_first_free_witness :
  (forall c, In c (stem (t "Sales - SG&A Summary")) -> c <> "."%char)
  /\ exists p, generate_unique_filename 1 [t "Sales - SG&A Summary.xlsx"] (t "Sales - SG&A Summary") xlsx = Some p
    /\ exists_in [t "Sales - SG&A Summary.xlsx"] p = false
    /\ (p = stem (t "Sales - SG&A Summary") ++ xlsx
        \/ (exists_in [t "Sales - SG&A Summary.xlsx"] (stem (t "Sales - SG&A Summary") ++ xlsx) = true
            /\ exists n, 2 <= n
                 /\ p = stem (t "Sales - SG&A Summary") ++ t " #" ++ show_N (N.of_nat n) ++ xlsx
                 /\ forall m, 2 <= m < n ->
                      exists_in [t "Sales - SG&A Summary.xlsx"]
                        (stem (t "Sales - SG&A Summary") ++ t " #" ++ show_N (N.of_nat m) ++ xlsx) = true)).
Proof.
  assert (H : forall c, In c (stem (t "Sales - SG&A Summary")) -> c <> "."%char).
  { intros c Hc. vm_compute in Hc. repeat (destruct Hc as [<-|Hc]; [discriminate|]). destruct Hc. }
  split; [exact H|].
  apply (generate_unique_filename_first_free 1 [t "Sales - SG&A Summary.xlsx"]
           (t "Sales - SG&A Summary") xlsx H).
  simpl. lia.
Defined.

(** X3: for a group name without a dot, the base names of both exporters
    keep their whole stem: [base_filename g] (export and clone mode) is its
    own stem and [<sanitized>_SG&A YTD Budget report.xlsx] (one file per
    group) has the stem [<sanitized>_SG&A YTD Budget report]; neither stem
    contains a dot, so X2 applies to both. *)
Theorem group_base_names_keep_stem : forall g,
  ~ In "."%char g ->
  stem (base_filename g) = base_filename g
  /\ (forall c, In c (base_filename g) -> c <> "."%char)
  /\ stem (sanitize_filename g ++ multi_suffix) = sanitize_filename g ++ t "_SG&A YTD Budget report"
  /\ (forall c, In c (sanitize_filename g ++ t "_SG&A YTD Budget report") -> c <> "."%char).
Proof.
  intros g Hg. pose proof (sanitize_filename_no_dot g Hg) as Hs.
  assert (Hb : forall c, In c (base_filename g) -> c <> "."%char).
  { intros c Hc. unfold base_filename in Hc. apply in_app_or in Hc as [Hc|Hc]; [exact (Hs c Hc)|].
    intros ->. vm_compute in Hc. repeat (destruct Hc as [Hc|Hc]; [discriminate|]). exact Hc. }
  assert (Hm : forall c, In c (sanitize_filename g ++ t "_SG&A YTD Budget report") -> c <> "."%char).
  { intros c Hc. apply in_app_or in Hc as [Hc|Hc]; [exact (Hs c Hc)|].
    intros ->. vm_compute in Hc. repeat (destruct Hc as [Hc|Hc]; [discriminate|]). exact Hc. }
  split; [apply stem_no_dot, Hb|]. split; [exact Hb|]. split; [|exact Hm].
  change multi_suffix with (t "_SG&A YTD Budget report" ++ "."%char :: t "xlsx").
  rewrite app_assoc. apply stem_last_dot; [exact Hm| |discriminate|].
  - intros c Hc ->. vm_compute in Hc. repeat (destruct Hc as [Hc|Hc]; [discriminate|]). exact Hc.
  - intros E. apply (f_equal (@length ascii)) in E. rewrite length_app in E. simpl in E. lia.
Qed.

Lemma group_base_names_keep_stem_witness :
  ~ In "."%char (t "Sales")
  /\ stem (base_filename (t "Sales")) = base_filename (t "Sales")
  /\ (forall c, In c (base_filename (t "Sales")) -> c <> "."%char)
  /\ stem (sanitize_filename (t "Sales") ++ multi_suffix)
     = sanitize_filename (t "Sales") ++ t "_SG&A YTD Budget report"
  /\ (forall c, In c (sanitize_filename (t "Sales") ++ t "_SG&A YTD Budget report") -> c <> "."%char).
Proof.
  assert (H : ~ In "."%char (t "Sales")).
  { intros Hc. vm_compute in Hc. repeat (destruct Hc as [Hc|Hc]; [discriminate|]). exact Hc. }
  split; [exact H|]. apply (group_base_names_keep_stem (t "Sales") H).
Defined.

(** ** Input checks *)

Lemma rfind_dot_aux_spec : forall l k found i,
  rfind_dot_aux k l found = Some i ->
  (found = Some i /\ forall c, In c l -> c <> "."%char)
  \/ exists s e, l = s ++ "."%char :: e /\ (forall c, In c e -> c <> "."%char) /\ i = k + length s.
Proof.
  induction l as [|c l IH]; intros k found i H; cbn [rfind_dot_aux] in H.
  - left. split; [exact H|intros c []].
  - destruct (Ascii.eqb_spec c "."%char) as [->|Hc];
      destruct (IH _ _ _ H) as [[Hf Hn]|(s & e & -> & He & ->)].
    + right. exists [], l. split; [reflexivity|]. split; [exact Hn|].
      injection Hf as <-. simpl. lia.
    + right. exists ("."%char :: s), e. split; [reflexivity|]. split; [exact He|]. simpl. lia.
    + left. split; [exact Hf|]. intros d [<-|Hd]; [exact Hc|exact (Hn d Hd)].
    + right. exists (c :: s), e. split; [reflexivity|]. split; [exact He|]. simpl. lia.
Qed.

Lemma existsb_text_eqb_In : forall x l, existsb (text_eqb x) l = true <-> In x l.
Proof.
  intros x l. split; [apply in_of_existsb|].
  intros H. apply existsb_exists. exists x. split; [exact H|]. apply text_eqb_eq. reflexivity.
Qed.

Lemma excel_suffix_spec : forall name,
  excel_suffix name = true
  <-> exists s e, name = s ++ "."%char :: e /\ s <> []
                  /\ (forall c, In c e -> c <> "."%char)
                  /\ In (lower e) [t "xlsx"; t "xlsm"].
Proof.
  intros name. unfold excel_suffix, suffix, suffix_start, rfind_dot.
  rewrite existsb_text_eqb_In. split.
  - destruct (rfind_dot_aux 0 name None) as [i|] eqn:R; [|intros [H|[H|[]]]; discriminate].
    destruct ((0 <? i) && (i <? length name - 1)) eqn:B; [|intros [H|[H|[]]]; discriminate].
    apply andb_true_iff in B as [B1 B2]. apply Nat.ltb_lt in B1.
    destruct (rfind_dot_aux_spec _ _ _ _ R) as [[Hf _]|(s & e & -> & He & ->)]; [discriminate|].
    rewrite skipn_app, skipn_all2, Nat.sub_diag by lia. cbn [skipn app].
    intros Hin. exists s, e. split; [reflexivity|]. split; [destruct s; simpl in B1; [lia|discriminate]|].
    split; [exact He|].
    destruct Hin as [Hx|[Hx|[]]]; [left|right; left]; injection Hx as Hx; exact Hx.
  - intros (s & e & -> & Hs & He & Hin).
    assert (Hne : e <> []) by (intros ->; destruct Hin as [Hx|[Hx|[]]]; discriminate).
    rewrite rfind_dot_aux_app. cbn [rfind_dot_aux Ascii.eqb Bool.eqb].
    rewrite rfind_dot_aux_no_dot by exact He. simpl (0 + length s).
    rewrite length_app. cbn [length].
    destruct s as [|c0 s0]; [congruence|]. destruct e as [|d e0]; [congruence|].
    destruct (Nat.ltb_spec 0 (length (c0 :: s0))) as [_|H]; [|simpl in H; lia].
    destruct (Nat.ltb_spec (length (c0 :: s0)) (length (c0 :: s0) + S (length (d :: e0)) - 1))
      as [_|H]; [|simpl in H; lia].
    cbn [andb]. rewrite skipn_app, skipn_all2, Nat.sub_diag by lia. cbn [skipn app].
    change (lower ("."%char :: d :: e0)) with ("."%char :: lower (d :: e0)).
    destruct Hin as [Hx|[Hx|[]]]; rewrite <- Hx; [left|right; left]; reflexivity.
Qed.

(** X4: [validate_inputs] passes exactly when the input exists, its name
    is [s + "." + e] with a non-empty [s], no dot in [e] and [e] equal to
    [xlsx] or [xlsm] in any letter case, the mode is [fast] or [clone] and
    the output directory can be created; [load_workbook_safe] applies the
    same name check.  So [Budget.XLSX] and [a.b.xlsm] pass while
    [.xlsx], [book.xls] and [book.xlsx.bak] do not. *)
Theorem validate_inputs_spec : forall input_exists name mode mkdir_ok load_ok,
  (validate_inputs input_exists name mode mkdir_ok = None
   <-> input_exists = true
       /\ (exists s e, name = s ++ "."%char :: e /\ s <> []
                       /\ (forall c, In c e -> c <> "."%char)
                       /\ In (lower e) [t "xlsx"; t "xlsm"])
       /\ In mode [t "fast"; t "clone"]
       /\ mkdir_ok = true)
  /\ (load_workbook_safe input_exists name load_ok = None
      <-> input_exists = true /\ excel_suffix name = true /\ load_ok = true)
  /\ map excel_suffix [t "Budget.XLSX"; t "a.b.xlsm"; t ".xlsx"; t "book.xls"; t "book.xlsx.bak"]
     = [true; true; false; false; false].
Proof.
  intros ex name mode mk lo. split; [|split; [|vm_compute; reflexivity]].
  - unfold validate_inputs. rewrite <- excel_suffix_spec, <- existsb_text_eqb_In.
    destruct ex, (excel_suffix name), (existsb (text_eqb mode) [t "fast"; t "clone"]), mk;
      cbn; split; intros H; try discriminate; try reflexivity;
      repeat match goal with H : _ /\ _ |- _ => destruct H end; try discriminate;
      repeat split; reflexivity.
  - unfold load_workbook_safe.
    destruct ex, (excel_suffix name), lo; cbn; split; intros H; try discriminate;
      repeat match goal with H : _ /\ _ |- _ => destruct H end; try discriminate;
      repeat split; reflexivity.
Qed.

(** ** Header and split column of the multi-sheet mode *)

Section BestInRow.
Variable pats : list text.

Local Abbreviation M rv j := (_matches_any_pattern (nth j rv []) pats = true).
Local Abbreviation S_ rv j := (match_score (nth j rv []) pats).

Lemma best_in_row_spec : forall rv k bm bs c,
  best_in_row pats rv k bm bs = Some c ->
  (bm = Some c /\ forall j, j < length rv -> M rv j -> (S_ rv j <= bs)%Z)
  \/ (exists j, c = k + j /\ j < length rv /\ M rv j /\ (bs < S_ rv j)%Z
        /\ forall j', j' < length rv -> M rv j' ->
             (S_ rv j' <= S_ rv j)%Z /\ (j' < j -> (S_ rv j' < S_ rv j)%Z)).
Proof.
  induction rv as [|h rv IH]; intros k bm bs c H; cbn [best_in_row] in H.
  - left. split; [exact H|]. intros j Hj. simpl in Hj. lia.
  - destruct (_matches_any_pattern h pats && (bs <? match_score h pats)%Z) eqn:E.
    + apply andb_true_iff in E as [Em El]. apply Z.ltb_lt in El.
      right. destruct (IH _ _ _ _ H) as [[Hb Hall]|(j & -> & Hj & Hm & Hlt & Hall)].
      * injection Hb as <-. exists 0. split; [lia|]. split; [simpl; lia|].
        split; [exact Em|]. split; [exact El|].
        intros [|j'] Hj' Hm'; [split; [lia|lia]|].
        split; [apply (Hall j'); [simpl in Hj'; lia|exact Hm']|lia].
      * exists (S j). split; [lia|]. split; [simpl; lia|]. split; [exact Hm|].
        split; [cbn [nth]; lia|].
        intros [|j'] Hj' Hm'; cbn [nth] in *.
        -- split; lia.
        -- destruct (Hall j' ltac:(simpl in Hj'; lia) Hm') as [H1 H2]. split; [exact H1|].
           intros Hlt'. apply H2. lia.
    + destruct (IH _ _ _ _ H) as [[Hb Hall]|(j & -> & Hj & Hm & Hlt & Hall)].
      * left. split; [exact Hb|]. intros [|j'] Hj' Hm'; cbn [nth] in *.
        -- rewrite Hm' in E. cbn in E. apply Z.ltb_ge in E. exact E.
        -- apply Hall; [simpl in Hj'; lia|exact Hm'].
      * right. exists (S j). split; [lia|]. split; [simpl; lia|]. split; [exact Hm|].
        split; [cbn [nth]; exact Hlt|].
        intros [|j'] Hj' Hm'; cbn [nth] in *.
        -- rewrite Hm' in E. cbn in E. apply Z.ltb_ge in E. split; lia.
        -- destruct (Hall j' ltac:(simpl in Hj'; lia) Hm') as [H1 H2]. split; [exact H1|].
           intros Hlt'. apply H2. lia.
Qed.

End BestInRow.

Lemma pattern_pass_some : forall ws pats l r c,
  pattern_pass ws pats l = Some (r, c) ->
  In r l /\ 3 <= non_empty_count (row_values ws r)
  /\ best_in_row pats (row_values ws r) 0 None 0 = Some c.
Proof.
  intros ws pats; induction l as [|r0 l IH]; intros r c H; cbn [pattern_pass] in H; [discriminate|].
  destruct (2 <=? non_empty_count (row_values ws r0)) eqn:E2.
  - destruct (best_in_row pats (row_values ws r0) 0 None 0) as [c0|] eqn:Eb.
    + destruct (3 <=? non_empty_count (row_values ws r0)) eqn:E3.
      * injection H as <- <-. apply Nat.leb_le in E3. split; [left; reflexivity|]. tauto.
      * destruct (IH _ _ H) as (H1 & H2). split; [right; exact H1|exact H2].
    + destruct (IH _ _ H) as (H1 & H2). split; [right; exact H1|exact H2].
  - destruct (IH _ _ H) as (H1 & H2). split; [right; exact H1|exact H2].
Qed.

Lemma pattern_score_le : forall hl ps s, (s <= 100)%Z -> (pattern_score hl ps s <= 100)%Z.
Proof.
  intros hl; induction ps as [|p ps IH]; intros s Hs; cbn [pattern_score]; [exact Hs|].
  destruct (text_eqb hl (lower p)); [lia|]. apply IH.
  repeat match goal with |- context [if ?b then _ else _] => destruct b end; lia.
Qed.

Lemma contains_app_l : forall p a b, contains p b = true -> contains p (a ++ b) = true.
Proof.
  intros p a b H. induction a as [|x a IH]; [exact H|].
  cbn [app contains]. destruct (strip_prefix p (x :: a ++ b)); [reflexivity|exact IH].
Qed.

Lemma strip_prefix_app_self : forall p b, strip_prefix p (p ++ b) = Some b.
Proof.
  induction p as [|x p IH]; intros b; [reflexivity|].
  cbn [app strip_prefix]. destruct (ascii_dec x x); [apply IH|congruence].
Qed.

Lemma contains_split : forall p s, contains p s = true -> exists a b, s = a ++ p ++ b.
Proof.
  intros p; induction s as [|x s IH]; intros H; cbn [contains] in H.
  - destruct (strip_prefix p []) as [r|] eqn:E; [|discriminate].
    exists [], r. apply strip_prefix_app in E. exact E.
  - destruct (strip_prefix p (x :: s)) as [r|] eqn:E.
    + exists [], r. apply strip_prefix_app in E. exact E.
    + destruct (IH H) as (a & b & ->). exists (x :: a), b. reflexivity.
Qed.

Lemma contains_self_app : forall p a b, contains p (a ++ p ++ b) = true.
Proof.
  intros p a b. apply contains_app_l. destruct p as [|x p].
  - destruct b; reflexivity.
  - pose proof (strip_prefix_app_self (x :: p) b) as E. cbn [app] in E.
    cbn [app contains]. rewrite E. reflexivity.
Qed.

(** A header holding [project/department] or [department/project] scores
    below zero. *)
Lemma match_score_compound : forall h pats,
  contains (t "project/department") (lower h) = true
  \/ contains (t "department/project") (lower h) = true ->
  (match_score h pats < 0)%Z.
Proof.
  intros h pats Hc. unfold match_score.
  assert (Hlen : 18 <= length h).
  { destruct Hc as [Hc|Hc]; apply contains_split in Hc as (a & b & Hab);
      apply (f_equal (@length ascii)) in Hab; unfold lower in Hab;
      rewrite length_map, !length_app in Hab; simpl in Hab; lia. }
  assert (Hslash : contains (t "/") (lower h) = true).
  { destruct Hc as [Hc|Hc]; apply contains_split in Hc as (a & b & ->).
    - change (t "project/department") with (t "project" ++ t "/" ++ t "department").
      rewrite <- !app_assoc. apply contains_app_l. apply contains_self_app.
    - change (t "department/project") with (t "department" ++ t "/" ++ t "project").
      rewrite <- !app_assoc. apply contains_app_l. apply contains_self_app. }
  pose proof (pattern_score_le (lower h) pats 0 ltac:(lia)) as Hp.
  rewrite Hslash. cbn [orb].
  unfold removal_markers. cbn [fold_left].
  change (lower (t "project/department")) with (t "project/department").
  change (lower (t "department/project")) with (t "department/project").
  change (lower (t "unnamed")) with (t "unnamed").
  assert (Hm : (Z.max 0 (20 - Z.of_nat (length h)) <= 2)%Z) by lia.
  destruct Hc as [Hc|Hc]; rewrite Hc;
    repeat match goal with |- context [if ?b then _ else _] => destruct b end; lia.
Qed.

Lemma candidate_name_matches_nil : candidate_name_matches [] = false.
Proof. reflexivity. Qed.

Lemma matches_any_pattern_nonempty : forall h pats, _matches_any_pattern h pats = true -> h <> [].
Proof. intros h pats H ->. discriminate. Qed.

Lemma row_values10_nth : forall ws r i, i < Nat.min 10 (max_column ws) ->
  nth i (row_values10 ws r) [] = cell_text (cell ws (S r) (S i)).
Proof.
  intros ws r i Hi. unfold row_values10.
  rewrite nth_indep with (d' := cell_text (cell ws (S r) (S 0)))
    by (rewrite length_map, length_seq; exact Hi).
  rewrite (map_nth (fun col_idx => cell_text (cell ws (S r) (S col_idx)))).
  rewrite seq_nth by exact Hi. reflexivity.
Qed.

Lemma first_non_empty_some : forall rv k c, first_non_empty rv k = Some c ->
  exists i, c = k + i /\ i < length rv /\ nth i rv [] <> [].
Proof.
  induction rv as [|h rv IH]; intros k c H; cbn [first_non_empty] in H; [discriminate|].
  destruct (text_eqb h []) eqn:E; cbn [negb] in H.
  - destruct (IH _ _ H) as (i & -> & Hi & Hn). exists (S i). split; [lia|]. split; [simpl; lia|exact Hn].
  - injection H as <-. exists 0. split; [lia|]. split; [simpl; lia|].
    simpl. intros Eh. rewrite Eh in E. discriminate.
Qed.

Lemma first_non_empty_none : forall rv k, first_non_empty rv k = None -> non_empty_count rv = 0.
Proof.
  induction rv as [|h rv IH]; intros k H; cbn [first_non_empty] in H; [reflexivity|].
  destruct (text_eqb h []) eqn:E; cbn [negb] in H; [|discriminate].
  unfold non_empty_count. cbn [filter]. rewrite E. cbn [negb]. apply (IH _ H).
Qed.

Lemma wide_row_pass_some : forall ws l r c, wide_row_pass ws l = Some (r, c) ->
  In r l /\ exists i, c = i /\ i < length (row_values10 ws r) /\ nth i (row_values10 ws r) [] <> [].
Proof.
  intros ws; induction l as [|r0 l IH]; intros r c H; cbn [wide_row_pass] in H; [discriminate|].
  destruct (3 <=? non_empty_count (row_values10 ws r0)).
  - destruct (first_non_empty (row_values10 ws r0) 0) as [c0|] eqn:E.
    + injection H as <- <-. split; [left; reflexivity|].
      destruct (first_non_empty_some _ _ _ E) as (i & -> & Hi & Hn). exists i. tauto.
    + destruct (IH _ _ H) as [H1 H2]. split; [right; exact H1|exact H2].
  - destruct (IH _ _ H) as [H1 H2]. split; [right; exact H1|exact H2].
Qed.

Lemma wide_row_pass_none : forall ws l, wide_row_pass ws l = None ->
  forall r, In r l -> non_empty_count (row_values10 ws r) < 3.
Proof.
  intros ws; induction l as [|r0 l IH]; intros H r Hr; [destruct Hr|].
  cbn [wide_row_pass] in H.
  destruct (3 <=? non_empty_count (row_values10 ws r0)) eqn:E3.
  - destruct (first_non_empty (row_values10 ws r0) 0) eqn:E; [discriminate|].
    destruct Hr as [<-|Hr]; [|exact (IH H r Hr)].
    rewrite (first_non_empty_none _ _ E). lia.
  - destruct Hr as [<-|Hr]; [apply Nat.leb_gt in E3; exact E3|exact (IH H r Hr)].
Qed.

Lemma pattern_pass_choice_cells : forall ws pats r c,
  pattern_pass ws pats (seq 0 (Nat.min 50 (max_row ws))) = Some (r, c) ->
  r < Nat.min 50 (max_row ws)
  /\ c < Nat.min 20 (max_column ws)
  /\ 3 <= non_empty_count (row_values ws r)
  /\ _matches_any_pattern (cell_text (cell ws (S r) (S c))) pats = true
  /\ (0 < match_score (cell_text (cell ws (S r) (S c))) pats)%Z
  /\ (forall c', c' < Nat.min 20 (max_column ws) ->
        _matches_any_pattern (cell_text (cell ws (S r) (S c'))) pats = true ->
        (match_score (cell_text (cell ws (S r) (S c'))) pats
         <= match_score (cell_text (cell ws (S r) (S c))) pats)%Z
        /\ (c' < c -> (match_score (cell_text (cell ws (S r) (S c'))) pats
                       < match_score (cell_text (cell ws (S r) (S c))) pats)%Z)).
Proof.
  intros ws pats r c H.
  destruct (pattern_pass_some _ _ _ _ _ H) as (Hr & H3 & Hb).
  apply in_seq in Hr.
  destruct (best_in_row_spec _ _ _ _ _ _ Hb) as [[Hn _]|(j & Ej & Hj & Hm & Hlt & Hall)];
    [discriminate|].
  simpl in Ej. subst j. rewrite row_values_length in Hj.
  rewrite row_values_nth in Hm, Hlt by exact Hj.
  split; [lia|]. split; [exact Hj|]. split; [exact H3|]. split; [exact Hm|]. split; [exact Hlt|].
  intros c' Hc' Hm'. rewrite <- (row_values_nth ws r c') in Hm' |- * by exact Hc'.
  rewrite <- (row_values_nth ws r c) by exact Hj.
  apply Hall; [rewrite row_values_length; exact Hc'|exact Hm'].
Qed.

(** X5: when the pattern pass of [_detect_header_and_split_column] finds
    a column, that is the result; the row is one of the first
    [min(50, max_row)] with at least three non-empty cells among its first
    [min(20, max_column)], the header matches a pattern, scores above
    zero, scores at least as high as every other matching header of the
    row and strictly higher than those to its left; and it never contains
    [project/department] or [department/project] (whatever the
    patterns, such a header scores below zero). *)
Theorem split_column_pattern_choice : forall ws pats r c,
  pattern_pass ws pats (seq 0 (Nat.min 50 (max_row ws))) = Some (r, c) ->
  _detect_header_and_split_column ws pats = inl (r, c)
  /\ r < Nat.min 50 (max_row ws)
  /\ c < Nat.min 20 (max_column ws)
  /\ 3 <= non_empty_count (row_values ws r)
  /\ _matches_any_pattern (cell_text (cell ws (S r) (S c))) pats = true
  /\ (0 < match_score (cell_text (cell ws (S r) (S c))) pats)%Z
  /\ (forall c', c' < Nat.min 20 (max_column ws) ->
        _matches_any_pattern (cell_text (cell ws (S r) (S c'))) pats = true ->
        (match_score (cell_text (cell ws (S r) (S c'))) pats
         <= match_score (cell_text (cell ws (S r) (S c))) pats)%Z
        /\ (c' < c -> (match_score (cell_text (cell ws (S r) (S c'))) pats
                       < match_score (cell_text (cell ws (S r) (S c))) pats)%Z))
  /\ contains (t "project/department") (lower (cell_text (cell ws (S r) (S c)))) = false
  /\ contains (t "department/project") (lower (cell_text (cell ws (S r) (S c)))) = false.
Proof.
  intros ws pats r c H.
  pose proof (pattern_pass_choice_cells _ _ _ _ H) as Hc.
  destruct Hc as (Hr & Hcol & H3 & Hm & Hpos & Hbest).
  split; [unfold _detect_header_and_split_column; rewrite H; reflexivity|].
  split; [exact Hr|]. split; [exact Hcol|]. split; [exact H3|]. split; [exact Hm|].
  split; [exact Hpos|]. split; [exact Hbest|].
  split; apply not_true_iff_false; intros Hx;
    [pose proof (match_score_compound _ pats (or_introl Hx)) as Hneg
    |pose proof (match_score_compound _ pats (or_intror Hx)) as Hneg]; lia.
Qed.


Lemma split_column_pattern_choice_witness :
  pattern_pass MoreSamples.split_sample_sheet [t "project"]
    (seq 0 (Nat.min 50 (max_row MoreSamples.split_sample_sheet))) = Some (0, 2)
  /\ _detect_header_and_split_column MoreSamples.split_sample_sheet [t "project"] = inl (0, 2).
Proof.
  assert (H : pattern_pass MoreSamples.split_sample_sheet [t "project"]
    (seq 0 (Nat.min 50 (max_row MoreSamples.split_sample_sheet))) = Some (0, 2))
    by (vm_compute; reflexivity).
  split; [exact H|].
  exact (proj1 (split_column_pattern_choice _ _ _ _ H)).
Defined.

(** X6: [_detect_header_and_split_column] only ever answers with a
    non-empty cell of the first [min(50, max_row)] rows and the first
    [min(20, max_column)] columns; it fails with the patterns it was
    given only when no cell of that window is a known split-column name
    and no scanned row has three non-empty cells among its first
    [min(10, max_column)]. *)
Theorem detect_header_and_split_column_result : forall ws pats,
  match _detect_header_and_split_column ws pats with
  | inl (r, c) =>
      r < Nat.min 50 (max_row ws) /\ c < Nat.min 20 (max_column ws)
      /\ cell_text (cell ws (S r) (S c)) <> []
  | inr e =>
      e = SplitColumnNotFound pats
      /\ (forall r c, r < Nat.min 50 (max_row ws) -> c < Nat.min 20 (max_column ws) ->
            candidate_name_matches (cell_text (cell ws (S r) (S c))) = false)
      /\ (forall r, r < Nat.min 50 (max_row ws) -> non_empty_count (row_values10 ws r) < 3)
  end.
Proof.
  intros ws pats. unfold _detect_header_and_split_column.
  destruct (pattern_pass ws pats (seq 0 (Nat.min 50 (max_row ws)))) as [[r c]|] eqn:Ep.
  { destruct (pattern_pass_choice_cells _ _ _ _ Ep) as (Hr & Hc & _ & Hm & _).
    split; [exact Hr|]. split; [exact Hc|].
    exact (matches_any_pattern_nonempty _ _ Hm). }
  unfold detect_header_and_column.
  destruct (scan_rows ws (seq 0 (Nat.min 50 (max_row ws)))) as [[r c]|] eqn:Es.
  { apply scan_seq_some in Es as (Hr & Hf & _).
    apply find_col_some in Hf as (i & -> & Hi & Hm & _).
    rewrite row_values_length in Hi. rewrite row_values_nth in Hm by exact Hi.
    split; [lia|]. split; [exact Hi|].
    intros He. simpl in He. rewrite He in Hm. discriminate. }
  destruct (wide_row_pass ws (seq 0 (Nat.min 50 (max_row ws)))) as [[r c]|] eqn:Ew.
  { destruct (wide_row_pass_some _ _ _ _ Ew) as (Hr & i & -> & Hi & Hn).
    apply in_seq in Hr. unfold row_values10 in Hi. rewrite length_map, length_seq in Hi.
    rewrite row_values10_nth in Hn by exact Hi.
    split; [lia|]. split; [lia|exact Hn]. }
  split; [reflexivity|]. split.
  - intros r c Hr Hc. apply scan_seq_none with (r := r) in Es; [|lia].
    rewrite find_col_none in Es. specialize (Es c ltac:(rewrite row_values_length; exact Hc)).
    rewrite row_values_nth in Es by exact Hc. exact Es.
  - intros r Hr. apply (wide_row_pass_none _ _ Ew). apply in_seq. lia.
Qed.

(** ** Column pruning *)

Lemma is_space_lower_char : forall c, is_space (lower_char c) = is_space c.
Proof. intros c. destruct c as [[] [] [] [] [] [] [] []]; reflexivity. Qed.

Lemma lstrip_by_lower : forall s,
  lstrip_by is_space (map lower_char s) = map lower_char (lstrip_by is_space s).
Proof.
  induction s as [|c s IH]; [reflexivity|].
  cbn [map lstrip_by]. rewrite is_space_lower_char.
  destruct (is_space c); [exact IH|reflexivity].
Qed.

Lemma strip_lower : forall s, strip (lower s) = lower (strip s).
Proof.
  intros s. unfold strip, strip_by, lower.
  rewrite lstrip_by_lower, <- map_rev, lstrip_by_lower, map_rev. reflexivity.
Qed.

Lemma contains_nil : forall s, contains [] s = true.
Proof. intros [|c s]; reflexivity. Qed.

Lemma split_on_trailing : forall sep s,
  exists w pre, split_on sep (s ++ [sep]) = w :: pre ++ [[]].
Proof.
  intros sep; induction s as [|c s IH].
  - exists [], []. cbn. rewrite Ascii.eqb_refl. reflexivity.
  - destruct IH as (w & pre & E). cbn [app split_on]. rewrite E.
    destruct (Ascii.eqb c sep).
    + exists [], (w :: pre). reflexivity.
    + exists (c :: w), pre. reflexivity.
Qed.

(** X7: the two places that prune columns classify a header alike:
    [_identify_columns_to_remove] (on the sheet, lower-casing after
    stripping) marks a column with a non-empty header for removal exactly
    when [_remove_unwanted_columns] (on the DataFrame, stripping after
    lower-casing) drops a column of that name, when neither preserves
    it. *)
Theorem removal_paths_agree : forall ws h pats i,
  pats <> [] -> i < max_column ws -> truthy (cell ws (S h) (S i)) = true ->
  (In i (_identify_columns_to_remove ws h pats None)
   <-> _remove_unwanted_columns [py_str (cell ws (S h) (S i))] pats None = []).
Proof.
  intros ws h pats i Hp Hi Ht.
  unfold _identify_columns_to_remove, _remove_unwanted_columns, cell_text.
  destruct pats as [|p0 ps]; [congruence|].
  rewrite filter_In, in_seq, Ht. cbn [filter orb]. rewrite strip_lower.
  destruct (should_remove (p0 :: ps) (lower (strip (py_str (cell ws (S h) (S i))))));
    cbn; split; intros H.
  - reflexivity.
  - split; [lia|reflexivity].
  - destruct H as [_ H]; discriminate.
  - discriminate.
Qed.


Lemma removal_paths_agree_witness :
  truthy (cell MoreSamples.split_sample_sheet 1 2) = true
  /\ (In 1 (_identify_columns_to_remove MoreSamples.split_sample_sheet 0
              (effective_remove_columns None) None)
      <-> _remove_unwanted_columns [py_str (cell MoreSamples.split_sample_sheet 1 2)]
            (effective_remove_columns None) None = []).
Proof.
  split; [vm_compute; reflexivity|].
  apply removal_paths_agree; [discriminate|vm_compute; lia|vm_compute; reflexivity].
Defined.

(** X8: a [--remove-columns] value ending in a comma (say [unnamed,])
    yields a blank pattern, and as [''] is in every string, every column
    but the split column is then pruned: [_identify_columns_to_remove]
    marks every index but the preserved one, and [_remove_unwanted_columns]
    keeps only the columns named as the (non-empty) preserved column. *)
Theorem remove_columns_trailing_comma : forall s ws h p cols pc,
  exists pats,
    parse_remove_columns (Some (s ++ [","%char])) = Some pats /\ In [] pats
    /\ _identify_columns_to_remove ws h pats (Some p)
       = filter (fun i => negb (i =? p)) (seq 0 (max_column ws))
    /\ _remove_unwanted_columns cols pats pc
       = filter (fun col => match pc with
                            | Some q => negb (text_eqb q []) && text_eqb col q
                            | None => false
                            end) cols.
Proof.
  intros s ws h p cols pc.
  destruct (split_on_trailing ","%char s) as (w & pre & E).
  exists (map strip (w :: pre ++ [[]])).
  assert (Hin : In [] (map strip (w :: pre ++ [[]]))).
  { apply in_map_iff. exists []. split; [reflexivity|]. right. apply in_or_app. right. left. reflexivity. }
  assert (Hsr : forall hv, should_remove (map strip (w :: pre ++ [[]])) hv = true).
  { intros hv. unfold should_remove. apply existsb_exists. exists []. split; [exact Hin|].
    cbn [lower map]. rewrite contains_nil. reflexivity. }
  split.
  { unfold parse_remove_columns. rewrite E.
    destruct (text_eqb (s ++ [","%char]) []) eqn:Et; [|reflexivity].
    apply text_eqb_eq in Et. destruct s; discriminate. }
  split; [exact Hin|]. split.
  - unfold _identify_columns_to_remove. cbn [map].
    apply filter_ext. intros i. rewrite Hsr, andb_true_r. reflexivity.
  - unfold _remove_unwanted_columns. cbn [map].
    apply filter_ext. intros col. rewrite Hsr. cbn [negb]. rewrite orb_false_r. reflexivity.
Qed.

(** ** Clone export of the multi-sheet mode *)

Lemma nth_delete_at_S : forall {A} (d : A) i row n,
  nth n (delete_at (S i) row) d = if n <? i then nth n row d else nth (S n) row d.
Proof.
  intros A d i row n. unfold delete_at. cbn [Nat.sub]. rewrite Nat.sub_0_r.
  revert row n; induction i as [|i IH]; intros row n.
  - destruct row as [|x r]; [destruct n; reflexivity|]. reflexivity.
  - destruct row as [|x r].
    { cbn [firstn skipn app]. destruct (n <? S i); destruct n; reflexivity. }
    destruct n as [|n]; [reflexivity|].
    cbn [firstn skipn app nth]. specialize (IH r n). unfold delete_at in IH.
    cbn [firstn skipn app nth] in IH |- *. rewrite IH. reflexivity.
Qed.

Lemma fold_delete_nth : forall {A} (d : A) D row p,
  StronglySorted (fun a b => b < a) D -> ~ In p D ->
  nth (p - length (filter (fun c => c <? p) D))
      (fold_left (fun r c => delete_at (S c) r) D row) d
  = nth p row d.
Proof.
  intros A d D; induction D as [|c D IH]; intros row p HS Hp; cbn [fold_left filter].
  - cbn [length]. now rewrite Nat.sub_0_r.
  - apply StronglySorted_inv in HS as [HS Hall].
    rewrite Forall_forall in Hall.
    assert (Hc : c <> p) by (intros ->; apply Hp; left; reflexivity).
    destruct (Nat.ltb_spec c p) as [Hlt|Hge].
    + assert (Hf : filter (fun c0 => c0 <? p - 1) D = filter (fun c0 => c0 <? p) D).
      { apply filter_ext_in. intros x Hx. specialize (Hall x Hx).
        destruct (Nat.ltb_spec x (p - 1)), (Nat.ltb_spec x p); lia. }
      assert (Hp' : ~ In (p - 1) D) by (intros Hin; specialize (Hall _ Hin); lia).
      pose proof (IH (delete_at (S c) row) (p - 1) HS Hp') as H.
      rewrite Hf in H. cbn [length].
      replace (p - S (length (filter (fun c0 => c0 <? p) D)))
        with (p - 1 - length (filter (fun c0 => c0 <? p) D)) by lia.
      rewrite H, nth_delete_at_S. destruct (Nat.ltb_spec (p - 1) c); [lia|].
      f_equal. lia.
    + assert (Hp' : ~ In p D) by (intros Hin; apply Hp; right; exact Hin).
      rewrite (IH (delete_at (S c) row) p HS Hp'), nth_delete_at_S.
      destruct (Nat.ltb_spec p c); [reflexivity|lia].
Qed.

Lemma fold_delete_nil : forall D,
  fold_left (fun r c => delete_at (S c) r) D (@nil value) = [].
Proof.
  induction D as [|c D IH]; [reflexivity|]. cbn [fold_left].
  replace (delete_at (S c) (@nil value)) with (@nil value) by (unfold delete_at; destruct c; reflexivity).
  exact IH.
Qed.

Lemma delete_columns_max_row : forall cols ws, max_row (delete_columns cols ws) = max_row ws.
Proof.
  intros cols ws. unfold max_row, delete_columns. cbn [rows].
  rewrite delete_columns_map, length_map. reflexivity.
Qed.

Lemma delete_columns_cell : forall cols ws p r,
  NoDup cols -> ~ In p cols ->
  cell (delete_columns cols ws) r (S (adjusted_split_col_idx cols p)) = cell ws r (S p).
Proof.
  intros cols ws p r Hn Hp. unfold cell, delete_columns. cbn [rows].
  rewrite delete_columns_map. cbn [Nat.sub]. rewrite !Nat.sub_0_r.
  set (f := fun row => fold_left (fun r c => delete_at (S c) r) (column_deletion_order cols) row).
  replace (@nil value) with (f []) at 1 by apply fold_delete_nil.
  rewrite map_nth. unfold f.
  assert (HP : Permutation (column_deletion_order cols) cols) by apply sort_desc_perm.
  unfold adjusted_split_col_idx. rewrite adjusted_fold_count.
  rewrite (perm_filter_length _ _ _ (sort_asc_perm Nat.leb cols)).
  rewrite <- (perm_filter_length _ _ _ HP).
  apply fold_delete_nth.
  - apply sort_nat_desc_strict, Hn.
  - intros Hin. apply Hp. apply (Permutation_in _ HP Hin).
Qed.

Lemma delete_at_map : forall {A B} (f : A -> B) i l, delete_at i (map f l) = map f (delete_at i l).
Proof. intros A B f i l. unfold delete_at. rewrite firstn_map, skipn_map, map_app. reflexivity. Qed.

Lemma delete_rows_desc_map : forall (f : list value -> list value) idxs rs,
  delete_rows_desc idxs (map f rs) = map f (delete_rows_desc idxs rs).
Proof.
  intros f idxs rs. unfold delete_rows_desc.
  generalize (sort_desc Nat.leb (fun x => x) idxs) as L. intros L. revert rs.
  induction L as [|i L IH]; intros rs; [reflexivity|].
  cbn [fold_left]. rewrite delete_at_map. apply IH.
Qed.

(** X9: in the multi-sheet clone export, pruning the columns first and
    then keeping the rows of the group (at the shifted split column) gives
    the same result as the single-sheet clone export on the unpruned sheet
    followed by the column pruning: the same rows are kept, the same row
    count is reported, and a group with no rows is skipped in both. *)
Theorem export_clone_multi_sheet_commutes : forall ws h pats p g,
  export_clone_multi_sheet_sheet ws h pats p g
  = match export_clone_sheet ws h p g with
    | Some (w, n) => Some (delete_columns (_identify_columns_to_remove ws h pats (Some p)) w, n)
    | None => None
    end.
Proof.
  intros ws h pats p g. unfold export_clone_multi_sheet_sheet, export_clone_sheet.
  set (cols := _identify_columns_to_remove ws h pats (Some p)).
  assert (Hn : NoDup cols) by apply identify_columns_nodup.
  assert (Hp : ~ In p cols) by apply identify_columns_preserve.
  assert (Hcnt : clone_row_count (delete_columns cols ws) h (adjusted_split_col_idx cols p) g
                 = clone_row_count ws h p g).
  { unfold clone_row_count, data_rows. rewrite delete_columns_max_row. f_equal.
    apply filter_ext. intros r. rewrite delete_columns_cell by assumption. reflexivity. }
  assert (Hdel : rows_to_delete (delete_columns cols ws) h (adjusted_split_col_idx cols p) g
                 = rows_to_delete ws h p g).
  { unfold rows_to_delete, data_rows. rewrite delete_columns_max_row.
    apply filter_ext. intros r. rewrite delete_columns_cell by assumption. reflexivity. }
  rewrite Hcnt, Hdel. destruct (clone_row_count ws h p g =? 0); [reflexivity|].
  unfold delete_columns. cbn [rows max_column]. rewrite !delete_columns_map.
  rewrite delete_rows_desc_map. reflexivity.
Qed.

(** ** Column mapping of the multi-sheet files *)






(** ** One file per group across the processed sheets *)






(** ** Groups of the summary sheet (draft script) *)

Lemma find_first_seq_some : forall p n s c,
  find_first p (seq s n) = Some c ->
  s <= c < s + n /\ p c = true /\ forall c', s <= c' < c -> p c' = false.
Proof.
  intros p; induction n as [|n IH]; intros s c H; cbn [seq find_first] in H; [discriminate|].
  destruct (p s) eqn:E.
  - injection H as <-. split; [lia|]. split; [exact E|]. intros c' Hc'. lia.
  - destruct (IH _ _ H) as (H1 & H2 & H3). split; [lia|]. split; [exact H2|].
    intros c' Hc'. destruct (Nat.eq_dec c' s) as [->|Hne]; [exact E|]. apply H3. lia.
Qed.

Lemma find_first_seq_none : forall p n s,
  find_first p (seq s n) = None -> forall c, s <= c < s + n -> p c = false.
Proof.
  intros p; induction n as [|n IH]; intros s H c Hc; [lia|].
  cbn [seq find_first] in H. destruct (p s) eqn:E; [discriminate|].
  destruct (Nat.eq_dec c s) as [->|Hne]; [exact E|]. apply (IH _ H). lia.
Qed.

Lemma scan_grid_seq_some : forall p n s cols r c,
  scan_grid p (seq s n) cols = Some (r, c) ->
  s <= r < s + n /\ find_first (p r) cols = Some c
  /\ forall r', s <= r' < r -> find_first (p r') cols = None.
Proof.
  intros p; induction n as [|n IH]; intros s cols r c H; cbn [seq scan_grid] in H; [discriminate|].
  destruct (find_first (p s) cols) as [c0|] eqn:E.
  - injection H as <- <-. split; [lia|]. split; [exact E|]. intros r' Hr'. lia.
  - destruct (IH _ _ _ _ H) as (H1 & H2 & H3). split; [lia|]. split; [exact H2|].
    intros r' Hr'. destruct (Nat.eq_dec r' s) as [->|Hne]; [exact E|]. apply H3. lia.
Qed.

Lemma scan_grid_seq_none : forall p n s cols,
  scan_grid p (seq s n) cols = None -> forall r, s <= r < s + n -> find_first (p r) cols = None.
Proof.
  intros p; induction n as [|n IH]; intros s cols H r Hr; [lia|].
  cbn [seq scan_grid] in H. destruct (find_first (p s) cols) eqn:E; [discriminate|].
  destruct (Nat.eq_dec r s) as [->|Hne]; [exact E|]. apply (IH _ _ H). lia.
Qed.

Lemma group_of_cell_In : forall v g,
  In g (group_of_cell v) <-> truthy v = true /\ g = strip (py_str v) /\ g <> [].
Proof.
  intros v g. unfold group_of_cell.
  destruct (truthy v) eqn:Et; cbn [andb]; [|split; [intros []|intros [H _]; discriminate]].
  destruct (text_eqb (strip (py_str v)) []) eqn:Ee; cbn [negb].
  - apply text_eqb_eq in Ee. split; [intros []|]. intros (_ & -> & Hn). contradiction.
  - split.
    + intros [<-|[]]. split; [reflexivity|]. split; [reflexivity|].
      intros He. rewrite He in Ee. discriminate.
    + intros (_ & -> & _). left. reflexivity.
Qed.

(** X12: [get_master_group_list] fails only when no sheet name contains
    [SG&A Summary] or [SGA Summary], or when no cell of the first
    [min(10, max_row)] rows of the first such sheet contains one of the
    keywords; otherwise it takes the first keyword cell in row-major
    order as header and returns, without duplicates, exactly the stripped
    non-empty values of that column below the header row. *)
Theorem get_master_group_list_spec : forall wb,
  match get_master_group_list wb with
  | inl gs =>
      exists ws hr dc,
        find_summary_sheet wb = Some ws
        /\ 1 <= hr <= Nat.min 10 (max_row ws) /\ 1 <= dc <= max_column ws
        /\ master_header_cell ws hr dc = true
        /\ (forall r c, 1 <= r < hr -> 1 <= c <= max_column ws -> master_header_cell ws r c = false)
        /\ (forall c, 1 <= c < dc -> master_header_cell ws hr c = false)
        /\ NoDup gs
        /\ (forall g, In g gs <->
              exists r, hr < r <= max_row ws /\ truthy (cell ws r dc) = true
                        /\ g = strip (py_str (cell ws r dc)) /\ g <> [])
  | inr NoSummarySheet => find_summary_sheet wb = None
  | inr NoGroupColumn =>
      exists ws, find_summary_sheet wb = Some ws
        /\ forall r c, 1 <= r <= Nat.min 10 (max_row ws) -> 1 <= c <= max_column ws ->
             master_header_cell ws r c = false
  end.
Proof.
  intros wb. unfold get_master_group_list.
  destruct (find_summary_sheet wb) as [ws|] eqn:Ef; [|reflexivity].
  destruct (scan_grid (master_header_cell ws) (seq 1 (Nat.min 10 (max_row ws))) (seq 1 (max_column ws)))
    as [[hr dc]|] eqn:Es.
  - destruct (scan_grid_seq_some _ _ _ _ _ _ Es) as (Hr & Hf & Hb).
    destruct (find_first_seq_some _ _ _ _ Hf) as (Hc & Hm & Hcb).
    exists ws, hr, dc. split; [reflexivity|]. split; [lia|]. split; [lia|].
    split; [exact Hm|]. split.
    { intros r c Hr' Hc'. apply (find_first_seq_none _ _ _ (Hb r ltac:(lia))). lia. }
    split; [exact Hcb|]. split.
    { pose proof (ub_nodup (fun x => x)
        (flat_map (fun row_idx => group_of_cell (cell ws row_idx dc)) (seq (S hr) (max_row ws - hr))) [])
        as Hn.
      rewrite map_id in Hn. exact Hn. }
    intros g. split.
    + intros Hg. apply (ub_In (fun x => x)) in Hg as [Hg _].
      apply in_flat_map in Hg as (r & Hr' & Hg). apply in_seq in Hr'.
      apply group_of_cell_In in Hg. exists r. split; [lia|exact Hg].
    + intros (r & Hr' & Hg).
      assert (Hin : In g (flat_map (fun row_idx => group_of_cell (cell ws row_idx dc))
                                   (seq (S hr) (max_row ws - hr)))).
      { apply in_flat_map. exists r. split; [apply in_seq; lia|]. apply group_of_cell_In. exact Hg. }
      destruct (ub_complete (fun x => x) _ [] g Hin) as [[]|(x & Hx & ->)]. exact Hx.
  - exists ws. split; [reflexivity|]. intros r c Hr Hc.
    apply (find_first_seq_none _ _ _ (scan_grid_seq_none _ _ _ _ Es r ltac:(lia))). lia.
Qed.

(** ** Unnamed columns (draft script) *)

Lemma fold_map_delete : forall (L : list nat) (rs : list (list value)),
  fold_left (fun rs c => map (delete_at c) rs) L rs
  = map (fun row => fold_left (fun r c => delete_at c r) L row) rs.
Proof.
  induction L as [|c L IH]; intros rs; cbn [fold_left].
  - symmetry. apply map_id.
  - rewrite IH, map_map. reflexivity.
Qed.

Lemma StronglySorted_filter_nat : forall (R : nat -> nat -> Prop) f l,
  StronglySorted R l -> StronglySorted R (filter f l).
Proof.
  intros R f; induction l as [|x l IH]; intros H; cbn [filter]; [constructor|].
  apply StronglySorted_inv in H as [H Hall].
  destruct (f x); [|exact (IH H)].
  constructor; [exact (IH H)|]. rewrite Forall_forall in Hall |- *.
  intros y Hy. apply filter_In in Hy as [Hy _]. exact (Hall y Hy).
Qed.

Lemma rev_seq_desc : forall n s, StronglySorted (fun a b => b < a) (rev (seq s n)).
Proof.
  induction n as [|n IH]; intros s; [constructor|].
  rewrite seq_S, rev_app_distr. cbn [rev app]. constructor; [apply IH|].
  apply Forall_forall. intros x Hx. apply in_rev, in_seq in Hx. lia.
Qed.

(** X13: [remove_unnamed_columns] (draft script) deletes, from every row
    of a non-empty sheet, header row included, exactly the columns
    [1..max_column] whose row-1 header is a non-empty value that, once
    stripped, starts with [unnamed] in any case and differs from the
    split column name; the other cells keep their order. *)
Theorem remove_unnamed_columns_keep : forall ws sc,
  0 < max_row ws ->
  rows (remove_unnamed_columns ws sc)
  = map (keep_idx (fun j => negb ((j <=? max_column ws) && unnamed_header sc (cell ws 1 j))) 1)
        (rows ws)
  /\ max_column (remove_unnamed_columns ws sc)
     = max_column ws - length (filter (fun j => unnamed_header sc (cell ws 1 j))
                                      (seq 1 (max_column ws))).
Proof.
  intros ws sc Hr. unfold remove_unnamed_columns.
  destruct (Nat.eqb_spec (max_row ws) 0) as [H0|_]; [lia|].
  cbn [rows max_column].
  set (L := filter (fun j => unnamed_header sc (cell ws 1 j)) (rev (seq 1 (max_column ws)))).
  split.
  - rewrite fold_map_delete. apply map_ext. intros row.
    rewrite delete_desc_keep.
    + apply keep_idx_ext. intros j Hj. f_equal.
      destruct (existsb (Nat.eqb j) L) eqn:E.
      * apply existsb_eqb_In in E. unfold L in E. apply filter_In in E as [E1 E2].
        apply in_rev, in_seq in E1. rewrite E2. destruct (Nat.leb_spec j (max_column ws)); [reflexivity|lia].
      * apply not_true_iff_false in E. rewrite existsb_eqb_In in E.
        destruct (Nat.leb_spec j (max_column ws)); [|reflexivity].
        destruct (unnamed_header sc (cell ws 1 j)) eqn:Eu; [|reflexivity].
        exfalso. apply E. unfold L. apply filter_In. split; [|exact Eu].
        rewrite <- in_rev. apply in_seq. lia.
    + apply StronglySorted_filter_nat, rev_seq_desc.
    + intros i Hi. unfold L in Hi. apply filter_In in Hi as [Hi _]. apply in_rev, in_seq in Hi. lia.
  - f_equal. unfold L. rewrite <- (perm_filter_length _ _ _ (Permutation_rev (seq 1 (max_column ws)))).
    reflexivity.
Qed.

Lemma remove_unnamed_columns_keep_witness :
  0 < max_row MoreSamples.unnamed_sample_sheet
  /\ rows (remove_unnamed_columns MoreSamples.unnamed_sample_sheet (t "Project"))
     = [ [VStr (t "Project"); VStr (t "Amount")];
         [VStr (t "Sales"); VInt 5%Z];
         [VStr (t "IT"); VInt 7%Z] ].
Proof.
  assert (H : 0 < max_row MoreSamples.unnamed_sample_sheet) by (vm_compute; lia).
  split; [exact H|].
  rewrite (proj1 (remove_unnamed_columns_keep MoreSamples.unnamed_sample_sheet (t "Project") H)).
  vm_compute. reflexivity.
Defined.

(** ** Clone mode of the draft script *)

Lemma StronglySorted_filter_rev : forall f s n,
  StronglySorted (fun a b => b < a) (rev (filter f (seq s n))).
Proof.
  intros f s n.
  assert (E : forall (l : list nat), rev (filter f l) = filter f (rev l)).
  { induction l as [|x l IH]; [reflexivity|]. cbn [rev filter].
    rewrite filter_app, <- IH. cbn [filter]. destruct (f x); cbn [rev];
      [reflexivity|symmetry; apply app_nil_r]. }
  rewrite E. apply StronglySorted_filter_nat, rev_seq_desc.
Qed.

Lemma delete_rows_below_keep : forall (tw : worksheet) n hr c g,
  n = max_row tw -> hr <= n ->
  fold_left (fun rs row_idx => delete_at row_idx rs)
    (rev (filter (fun row_idx => negb (clone_matches (cell tw row_idx c) g))
                 (seq (S hr) (n - hr))))
    (rows tw)
  = firstn hr (rows tw)
    ++ filter (fun row => clone_matches (nth (c - 1) row VNone) g) (skipn hr (rows tw)).
Proof.
  intros tw n hr c g -> Hhr.
  set (D := rev (filter (fun row_idx => negb (clone_matches (cell tw row_idx c) g))
                        (seq (S hr) (max_row tw - hr)))).
  assert (HD : forall j, In j D <-> S hr <= j <= length (rows tw)
                                    /\ clone_matches (cell tw j c) g = false).
  { intros j. unfold D, max_row in *. rewrite <- in_rev, filter_In, in_seq, negb_true_iff.
    split; intros [H1 H2]; split; (assumption || lia). }
  rewrite delete_desc_keep.
  2: { unfold D. apply StronglySorted_filter_rev. }
  2: { intros i Hi. apply HD in Hi. lia. }
  rewrite <- (firstn_skipn hr (rows tw)) at 1.
  rewrite keep_idx_app. f_equal.
  - apply keep_idx_all. intros j Hj. rewrite length_firstn in Hj.
    apply negb_true_iff, not_true_iff_false. intros Hin. apply existsb_eqb_In, HD in Hin. lia.
  - assert (Hlf : length (firstn hr (rows tw)) = hr) by (rewrite length_firstn; unfold max_row in Hhr; lia).
    rewrite Hlf. apply keep_idx_filter with (d := []). intros j Hj.
    rewrite length_skipn in Hj.
    rewrite nth_skipn. replace (hr + (j - (1 + hr))) with (j - 1) by lia.
    assert (Hc : cell tw j c = nth (c - 1) (nth (j - 1) (rows tw) []) VNone) by reflexivity.
    rewrite <- Hc.
    destruct (clone_matches (cell tw j c) g) eqn:Em.
    + apply negb_true_iff, not_true_iff_false. intros Hin. apply existsb_eqb_In, HD in Hin.
      destruct Hin as [_ Hf]. congruence.
    + apply negb_false_iff. apply existsb_eqb_In, HD. split; [lia|exact Em].
Qed.

Lemma clone_copy_max_row : forall ws, max_row (clone_copy ws) = max_row ws.
Proof. intros ws. unfold max_row, clone_copy. cbn [rows]. rewrite length_map, length_seq. reflexivity. Qed.

(** X14: [process_sheet_clone_mode] (draft script) leaves the target
    untouched and returns 0 for a missing sheet; when no header cell
    names the split column in the first ten rows it keeps the whole copy
    and returns [max_row - 1]; otherwise, with the header at row [hr] and
    column [c] (1-based, first hit in row-major order), the new sheet holds
    the copied rows [1..hr] followed, in order, by the copied rows below
    whose cell in column [c] is not empty and equals the group once
    stripped, and the count returned is the number of those rows. *)
Theorem process_sheet_clone_mode_result : forall wb name sc g,
  match sheet_lookup name wb with
  | None => process_sheet_clone_mode wb name sc g = (None, 0)
  | Some ws =>
      let tw := clone_copy ws in
      match scan_grid (fun r c => split_header_match sc (cell tw r c))
                      (seq 1 (Nat.min 10 (max_row ws))) (seq 1 (max_column ws)) with
      | None => process_sheet_clone_mode wb name sc g = (Some tw, max_row ws - 1)
      | Some (hr, c) =>
          let kept := filter (fun row => clone_matches (nth (c - 1) row VNone) g)
                             (skipn hr (rows tw)) in
          1 <= hr <= Nat.min 10 (max_row ws) /\ 1 <= c <= max_column ws
          /\ split_header_match sc (cell tw hr c) = true
          /\ process_sheet_clone_mode wb name sc g
             = (Some {| rows := firstn hr (rows tw) ++ kept; max_column := max_column ws |},
                length kept)
      end
  end.
Proof.
  intros wb name sc g. unfold process_sheet_clone_mode.
  destruct (sheet_lookup name wb) as [ws|]; [|reflexivity].
  cbv zeta. rewrite clone_copy_max_row.
  change (max_column (clone_copy ws)) with (max_column ws).
  destruct (scan_grid (fun r c => split_header_match sc (cell (clone_copy ws) r c))
              (seq 1 (Nat.min 10 (max_row ws))) (seq 1 (max_column ws))) as [[hr c]|] eqn:Es.
  - destruct (scan_grid_seq_some _ _ _ _ _ _ Es) as (Hr & Hf & _).
    destruct (find_first_seq_some _ _ _ _ Hf) as (Hc & Hm & _).
    split; [lia|]. split; [lia|]. split; [exact Hm|].
    rewrite (delete_rows_below_keep (clone_copy ws) (max_row ws))
      by (rewrite ?clone_copy_max_row; lia).
    f_equal.
    set (K := filter (fun row => clone_matches (nth (c - 1) row VNone) g)
                     (skipn hr (rows (clone_copy ws)))).
    assert (Hm' : max_row {| rows := firstn hr (rows (clone_copy ws)) ++ K;
                             max_column := max_column ws |} = hr + length K).
    { pose proof (clone_copy_max_row ws) as Hl. unfold max_row in Hl, Hr |- *.
      cbn [rows]. rewrite length_app, length_firstn, Hl. lia. }
    rewrite Hm'. destruct (Nat.ltb_spec hr (hr + length K)); lia.
  - f_equal. destruct (Nat.ltb_spec 1 (max_row ws)); lia.
Qed.

(** ** The [multi-sheet] command *)

(** X15: the [multi-sheet] command always exits with status 1: with no
    processed sheet [split_workbook_multi_sheet] raises its ValueError;
    otherwise [_print_multi_sheet_summary] calls [.get] on the first entry
    of [sheets_processed], which is a sheet name (a [str]), and raises
    AttributeError, after the files were written. Even past that, the
    summary has no key [total_files_created] (it is [files_created]), so
    [result['total_files_created']] would raise KeyError. *)
Theorem multi_sheet_always_fails : forall inp processed tg entries od,
  multi_sheet_exit_code (multi_summary inp processed tg entries od) = 1
  /\ multi_sheet_body (multi_summary inp processed tg entries od)
     = inr (match processed with
            | [] => ValueError (t "No sheets could be processed")
            | _ => AttributeError (t "get")
            end)
  /\ match multi_summary inp processed tg entries od with
     | inl d => py_getitem d (t "total_files_created") = inr (KeyError (t "total_files_created"))
     | inr _ => True
     end.
Proof.
  intros inp processed tg entries od.
  destruct processed as [|s rest]; split; try split; reflexivity.
Qed.

(** ** File names of the draft script *)

Lemma lstrip_by_suffix : forall d s, exists p, s = p ++ lstrip_by d s.
Proof.
  intros d; induction s as [|c s IH]; [exists []; reflexivity|].
  cbn [lstrip_by]. destruct (d c).
  - destruct IH as (p & Hp). exists (c :: p). cbn [app]. rewrite <- Hp. reflexivity.
  - exists []. reflexivity.
Qed.

Lemma lstrip_by_head : forall d s c r, lstrip_by d s = c :: r -> d c = false.
Proof.
  intros d; induction s as [|x s IH]; intros c r H; cbn [lstrip_by] in H; [discriminate|].
  destruct (d x) eqn:E; [exact (IH _ _ H)|]. injection H as <- _. exact E.
Qed.

Lemma collapse_dashes_In : forall b s c, In c (collapse_dashes b s) -> In c s.
Proof.
  intros b s; revert b; induction s as [|x s IH]; intros b c H; cbn [collapse_dashes] in H; [exact H|].
  destruct (Ascii.eqb x "-"); [destruct b|]; cbn [In] in H |- *.
  - right. exact (IH _ _ H).
  - destruct H as [H|H]; [left; exact H|right; exact (IH _ _ H)].
  - destruct H as [H|H]; [left; exact H|right; exact (IH _ _ H)].
Qed.

Lemma app_cons_cons_not_nil : forall (a b : text) x y, a ++ x :: y :: b <> [].
Proof. intros [|z a] b x y; discriminate. Qed.

Lemma collapse_dashes_single : forall s b,
  (forall a r, collapse_dashes b s <> a ++ "-"%char :: "-"%char :: r)
  /\ (b = true -> forall r, collapse_dashes b s <> "-"%char :: r).
Proof.
  induction s as [|c s IH]; intros b; cbn [collapse_dashes].
  - split; [intros a r H; symmetry in H; exact (app_cons_cons_not_nil _ _ _ _ H)|].
    intros _ r; discriminate.
  - destruct (Ascii.eqb_spec c "-") as [->|Hc].
    + destruct b.
      * exact (IH true).
      * split; [|discriminate].
        intros [|z a] r H.
        -- injection H as H2. exact (proj2 (IH true) eq_refl _ H2).
        -- injection H as H1 H2. exact (proj1 (IH true) _ _ H2).
    + split.
      * intros [|z a] r H; injection H as H1 H2; [exact (Hc H1)|exact (proj1 (IH false) _ _ H2)].
      * intros _ r H. injection H as H1 _. exact (Hc H1).
Qed.

Lemma single_dash_suffix : forall (p s : text),
  (forall a r, p ++ s <> a ++ "-"%char :: "-"%char :: r) ->
  forall a r, s <> a ++ "-"%char :: "-"%char :: r.
Proof. intros p s H a r E. apply (H (p ++ a) r). rewrite E, app_assoc. reflexivity. Qed.

Lemma single_dash_rev : forall (s : text),
  (forall a r, s <> a ++ "-"%char :: "-"%char :: r) ->
  forall a r, rev s <> a ++ "-"%char :: "-"%char :: r.
Proof.
  intros s H a r E. apply (H (rev r) (rev a)).
  rewrite <- (rev_involutive s), E, rev_app_distr. cbn [rev]. rewrite <- !app_assoc. reflexivity.
Qed.

(** X16: the dash-replacing [sanitize_filename] of the draft script
    always gives a non-empty name without any of the characters
    [\ / : * ?], the double quote, [< > |],
    without two dashes in a row, and neither starting nor ending with a
    dash. *)
Theorem sanitize_filename_draft_safe : forall s,
  let r := sanitize_filename_draft s in
  r <> []
  /\ (forall c, In c r -> is_reserved c = false)
  /\ (forall a b, r <> a ++ "-"%char :: "-"%char :: b)
  /\ (forall x, r <> "-"%char :: x)
  /\ (forall x, r <> x ++ ["-"%char]).
Proof.
  intros s r.
  assert (Hu : (forall c, In c unknown -> is_reserved c = false) /\ ~ In "-"%char unknown).
  { split; [intros c Hc; repeat (destruct Hc as [<-|Hc]; [reflexivity|]); destruct Hc|].
    intros Hc; repeat (destruct Hc as [Hc|Hc]; [discriminate|]); exact Hc. }
  assert (Hunk : unknown <> []
      /\ (forall c, In c unknown -> is_reserved c = false)
      /\ (forall a b, unknown <> a ++ "-"%char :: "-"%char :: b)
      /\ (forall x, unknown <> "-"%char :: x)
      /\ (forall x, unknown <> x ++ ["-"%char])).
  { destruct Hu as [Hu1 Hu2]. split; [discriminate|]. split; [exact Hu1|].
    split; [intros a b E; apply Hu2; rewrite E; apply in_or_app; right; left; reflexivity|].
    split; [intros x E; apply Hu2; rewrite E; left; reflexivity|].
    intros x E. apply Hu2. rewrite E. apply in_or_app. right. left. reflexivity. }
  unfold r, sanitize_filename_draft.
  destruct (text_eqb s [] || text_eqb (strip s) []); [exact Hunk|].
  set (s1 := map (fun c => if is_reserved c then "-"%char else c) (strip s)).
  set (d := fun c => Ascii.eqb c "-").
  set (X := lstrip_by d (collapse_dashes false s1)).
  set (Y := lstrip_by d (rev X)).
  change (strip_by d (collapse_dashes false s1)) with (rev Y).
  destruct (text_eqb (rev Y) []) eqn:Ee; [exact Hunk|].
  split; [intros E; rewrite E in Ee; discriminate|].
  split.
  { intros c Hc. apply in_rev in Hc.
    apply lstrip_by_In, in_rev, lstrip_by_In, collapse_dashes_In in Hc.
    unfold s1 in Hc. apply in_map_iff in Hc as (x & <- & _).
    destruct (is_reserved x) eqn:Ex; [reflexivity|exact Ex]. }
  split.
  { apply single_dash_rev. destruct (lstrip_by_suffix d (rev X)) as (p & Hp).
    fold Y in Hp. apply (single_dash_suffix p). rewrite <- Hp. apply single_dash_rev.
    destruct (lstrip_by_suffix d (collapse_dashes false s1)) as (q & Hq).
    fold X in Hq. apply (single_dash_suffix q). rewrite <- Hq. apply (collapse_dashes_single s1 false). }
  split.
  { intros x E. assert (HY : Y = rev x ++ ["-"%char]).
    { rewrite <- (rev_involutive Y), E. reflexivity. }
    destruct (lstrip_by_suffix d (rev X)) as (p & Hp). fold Y in Hp. rewrite HY in Hp.
    assert (HX : X = "-"%char :: rev (p ++ rev x)).
    { rewrite <- (rev_involutive X), Hp, app_assoc, rev_app_distr. reflexivity. }
    pose proof (lstrip_by_head _ _ _ _ HX) as H. discriminate H. }
  intros x E. assert (HY : Y = "-"%char :: rev x).
  { rewrite <- (rev_involutive Y), E, rev_app_distr. reflexivity. }
  pose proof (lstrip_by_head _ _ _ _ HY) as H. discriminate H.
Qed.
